(** * The image-partition action of debos, embedded and verified

    Source: [src/actions/image_partition_action.go] (the action) and
    [src/cmd/debos/debos.go] (the driver that calls its phases).

    The action is stateful Go code: its methods mutate the action itself
    (through pointer receivers, or through the slices a value receiver
    shares with its caller), mutate the build context, and call out to
    the host (parted, mkfs, blkid, losetup, mount, umount).  The
    embedding threads all of that through a small state-and-panic
    monad; everything the host answers comes from an oracle. *)

From Stdlib Require Import ZArith List String Ascii Bool Lia DecimalString.
From Stdlib Require Import DecimalZ DecimalPos.
Import ListNotations.

Local Open Scope list_scope.
Local Open Scope string_scope.

(** ** Go primitives used by the action *)

(** [error]: [None] is Go's [nil], [Some msg] an error with that text. *)
Definition error : Type := option string.

(** Go's [int] on the 64-bit targets debos builds for: two's complement
    wrap-around, written out. *)
Definition int_wrap (z : Z) : Z :=
  ((z + 9223372036854775808) mod 18446744073709551616 - 9223372036854775808)%Z.

Definition int_add (a b : Z) : Z := int_wrap (a + b).

(** [fmt.Sprintf("%d", n)]. *)
Definition itoa (n : Z) : string := NilZero.string_of_int (Z.to_int n).

(** [strings.Contains(s, substr)]. *)
Fixpoint strings_Contains (s substr : string) : bool :=
  String.prefix substr s ||
  match s with
  | EmptyString => false
  | String _ s' => strings_Contains s' substr
  end.

(** [strings.Join(elems, sep)]. *)
Definition strings_Join (elems : list string) (sep : string) : string :=
  String.concat sep elems.

(** [s[len(s)-1]]: the last byte, [None] where Go panics with an index
    out of range (the empty string). *)
Fixpoint last_byte (s : string) : option ascii :=
  match s with
  | EmptyString => None
  | String c EmptyString => Some c
  | String _ s' => last_byte s'
  end.

(** [last >= '0' && last <= '9'] on a byte. *)
Definition is_digit (c : ascii) : bool :=
  (48 <=? nat_of_ascii c)%nat && (nat_of_ascii c <=? 57)%nat.

(** ** Data model *)

(** [type Partition struct].  The fields carry the prefix [p_] (and
    those of a mount [m_]) because the source names a field of
    [Mountpoint] after each of the two types, and [End] is a keyword.
    [Flags] is a slice; the source's [p.Flags != nil] test only guards a
    loop that a nil and an empty slice both run zero times, so a list
    models it. *)
Record Partition : Type := mkPartition {
  p_number : Z;
  p_Name   : string;
  p_Start  : string;
  p_End    : string;
  p_FS     : string;
  p_Flags  : list string;
  p_FSUUID : string
}.

(** [type Mountpoint struct].  [part *Partition] always points at an
    element of the action's [Partitions] slice (it is only ever set to
    [&i.Partitions[pidx]]), so it is the index of that element, and
    [None] is the nil pointer. *)
Record Mountpoint : Type := mkMountpoint {
  m_Mountpoint : string;
  m_Partition  : string;
  m_Options    : list string;
  m_part       : option nat
}.

(** [type ImagePartitionAction struct] (the embedded [BaseAction] has
    no field the action reads). *)
Record ImagePartitionAction : Type := mkAction {
  ImageName     : string;
  ImageSize     : string;
  PartitionType : string;
  Partitions    : list Partition;
  Mountpoints   : list Mountpoint;
  size          : Z;
  usingLoop     : bool
}.

(** Modelled from the spec: the declaration of [debos.DebosContext] is
    not among the sources; these are the fields the action and the
    driver read and write (spec section 3, Build Context).
    [ImageFSTab] is a [bytes.Buffer]: its content. *)
Record DebosContext : Type := mkContext {
  Scratchdir      : string;
  Rootdir         : string;
  Image           : string;
  ImageMntDir     : string;
  ImageFSTab      : string;
  ImageKernelRoot : string
}.

(** ** The host *)

(** Every call that leaves the process, with its arguments. *)
Inductive Op : Type :=
| LogStart
| CommandRun (label : string) (cmdline : list string)
| ExecOutput (argv : list string)
| ExecRun (argv : list string)
| MkdirAll (path : string) (perm : Z)
| Mount (source target fstype : string) (flags : Z) (data : string)
| Unmount (target : string) (flags : Z)
| OpenFile (name : string) (flag perm : Z)
| Truncate (name : string) (sz : Z)
| Close (name : string)
| CreateImage (name : string) (sz : Z)
| RunInMachineWithArgs (args : list string).

(** What the host answers: an error or not, the bytes it printed (or
    the path it returned), and an exit code where the caller reads one. *)
Record Response : Type := mkResponse {
  r_err  : error;
  r_out  : string;
  r_code : Z
}.

(** The outside of the program.  [host] answers an operation given all
    operations performed before it; the three functions are library
    code the repository imports. *)
Class Platform : Type := {
  host                : list Op -> Op -> Response;
  strings_TrimSpace   : string -> string;
  path_Join           : string -> string -> string;
  units_FromHumanSize : string -> option Z
}.

(** ** State and the monad *)

(** What a phase can change: the action the recipe holds (the driver
    keeps a pointer to it), the build context, the sandbox launch
    arguments, and the operations performed so far. *)
Record State : Type := mkState {
  st_action  : ImagePartitionAction;
  st_context : DebosContext;
  st_args    : list string;
  st_trace   : list Op
}.

(** A call either returns or panics (nil dereference, index out of
    range); both leave a state behind. *)
Inductive Outcome (A : Type) : Type :=
| Returns (a : A) (s : State)
| Panics (msg : string) (s : State).

Arguments Returns {A} a s.
Arguments Panics {A} msg s.

Definition M (A : Type) : Type := State -> Outcome A.

Definition ret {A : Type} (a : A) : M A := fun s => Returns a s.

Definition bind {A B : Type} (c : M A) (k : A -> M B) : M B :=
  fun s =>
    match c s with
    | Returns a s' => k a s'
    | Panics msg s' => Panics msg s'
    end.

Definition panic {A : Type} (msg : string) : M A := fun s => Panics msg s.

Declare Scope go_scope.
Delimit Scope go_scope with go.
Notation "x <- c ;; k" := (bind c (fun x => k))
  (at level 61, c at next level, right associativity) : go_scope.
Notation "c ;; k" := (bind c (fun _ => k))
  (at level 61, right associativity) : go_scope.
Local Open Scope go_scope.

(** [if err != nil { return err }] followed by the rest of the body. *)
Definition or_return (c : M error) (k : M error) : M error :=
  e <- c ;;
  match e with
  | Some msg => ret (Some msg)
  | None => k
  end.

Notation "'guard' c ;; k" := (or_return c k)
  (at level 61, c at next level, right associativity) : go_scope.

Definition state_of {A : Type} (o : Outcome A) : State :=
  match o with
  | Returns _ s => s
  | Panics _ s => s
  end.

Definition get_action : M ImagePartitionAction :=
  fun s => Returns (st_action s) s.

Definition get_context : M DebosContext :=
  fun s => Returns (st_context s) s.

Definition get_args : M (list string) :=
  fun s => Returns (st_args s) s.

(** Assignments through [i], through [context] and through [args]. *)
Definition modify_action (f : ImagePartitionAction -> ImagePartitionAction)
  : M unit :=
  fun s =>
    Returns tt (mkState (f (st_action s)) (st_context s) (st_args s)
                        (st_trace s)).

Definition modify_context (f : DebosContext -> DebosContext) : M unit :=
  fun s =>
    Returns tt (mkState (st_action s) (f (st_context s)) (st_args s)
                        (st_trace s)).

Definition modify_args (f : list string -> list string) : M unit :=
  fun s =>
    Returns tt (mkState (st_action s) (st_context s) (f (st_args s))
                        (st_trace s)).

(** Field updates. *)
Definition set_number (n : Z) (p : Partition) : Partition :=
  mkPartition n (p_Name p) (p_Start p) (p_End p) (p_FS p) (p_Flags p)
              (p_FSUUID p).

Definition set_FSUUID (u : string) (p : Partition) : Partition :=
  mkPartition (p_number p) (p_Name p) (p_Start p) (p_End p) (p_FS p)
              (p_Flags p) u.

Definition set_part (q : option nat) (m : Mountpoint) : Mountpoint :=
  mkMountpoint (m_Mountpoint m) (m_Partition m) (m_Options m) q.

Definition set_Partitions (ps : list Partition) (i : ImagePartitionAction)
  : ImagePartitionAction :=
  mkAction (ImageName i) (ImageSize i) (PartitionType i) ps (Mountpoints i)
           (size i) (usingLoop i).

Definition set_Mountpoints (ms : list Mountpoint) (i : ImagePartitionAction)
  : ImagePartitionAction :=
  mkAction (ImageName i) (ImageSize i) (PartitionType i) (Partitions i) ms
           (size i) (usingLoop i).

Definition set_size (z : Z) (i : ImagePartitionAction) : ImagePartitionAction :=
  mkAction (ImageName i) (ImageSize i) (PartitionType i) (Partitions i)
           (Mountpoints i) z (usingLoop i).

Definition set_usingLoop (b : bool) (i : ImagePartitionAction)
  : ImagePartitionAction :=
  mkAction (ImageName i) (ImageSize i) (PartitionType i) (Partitions i)
           (Mountpoints i) (size i) b.

Definition set_Image (v : string) (c : DebosContext) : DebosContext :=
  mkContext (Scratchdir c) (Rootdir c) v (ImageMntDir c) (ImageFSTab c)
            (ImageKernelRoot c).

Definition set_ImageMntDir (v : string) (c : DebosContext) : DebosContext :=
  mkContext (Scratchdir c) (Rootdir c) (Image c) v (ImageFSTab c)
            (ImageKernelRoot c).

Definition set_ImageFSTab (v : string) (c : DebosContext) : DebosContext :=
  mkContext (Scratchdir c) (Rootdir c) (Image c) (ImageMntDir c) v
            (ImageKernelRoot c).

Definition set_ImageKernelRoot (v : string) (c : DebosContext) : DebosContext :=
  mkContext (Scratchdir c) (Rootdir c) (Image c) (ImageMntDir c)
            (ImageFSTab c) v.

(** Replace element [n] of a slice; out of range leaves it as it is
    (every use below has already read element [n]). *)
Fixpoint list_set {A : Type} (n : nat) (x : A) (l : list A) : list A :=
  match l, n with
  | [], _ => []
  | _ :: l', O => x :: l'
  | y :: l', S n' => y :: list_set n' x l'
  end.

(** [&i.Partitions[idx]] read: panics out of range. *)
Definition partition_at (idx : nat) : M Partition :=
  i <- get_action ;;
  match nth_error (Partitions i) idx with
  | Some p => ret p
  | None => panic "index out of range"
  end.

(** [i.Mountpoints[idx]] read. *)
Definition mountpoint_at (idx : nat) : M Mountpoint :=
  i <- get_action ;;
  match nth_error (Mountpoints i) idx with
  | Some m => ret m
  | None => panic "index out of range"
  end.

(** [*m.part] read: panics on the nil pointer. *)
Definition deref (q : option nat) : M Partition :=
  match q with
  | Some idx => partition_at idx
  | None => panic "nil pointer dereference"
  end.

(** A write through [p := &i.Partitions[idx]]. *)
Definition update_partition (idx : nat) (f : Partition -> Partition) : M unit :=
  p <- partition_at idx ;;
  modify_action
    (fun i => set_Partitions (list_set idx (f p) (Partitions i)) i).

(** A write through [m := &i.Mountpoints[idx]]. *)
Definition update_mountpoint (idx : nat) (f : Mountpoint -> Mountpoint)
  : M unit :=
  m <- mountpoint_at idx ;;
  modify_action
    (fun i => set_Mountpoints (list_set idx (f m) (Mountpoints i)) i).

(** A method with a value receiver, [func (i ImagePartitionAction) ...],
    runs on a copy of the struct.  The copy's slices share their
    elements with the caller's, so writes to [i.Partitions[idx]] reach
    the caller; writes to the copy's own fields ([size], [usingLoop],
    the strings) are gone when the method returns. *)
Definition copy_back (caller local : ImagePartitionAction)
  : ImagePartitionAction :=
  mkAction (ImageName caller) (ImageSize caller) (PartitionType caller)
           (Partitions local) (Mountpoints local)
           (size caller) (usingLoop caller).

Definition leave (caller : ImagePartitionAction) (s : State) : State :=
  mkState (copy_back caller (st_action s)) (st_context s) (st_args s)
          (st_trace s).

Definition value_receiver {A : Type} (body : M A) : M A :=
  fun s =>
    match body s with
    | Returns a s' => Returns a (leave (st_action s) s')
    | Panics msg s' => Panics msg (leave (st_action s) s')
    end.

(** A [range] loop whose body may return an error from the enclosing
    function. *)
Fixpoint for_range {A : Type} (l : list A) (body : A -> M error) : M error :=
  match l with
  | [] => ret None
  | x :: l' => guard body x ;; for_range l' body
  end.

(** The two bytes the fstab format string escapes. *)
Definition tab : string := String (ascii_of_nat 9) EmptyString.
Definition newline : string := String (ascii_of_nat 10) EmptyString.

(** ** The action's methods *)

Section Action.

Context `{Platform}.

(** One call to the host: it answers from the history, and the call is
    appended to the history. *)
Definition perform (op : Op) : M Response :=
  fun s =>
    Returns (host (st_trace s) op)
            (mkState (st_action s) (st_context s) (st_args s)
                     (st_trace s ++ [op])).

(** [debos.Command{}.Run(label, cmdline...)]: an error for a command
    that could not run or exited non-zero. *)
Definition Command_Run (label : string) (cmdline : list string) : M error :=
  r <- perform (CommandRun label cmdline) ;;
  ret (r_err r).

Definition or_panic {A : Type} (o : option A) : M A :=
  match o with
  | Some a => ret a
  | None => panic "index out of range"
  end.

(** [func (i ImagePartitionAction) getPartitionDevice(number int,
    context debos.DebosContext) string]; [None] is the panic of
    [context.Image[len(context.Image)-1]] on an empty path. *)
Definition getPartitionDevice (number : Z) (context : DebosContext)
  : option string :=
  let suffix :=
    if strings_Contains (Image context) "/disk/by-id/" then "-part" else "p" in
  match last_byte (Image context) with
  | None => None
  | Some last =>
      if is_digit last
      then Some (Image context ++ suffix ++ itoa number)
      else Some (Image context ++ itoa number)
  end.

(** The [switch p.FS] of [formatPartition]: the command line before
    the device path is appended. *)
Definition mkfs_cmdline (p : Partition) : list string :=
  if p_FS p =? "fat32"
  then ["mkfs.vfat"; "-n"; p_Name p]
  else ["mkfs." ++ p_FS p; "-L"; p_Name p].

(** [func (i ImagePartitionAction) formatPartition(p *Partition,
    context debos.DebosContext) error]; [p] is [&i.Partitions[idx]].
    The result of [debos.Command{}.Run] is dropped, as in the source. *)
Definition formatPartition (idx : nat) (context : DebosContext) : M error :=
  value_receiver (
    p <- partition_at idx ;;
    let label := "Formatting partition " ++ itoa (p_number p) in
    path <- or_panic (getPartitionDevice (p_number p) context) ;;
    let cmdline := (mkfs_cmdline p ++ [path])%list in
    _ <- Command_Run label cmdline ;;
    r <- perform (ExecOutput ["blkid"; "-o"; "value"; "-s"; "UUID"; "-p";
                              "-c"; "none"; path]) ;;
    match r_err r with
    | Some e => ret (Some ("Failed to get uuid: " ++ e))
    | None =>
        update_partition idx (set_FSUUID (strings_TrimSpace (r_out r))) ;;
        ret None
    end).

(** The [switch m.part.FS] of [generateFSTab]. *)
Definition fstab_fs (p : Partition) : string :=
  let fs := p_FS p in
  if p_FS p =? "fat32" then "vfat" else fs.

(** One iteration of the loop of [generateFSTab]. *)
Definition generateFSTab_entry (m : Mountpoint) : M error :=
  let options := (["defaults"] ++ m_Options m)%list in
  p <- deref (m_part m) ;;
  if p_FSUUID p =? ""
  then ret (Some ("Missing fs UUID for partition " ++ p_Name p ++ "!?!"))
  else
    let fs := fstab_fs p in
    modify_context
      (fun context =>
         set_ImageFSTab
           (ImageFSTab context ++
            ("UUID=" ++ p_FSUUID p ++ tab ++ m_Mountpoint m ++ tab ++ fs
             ++ tab ++ strings_Join options "," ++ tab ++ "0" ++ tab ++ "0"
             ++ newline))
           context) ;;
    ret None.

(** [func (i *ImagePartitionAction) generateFSTab(context
    *debos.DebosContext) error]. *)
Definition generateFSTab : M error :=
  modify_context (set_ImageFSTab "") ;;
  i <- get_action ;;
  guard for_range (Mountpoints i) generateFSTab_entry ;;
  ret None.

(** The loop of [generateKernelRoot] over the mounts still to visit:
    [return] on an empty UUID, [break] after the assignment. *)
Fixpoint generateKernelRoot_loop (ms : list Mountpoint) : M error :=
  match ms with
  | [] => ret None
  | m :: rest =>
      if m_Mountpoint m =? "/"
      then
        p <- deref (m_part m) ;;
        if p_FSUUID p =? ""
        then ret (Some "No fs UUID for root partition !?!")
        else
          modify_context (set_ImageKernelRoot ("root=UUID=" ++ p_FSUUID p)) ;;
          ret None
      else generateKernelRoot_loop rest
  end.

(** [func (i *ImagePartitionAction) generateKernelRoot(context
    *debos.DebosContext) error]. *)
Definition generateKernelRoot : M error :=
  i <- get_action ;;
  generateKernelRoot_loop (Mountpoints i).

(** [func (i ImagePartitionAction) PreMachine(context, m, args) error]. *)
Definition PreMachine : M error :=
  value_receiver (
    i <- get_action ;;
    r <- perform (CreateImage (ImageName i) (size i)) ;;
    match r_err r with
    | Some e => ret (Some e)
    | None =>
        let image := r_out r in
        modify_context (set_Image image) ;;
        modify_args (fun args => args ++ ["--internal-image"; image])%list ;;
        ret None
    end).

(** [func (i ImagePartitionAction) PreNoMachine(context) error].
    [os.O_WRONLY|os.O_CREATE] is 65 and [0666] is 438. *)
Definition PreNoMachine : M error :=
  value_receiver (
    i <- get_action ;;
    r <- perform (OpenFile (ImageName i) 65 438) ;;
    match r_err r with
    | Some e => ret (Some ("Couldn't open image file: " ++ e))
    | None =>
        r <- perform (Truncate (ImageName i) (size i)) ;;
        match r_err r with
        | Some e => ret (Some ("Couldn't resize image file: " ++ e))
        | None =>
            _ <- perform (Close (ImageName i)) ;;
            r <- perform (ExecOutput ["losetup"; "-f"; "--show"; ImageName i]) ;;
            match r_err r with
            | Some _ => ret (Some "Failed to setup loop device")
            | None =>
                modify_context (set_Image (strings_TrimSpace (r_out r))) ;;
                modify_action (set_usingLoop true) ;;
                ret None
            end
        end
    end).

(** The body of the partition loop of [Run], at [p := &i.Partitions[idx]]. *)
Definition Run_partition (idx : nat) : M error :=
  i <- get_action ;;
  context <- get_context ;;
  p <- partition_at idx ;;
  let name := if PartitionType i =? "gpt" then p_Name p else "primary" in
  guard Command_Run "parted"
        ["parted"; "-a"; "none"; "-s"; Image context; "mkpart";
         name; p_FS p; p_Start p; p_End p] ;;
  guard for_range (p_Flags p)
        (fun flag =>
           Command_Run "parted"
             ["parted"; "-s"; Image context; "set"; itoa (p_number p);
              flag; "on"]) ;;
  guard formatPartition idx context ;;
  ret None.

(** The [switch m.part.FS] of the mount loop of [Run]. *)
Definition mount_fs (p : Partition) : string :=
  if p_FS p =? "fat32" then "vfat" else p_FS p.

(** The body of the mount loop of [Run]. *)
Definition Run_mount (m : Mountpoint) : M error :=
  context <- get_context ;;
  p <- deref (m_part m) ;;
  dev <- or_panic (getPartitionDevice (p_number p) context) ;;
  let mntpath := path_Join (ImageMntDir context) (m_Mountpoint m) in
  _ <- perform (MkdirAll mntpath 755) ;;
  let fs := mount_fs p in
  r <- perform (Mount dev mntpath fs 0 "") ;;
  match r_err r with
  | Some e => ret (Some (p_Name p ++ " mount failed: " ++ e))
  | None => ret None
  end.

(** [func (i ImagePartitionAction) Run(context *debos.DebosContext) error]. *)
Definition Run : M error :=
  value_receiver (
    _ <- perform LogStart ;;
    i <- get_action ;;
    context <- get_context ;;
    guard Command_Run "parted"
          ["parted"; "-s"; Image context; "mklabel"; PartitionType i] ;;
    guard for_range (seq 0 (List.length (Partitions i))) Run_partition ;;
    modify_context
      (fun context =>
         set_ImageMntDir (path_Join (Scratchdir context) "mnt") context) ;;
    context <- get_context ;;
    _ <- perform (MkdirAll (ImageMntDir context) 755) ;;
    i <- get_action ;;
    guard for_range (Mountpoints i) Run_mount ;;
    guard generateFSTab ;;
    guard generateKernelRoot ;;
    ret None).

(** The unmount loop of [Cleanup],
    [for idx := len(i.Mountpoints) - 1; idx >= 0; idx--], entered with
    [n = idx + 1]. *)
Fixpoint Cleanup_unmount (n : nat) (context : DebosContext) : M unit :=
  match n with
  | O => ret tt
  | S idx =>
      m <- mountpoint_at idx ;;
      let mntpath := path_Join (ImageMntDir context) (m_Mountpoint m) in
      _ <- perform (Unmount mntpath 0) ;;
      Cleanup_unmount idx context
  end.

(** [func (i ImagePartitionAction) Cleanup(context debos.DebosContext)
    error]. *)
Definition Cleanup (context : DebosContext) : M error :=
  value_receiver (
    i <- get_action ;;
    Cleanup_unmount (List.length (Mountpoints i)) context ;;
    i <- get_action ;;
    (if usingLoop i
     then _ <- perform (ExecRun ["losetup"; "-d"; Image context]) ;; ret tt
     else ret tt) ;;
    ret None).

(** The first loop of [Verify], over the indices still to visit, with
    the running [num]. *)
Fixpoint Verify_partitions (idxs : list nat) (num : Z) : M error :=
  match idxs with
  | [] => ret None
  | idx :: rest =>
      update_partition idx (set_number num) ;;
      let num := int_add num 1 in
      p <- partition_at idx ;;
      if p_Name p =? "" then ret (Some "Partition without a name")
      else if p_Start p =? ""
      then ret (Some ("Partition " ++ p_Name p ++ " missing start"))
      else if p_End p =? ""
      then ret (Some ("Partition " ++ p_Name p ++ " missing end"))
      else if p_FS p =? ""
      then ret (Some ("Partition " ++ p_Name p ++ " missing fs type"))
      else Verify_partitions rest num
  end.

(** The inner loop of the second loop of [Verify], for
    [m := &i.Mountpoints[idx]], over the partition indices still to
    visit: the first partition of that name is linked, then [break]. *)
Fixpoint Verify_link (idx : nat) (pidxs : list nat) : M unit :=
  match pidxs with
  | [] => ret tt
  | pidx :: rest =>
      m <- mountpoint_at idx ;;
      p <- partition_at pidx ;;
      if m_Partition m =? p_Name p
      then update_mountpoint idx (set_part (Some pidx))
      else Verify_link idx rest
  end.

(** The body of the second loop of [Verify]. *)
Definition Verify_mountpoint (idx : nat) : M error :=
  i <- get_action ;;
  Verify_link idx (seq 0 (List.length (Partitions i))) ;;
  m <- mountpoint_at idx ;;
  match m_part m with
  | None => ret (Some ("Couldn't fount partition for " ++ m_Mountpoint m))
  | Some _ => ret None
  end.

(** [func (i *ImagePartitionAction) Verify(context *debos.DebosContext)
    error]. *)
Definition Verify : M error :=
  i <- get_action ;;
  guard Verify_partitions (seq 0 (List.length (Partitions i))) 1 ;;
  guard for_range (seq 0 (List.length (Mountpoints i))) Verify_mountpoint ;;
  i <- get_action ;;
  match units_FromHumanSize (ImageSize i) with
  | None => ret (Some ("Failed to parse image size: " ++ ImageSize i))
  | Some sz =>
      modify_action (set_size sz) ;;
      ret None
  end.

(** ** The driver, for a recipe that holds this one action *)

(** [bailOnError]: returns on nil; otherwise the process exits with
    status 1 and nothing after the call runs (the log line and the
    optional debug shell before the exit are left out). *)
Definition bailOnError (err : error) (rest : M Z) : M Z :=
  match err with
  | None => rest
  | Some _ => ret 1%Z
  end.

(** [main] from the first phase on; [inMachine] and [supported] are
    [fakemachine.InMachine()] and [fakemachine.Supported()].
    [PostMachine] is the embedded [BaseAction]'s, which is not among
    the sources, and is left out. *)
Definition main (inMachine supported : bool) : M Z :=
  err <- Verify ;;
  bailOnError err (
    if negb inMachine && supported
    then
      err <- PreMachine ;;
      bailOnError err (
        args <- get_args ;;
        r <- perform (RunInMachineWithArgs args) ;;
        ret (r_code r))
    else
      err <- (if negb inMachine then PreNoMachine else ret None) ;;
      bailOnError err (
        err <- Run ;;
        bailOnError err (
          context <- get_context ;;
          err <- Cleanup context ;;
          bailOnError err (ret 0%Z)))).

End Action.

(** ** Concrete recipes and hosts *)

Definition answer (out : string) : Response := mkResponse None out 0.
Definition failure (msg : string) : Response := mkResponse (Some msg) "" 1.

(** A host on which every operation succeeds. *)
Definition willing_host (history : list Op) (op : Op) : Response :=
  match op with
  | ExecOutput ("blkid" :: _) =>
      answer ("uuid-" ++ itoa (Z.of_nat (List.length history)))
  | ExecOutput ("losetup" :: _) => answer "/dev/loop0"
  | CreateImage _ _ => answer "/dev/disk/by-id/virtio-fakedisk-0"
  | _ => answer ""
  end.

(** The same host, except that every mkfs command exits with status 1
    (and blkid still reports the UUID of an older filesystem). *)
Definition mkfs_failing_host (history : list Op) (op : Op) : Response :=
  match op with
  | CommandRun _ (prog :: _) =>
      if String.prefix "mkfs." prog then failure "exit status 1"
      else willing_host history op
  | _ => willing_host history op
  end.

(** Library functions for the examples: they agree with Go's on the
    strings the examples pass (no surrounding white space, clean
    absolute paths, the size 1GB). *)
Definition example_path_Join (a b : string) : string :=
  if b =? "/" then a
  else if String.prefix "/" b then a ++ b
  else a ++ "/" ++ b.

Definition example_FromHumanSize (s : string) : option Z :=
  if s =? "1GB" then Some 1000000000%Z else None.

Definition willing_platform : Platform :=
  Build_Platform willing_host (fun s => s) example_path_Join
                 example_FromHumanSize.

Definition mkfs_failing_platform : Platform :=
  Build_Platform mkfs_failing_host (fun s => s) example_path_Join
                 example_FromHumanSize.

(** The layout of the action's documentation, as the recipe decoder
    leaves it: unexported fields at their zero values. *)
Definition rpi3_action : ImagePartitionAction :=
  mkAction "debian-rpi3.img" "1GB" "msdos"
    [ mkPartition 0 "firmware" "0%" "64MB" "fat32" [] "";
      mkPartition 0 "root" "64MB" "100%" "ext4" ["boot"] "" ]
    [ mkMountpoint "/" "root" [] None;
      mkMountpoint "/boot/firmware" "firmware" ["x-systemd.automount"] None ]
    0 false.

Definition fresh_context : DebosContext :=
  mkContext "/scratch" "/scratch/root" "" "" "" "".

Definition rpi3_state : State :=
  mkState rpi3_action fresh_context ["debian-rpi3.yaml"] [].

(** The same recipe once [Verify] and [PreNoMachine] have run on a
    willing host: numbered, linked, sized, and attached to /dev/loop0. *)
Definition rpi3_on_loop0 : State :=
  mkState
    (mkAction "debian-rpi3.img" "1GB" "msdos"
       [ mkPartition 1 "firmware" "0%" "64MB" "fat32" [] "";
         mkPartition 2 "root" "64MB" "100%" "ext4" ["boot"] "" ]
       [ mkMountpoint "/" "root" [] (Some 1%nat);
         mkMountpoint "/boot/firmware" "firmware" ["x-systemd.automount"]
                      (Some 0%nat) ]
       1000000000 false)
    (mkContext "/scratch" "/scratch/root" "/dev/loop0" "" "" "")
    ["debian-rpi3.yaml"]
    [ OpenFile "debian-rpi3.img" 65 438;
      Truncate "debian-rpi3.img" 1000000000;
      Close "debian-rpi3.img";
      ExecOutput ["losetup"; "-f"; "--show"; "debian-rpi3.img"] ].



(** A verified action whose root partition has no UUID yet. *)
Definition unformatted_action : ImagePartitionAction :=
  mkAction "plain.img" "1GB" "gpt"
    [ mkPartition 1 "root" "0%" "100%" "ext4" [] "" ]
    [ mkMountpoint "/" "root" [] (Some 0%nat) ]
    1000000000 false.

Definition unformatted_state : State :=
  mkState unformatted_action fresh_context [] [].

(** The same action once its root partition is formatted. *)
Definition formatted_action : ImagePartitionAction :=
  mkAction "plain.img" "1GB" "gpt"
    [ mkPartition 1 "root" "0%" "100%" "ext4" [] "0a1b-2c3d" ]
    [ mkMountpoint "/" "root" [] (Some 0%nat) ]
    1000000000 false.

Definition formatted_state : State :=
  mkState formatted_action fresh_context [] [].

Definition by_id_context : DebosContext :=
  mkContext "/scratch" "/scratch/root" "/dev/disk/by-id/foo" "" "" "".

(** ** Vocabulary of the statements *)

Definition with_partitions (s : State) (ps : list Partition) : State :=
  mkState (set_Partitions ps (st_action s)) (st_context s) (st_args s)
          (st_trace s).

Definition with_mountpoints (s : State) (ms : list Mountpoint) : State :=
  mkState (set_Mountpoints ms (st_action s)) (st_context s) (st_args s)
          (st_trace s).

Definition with_context (s : State) (c : DebosContext) : State :=
  mkState (st_action s) c (st_args s) (st_trace s).

Definition with_trace (s : State) (t : list Op) : State :=
  mkState (st_action s) (st_context s) (st_args s) t.

(** No host call was made between two states. *)
Definition same_trace (s s' : State) : Prop := st_trace s' = st_trace s.

(** The partitions are the same between two states. *)
Definition same_partitions (s s' : State) : Prop :=
  Partitions (st_action s') = Partitions (st_action s).

(** The partitions carry the same ordinal numbers in two states. *)
Definition same_numbers (s s' : State) : Prop :=
  map p_number (Partitions (st_action s')) =
  map p_number (Partitions (st_action s)).

(** A partition that passes the four checks of [Verify]. *)
Definition well_formed (p : Partition) : Prop :=
  p_Name p <> "" /\ p_Start p <> "" /\ p_End p <> "" /\ p_FS p <> "".

(** The partition a mount's [part] points at, in an action. *)
Definition mount_partition (i : ImagePartitionAction) (m : Mountpoint)
  : option Partition :=
  match m_part m with
  | Some idx => nth_error (Partitions i) idx
  | None => None
  end.

(** What the first loop of [Verify] leaves in a slice it numbers from
    [num] on. *)
Fixpoint renumber (num : Z) (ps : list Partition) : list Partition :=
  match ps with
  | [] => []
  | p :: ps' => set_number num p :: renumber (int_add num 1) ps'
  end.

(** The index, counted from [k], of the first partition called [name]. *)
Fixpoint first_named (name : string) (ps : list Partition) (k : nat)
  : option nat :=
  match ps with
  | [] => None
  | p :: ps' =>
      if name =? p_Name p then Some k else first_named name ps' (S k)
  end.

(** How many declared partitions carry the name a mount refers to. *)
Definition matches (i : ImagePartitionAction) (m : Mountpoint) : nat :=
  List.length (filter (fun p => m_Partition m =? p_Name p) (Partitions i)).

(** A line of fstab, in the words of the specification. *)
Definition fstab_line (uuid mountpoint fs : string) (options : list string)
  : string :=
  ("UUID=" ++ uuid ++ tab ++ mountpoint ++ tab ++ fs ++ tab ++
   String.concat "," options ++ tab ++ "0" ++ tab ++ "0" ++ newline)%string.

(** The filesystem type behind a configured one: the fat32 alias. *)
Definition unaliased (fs : string) : string :=
  if fs =? "fat32" then "vfat" else fs.

(** What the inner loop does to mount [idx]. *)
Definition link (ps : list Partition) (m : Mountpoint) : Mountpoint :=
  match first_named (m_Partition m) ps 0 with
  | Some pidx => set_part (Some pidx) m
  | None => m
  end.

(** The test the loop of [generateKernelRoot] makes on a mount. *)
Definition is_root (m : Mountpoint) : bool := (m_Mountpoint m =? "/")%string.

(** The line of a mount, in the words of the specification; nothing
    for a mount that is not linked. *)
Definition line_of (i : ImagePartitionAction) (m : Mountpoint) : string :=
  match mount_partition i m with
  | Some p =>
      fstab_line (p_FSUUID p) (m_Mountpoint m) (unaliased (p_FS p))
                 ("defaults"%string :: m_Options m)
  | None => EmptyString
  end.

(** The lines of the mounts, in their order, one after the other. *)
Definition lines (i : ImagePartitionAction) (ms : list Mountpoint) : string :=
  fold_right String.append EmptyString (map (line_of i) ms).

(** A mount that is linked to a partition with a UUID. *)
Definition has_uuid (i : ImagePartitionAction) (m : Mountpoint) : Prop :=
  exists p, mount_partition i m = Some p /\ p_FSUUID p <> ""%string.

(** [context.ImageFSTab.Reset()]. *)
Definition reset (s : State) : State :=
  with_context s (set_ImageFSTab "" (st_context s)).

(** The host call [Cleanup] makes for one mount. *)
Definition unmount_of `{Platform} (context : DebosContext) (m : Mountpoint)
  : Op :=
  Unmount (path_Join (ImageMntDir context) (m_Mountpoint m)) 0.

(** The host call [Cleanup] makes for the loop device, if it makes it. *)
Definition detach_of (context : DebosContext) : Op :=
  ExecRun ["losetup"; "-d"; Image context].

(** [usingLoop] is the same in two states. *)
Definition same_usingLoop (s s' : State) : Prop :=
  usingLoop (st_action s') = usingLoop (st_action s).

(** Whatever ran through [exec.Command(...).Run()] by the second state
    had already run by the first. *)
Definition no_new_ExecRun (s s' : State) : Prop :=
  forall argv,
    In (ExecRun argv) (st_trace s') -> In (ExecRun argv) (st_trace s).

(** From a state whose flag is unset, the flag stays unset and nothing
    runs through [exec.Command(...).Run()]. *)
Definition no_detach (s s' : State) : Prop :=
  usingLoop (st_action s) = false ->
  usingLoop (st_action s') = false /\ no_new_ExecRun s s'.

(** The kernel root parameter is the same in two states. *)
Definition same_kernel_root (s s' : State) : Prop :=
  ImageKernelRoot (st_context s') = ImageKernelRoot (st_context s).

(** The mounts are the same in two states. *)
Definition same_mountpoints (s s' : State) : Prop :=
  Mountpoints (st_action s') = Mountpoints (st_action s).

(** *** Relations that compose along a computation *)

(** A relation between the state before and the state after that
    composes along sequencing. *)
Class Invariant (R : State -> State -> Prop) : Prop := {
  inv_refl : forall s, R s s;
  inv_trans : forall a b c, R a b -> R b c -> R a c
}.

(** A relation that does not look at the fields the epilogue of a
    value receiver restores. *)
Class ReceiverSafe (R : State -> State -> Prop) : Prop :=
  inv_leave : forall s s', R s s' -> R s (leave (st_action s) s').

(** Every run of [c] relates the state before to the state after. *)
Definition preserves (R : State -> State -> Prop) {A : Type} (c : M A) : Prop :=
  forall s, R s (state_of (c s)).

(** ** Vocabulary of the further properties *)

(** The error the four checks of the first loop of [Verify] raise on a
    partition, in the order the loop makes them. *)
Definition partition_error (p : Partition) : error :=
  if p_Name p =? "" then Some "Partition without a name"
  else if p_Start p =? ""
  then Some ("Partition " ++ p_Name p ++ " missing start")
  else if p_End p =? ""
  then Some ("Partition " ++ p_Name p ++ " missing end")
  else if p_FS p =? ""
  then Some ("Partition " ++ p_Name p ++ " missing fs type")
  else None.

(** A mount as the decoder leaves it: not linked. *)
Definition unlinked (m : Mountpoint) : Prop := m_part m = None.

(** The documented layout with the end of its second partition left
    out of the recipe. *)
Definition endless_action : ImagePartitionAction :=
  mkAction "debian-rpi3.img" "1GB" "msdos"
    [ mkPartition 0 "firmware" "0%" "64MB" "fat32" [] "";
      mkPartition 0 "root" "64MB" "" "ext4" ["boot"] "";
      mkPartition 0 "data" "" "" "ext4" [] "" ]
    [ mkMountpoint "/" "root" [] None ]
    0 false.

Definition endless_state : State :=
  mkState endless_action fresh_context [] [].

(** One list of host calls is the beginning of another. *)
Definition begins {A : Type} (l plan : list A) : Prop :=
  exists rest, plan = (l ++ rest)%list.

(** An action and a context on which [Run] can dereference what it
    dereferences: the image path has a last byte and every mount is
    linked to a partition of the action. *)
Definition ready (s : State) : Prop :=
  Image (st_context s) <> "" /\
  forall m, In m (Mountpoints (st_action s)) ->
            mount_partition (st_action s) m <> None.

(** The device of a partition ([""] where [getPartitionDevice] panics). *)
Definition device_of (context : DebosContext) (p : Partition) : string :=
  match getPartitionDevice (p_number p) context with
  | Some dev => dev
  | None => ""
  end.

(** The host calls [Run] has to make for one partition: create it, set
    its flags in their order, format it, read its UUID. *)
Definition partition_plan (i : ImagePartitionAction) (context : DebosContext)
    (p : Partition) : list Op :=
  (CommandRun "parted"
     ["parted"; "-a"; "none"; "-s"; Image context; "mkpart";
      if PartitionType i =? "gpt" then p_Name p else "primary";
      p_FS p; p_Start p; p_End p]
   :: map (fun flag =>
             CommandRun "parted"
               ["parted"; "-s"; Image context; "set"; itoa (p_number p);
                flag; "on"])
          (p_Flags p)
   ++ [ CommandRun ("Formatting partition " ++ itoa (p_number p))%string
          ((if p_FS p =? "fat32"
            then ["mkfs.vfat"; "-n"; p_Name p]
            else [("mkfs." ++ p_FS p)%string; "-L"; p_Name p])
           ++ [device_of context p]);
        ExecOutput ["blkid"; "-o"; "value"; "-s"; "UUID"; "-p"; "-c"; "none";
                    device_of context p] ])%list.

(** The path [Run] mounts a mount at. *)
Definition mount_path `{Platform} (context : DebosContext) (m : Mountpoint)
  : string :=
  path_Join (path_Join (Scratchdir context) "mnt") (m_Mountpoint m).

(** The host calls [Run] has to make for one mount: its directory, then
    the mount itself. *)
Definition mount_plan `{Platform} (i : ImagePartitionAction)
    (context : DebosContext) (m : Mountpoint) : list Op :=
  match mount_partition i m with
  | Some p =>
      [ MkdirAll (mount_path context m) 755;
        Mount (device_of context p) (mount_path context m)
              (unaliased (p_FS p)) 0 "" ]
  | None => []
  end.

(** All the host calls of a [Run] that nothing stops. *)
Definition Run_plan `{Platform} (i : ImagePartitionAction)
    (context : DebosContext) : list Op :=
  ([ LogStart;
     CommandRun "parted"
       ["parted"; "-s"; Image context; "mklabel"; PartitionType i] ]
   ++ flat_map (partition_plan i context) (Partitions i)
   ++ [ MkdirAll (path_Join (Scratchdir context) "mnt") 755 ]
   ++ flat_map (mount_plan i context) (Mountpoints i))%list.



(** A host call whose failure [Run] looks at: the parted commands
    (which run under the label parted; mkfs runs under another), blkid
    and the mounts.  It drops the results of mkfs and of the
    directory creations. *)
Definition checked (op : Op) : bool :=
  match op with
  | CommandRun label _ => (label =? "parted")%string
  | ExecOutput _ => true
  | Mount _ _ _ _ _ => true
  | _ => false
  end.

(** The host, asked after the calls [t], answers the checked call [op]
    with an error. *)
Definition refused `{Platform} (t : list Op) (op : Op) : bool :=
  checked op &&
  match r_err (host t op) with
  | Some _ => true
  | None => false
  end.

(** The calls of [plan], made one after the other from the history
    [t], up to and including the first one the host refuses. *)
Fixpoint until_refused `{Platform} (t plan : list Op) : list Op :=
  match plan with
  | [] => []
  | op :: rest =>
      if refused t op then [op]
      else op :: until_refused (t ++ [op])%list rest
  end.

(** The host refuses no call of [plan], made from the history [t]. *)
Fixpoint accepted `{Platform} (t plan : list Op) : bool :=
  match plan with
  | [] => true
  | op :: rest => negb (refused t op) && accepted (t ++ [op])%list rest
  end.

(** A stretch of [Run] with the calls [plan] before it: it made them
    up to the first one the host refused, and it returns nil exactly
    when the host refused none. *)
Definition heard `{Platform} (t plan : list Op) (e : error) (ops : list Op)
  : Prop :=
  ops = until_refused t plan /\ (e = None <-> accepted t plan = true).

(** The targets of the mount calls in a list of host calls, in order,
    and those of the unmount calls. *)
Definition mounted (ops : list Op) : list string :=
  flat_map (fun op => match op with
                      | Mount _ target _ _ _ => [target]
                      | _ => []
                      end) ops.

Definition unmounted (ops : list Op) : list string :=
  flat_map (fun op => match op with
                      | Unmount target _ => [target]
                      | _ => []
                      end) ops.

(** A state with other partitions and another history. *)
Definition moved (s : State) (ps : list Partition) (t : list Op) : State :=
  mkState (set_Partitions ps (st_action s)) (st_context s) (st_args s) t.

(** A partition with its UUID wiped: what the recipe declares of it,
    and its number. *)
Definition blank (p : Partition) : Partition := set_FSUUID "" p.

(** Between two states only the build context differs, and not in
    its mount directory. *)
Definition context_only (s s' : State) : Prop :=
  st_action s' = st_action s /\ st_args s' = st_args s /\
  st_trace s' = st_trace s /\
  ImageMntDir (st_context s') = ImageMntDir (st_context s).

(** Between two states the recipe, the partition numbers, the launch
    arguments and the paths of the build context are the same; the
    UUIDs of the partitions and the generated parts of the context
    (mount directory, fstab, kernel root parameter) may differ. *)
Definition same_recipe (s s' : State) : Prop :=
  ImageName (st_action s') = ImageName (st_action s) /\
  ImageSize (st_action s') = ImageSize (st_action s) /\
  PartitionType (st_action s') = PartitionType (st_action s) /\
  map blank (Partitions (st_action s')) = map blank (Partitions (st_action s)) /\
  Mountpoints (st_action s') = Mountpoints (st_action s) /\
  size (st_action s') = size (st_action s) /\
  usingLoop (st_action s') = usingLoop (st_action s) /\
  Scratchdir (st_context s') = Scratchdir (st_context s) /\
  Rootdir (st_context s') = Rootdir (st_context s) /\
  Image (st_context s') = Image (st_context s) /\
  st_args s' = st_args s.

(** The host calls of a [PreNoMachine] that nothing stops. *)
Definition PreNoMachine_plan (i : ImagePartitionAction) : list Op :=
  [ OpenFile (ImageName i) 65 438;
    Truncate (ImageName i) (size i);
    Close (ImageName i);
    ExecOutput ["losetup"; "-f"; "--show"; ImageName i] ].

(** ** The rest of the repository: its host and its monad

    [src/os.go], [src/actions/apt_action.go] and the driver in
    [src/cmd/debos/debos.go] neither dereference nor index, so they
    cannot panic; they call the host for files, for commands in the
    target root, for the sandbox and, in the driver, for the phases of
    the recipe's actions.  They get a host of their own, a history of
    calls and a state monad over it. *)

Module Sys.

(** What [os.IsNotExist] and [os.IsExist] tell apart in an error. *)
Inductive ErrKind : Type := NotExist | Exist | Other.

(** A non-nil [error] from the host. *)
Record Failure : Type := mkFailure {
  kind : ErrKind;
  text : string
}.

(** [os.IsNotExist(err)] and [os.IsExist(err)]; both are false of nil. *)
Definition IsNotExist (e : option Failure) : bool :=
  match e with
  | Some f => match kind f with NotExist => true | _ => false end
  | None => false
  end.

Definition IsExist (e : option Failure) : bool :=
  match e with
  | Some f => match kind f with Exist => true | _ => false end
  | None => false
  end.

(** The phases of the action contract, as the driver names them. *)
Inductive Phase : Type :=
| Verify | PreMachine | PreNoMachine | Run | Cleanup | PostMachine.

(** Every call that leaves these functions. *)
Inductive Call : Type :=
| os_Stat (name : string)
| os_Remove (name : string)
| os_RemoveAll (name : string)
| os_Create (name : string)
| File_Write (name data : string)
| File_Chmod (name : string) (mode : Z)
| File_Close (name : string)
| File_Truncate (name : string) (sz : Z)
| ioutil_TempFile (dir pattern : string)
| LogStart
| Chroot_Run (rootdir architecture : string) (env : list string)
             (label : string) (cmdline : list string)
| Command_Run (label : string) (cmdline : list string)
| Machine_CreateImage (path : string) (sz : Z)
| Machine_AddFstabEntry (source target fstype options : string) (dump pass : Z)
| Machine_RunInMachineWithArgs
| debos_DebugShell
| Action_phase (phase : Phase) (idx : nat).

(** What the host answers: an error or not; a name (of the temporary
    file); whether the file it looked at is a directory; an exit code.
    A call of a phase of an action can also panic instead of
    returning: [panics], and then the other fields mean nothing. *)
Record Reply : Type := mkReply {
  err    : option Failure;
  out    : string;
  is_dir : bool;
  code   : Z;
  panics : bool
}.

(** The host answers a call given the calls made before it. *)
Class World : Type := reply : list Call -> Call -> Reply.

Definition IO (A : Type) : Type := list Call -> A * list Call.

Definition ret {A : Type} (a : A) : IO A := fun t => (a, t).

Definition bind {A B : Type} (c : IO A) (k : A -> IO B) : IO B :=
  fun t => let (a, t') := c t in k a t'.

Definition call `{World} (c : Call) : IO Reply :=
  fun t => (reply t c, (t ++ [c])%list).

(** An [error] value out of a failure of the host. *)
Definition as_error (e : option Failure) : error := option_map text e.

End Sys.

Declare Scope io_scope.
Delimit Scope io_scope with io.
Notation "x <- c ;; k" := (Sys.bind c (fun x => k))
  (at level 61, c at next level, right associativity) : io_scope.
Notation "c ;; k" := (Sys.bind c (fun _ => k))
  (at level 61, right associativity) : io_scope.

(** ** [src/os.go] *)

Module OS.

Import Sys.
Local Open Scope io_scope.

Section Helper.

Context `{World}.

(** [const ( DenyServices = iota; AllowServices )] of type
    [ServicePolicy], an [int]. *)
Definition DenyServices : Z := 0.
Definition AllowServices : Z := 1.

Definition debianPolicyHelper : string := "/usr/sbin/policy-rc.d".

(** The bytes of [helper]. *)
Definition helper : string :=
  ("#!/bin/sh" ++ newline ++ "exit 101" ++ newline)%string.

(** [func ServicePolicyHelper(action ServicePolicy) error].  [0755] is
    493; the deferred [pf.Close()] runs when the function returns, on
    every path after [os.Create] succeeded. *)
Definition ServicePolicyHelper (action : Z) : IO error :=
  if (action =? DenyServices)%Z then
    r <- call (os_Stat debianPolicyHelper) ;;
    if IsNotExist (err r) then ret None
    else
      r <- call (os_Remove debianPolicyHelper) ;;
      match err r with
      | Some f => ret (Some (text f))
      | None => ret None
      end
  else if (action =? AllowServices)%Z then
    r <- call (os_Stat debianPolicyHelper) ;;
    if IsExist (err r)
    then ret (Some ("Policy helper file '" ++ debianPolicyHelper
                    ++ "' exists already")%string)
    else
      r <- call (os_Create debianPolicyHelper) ;;
      match err r with
      | Some f => ret (Some (text f))
      | None =>
          result <-
            (r <- call (File_Write debianPolicyHelper helper) ;;
             match err r with
             | Some f => ret (Some (text f))
             | None =>
                 r <- call (File_Chmod debianPolicyHelper 493) ;;
                 match err r with
                 | Some f => ret (Some (text f))
                 | None => ret None
                 end
             end) ;;
          _ <- call (File_Close debianPolicyHelper) ;;
          ret result
      end
  else ret (Some "Services policy type is not supported"%string).

End Helper.

End OS.

(** ** [src/actions/apt_action.go] *)

Module Apt.

Import Sys.
Local Open Scope io_scope.

(** [type AptAction struct]. *)
Record AptAction : Type := mkAptAction {
  Recommends    : bool;
  Packages      : list string;
  AllowServices : bool
}.

Section Action.

Context `{World}.

(** [c.Run(label, cmdline...)] on the command that
    [debos.NewChrootCommand(context.Rootdir, context.Architecture)]
    returned and that got [DEBIAN_FRONTEND=noninteractive] by
    [c.AddEnv]. *)
Definition c_Run (rootdir architecture : string) (label : string)
    (cmdline : list string) : IO error :=
  r <- call (Chroot_Run rootdir architecture
                        ["DEBIAN_FRONTEND=noninteractive"%string]
                        label cmdline) ;;
  ret (as_error (err r)).

(** [if err != nil { return err }] and the rest of the body. *)
Definition or_return (c : IO error) (k : IO error) : IO error :=
  e <- c ;;
  match e with
  | Some msg => ret (Some msg)
  | None => k
  end.

(** [func (apt *AptAction) Run(context *debos.DebosContext) error].
    [architecture] is [context.Architecture], a field the record of
    the context above does not carry.  The results of the two calls of
    the policy helper are dropped, as in the source; the second one is
    deferred and runs when [Run] returns. *)
Definition Run (apt : AptAction) (context : DebosContext)
    (architecture : string) : IO error :=
  _ <- call LogStart ;;
  let aptOptions := ["apt-get"; "-y"]%string in
  (if negb (AllowServices apt)
   then _ <- OS.ServicePolicyHelper OS.DenyServices ;; ret tt
   else ret tt) ;;
  result <-
    (let aptOptions :=
       if negb (Recommends apt)
       then (aptOptions ++ ["--no-install-recommends"%string])%list
       else aptOptions in
     let aptOptions := (aptOptions ++ ["install"%string])%list in
     let aptOptions := (aptOptions ++ Packages apt)%list in
     or_return (c_Run (Rootdir context) architecture "apt"
                      ["apt-get"; "update"]%string)
    (or_return (c_Run (Rootdir context) architecture "apt" aptOptions)
    (or_return (c_Run (Rootdir context) architecture "apt"
                      ["apt-get"; "clean"]%string)
               (ret None)))) ;;
  (if negb (AllowServices apt)
   then _ <- OS.ServicePolicyHelper OS.AllowServices ;; ret tt
   else ret tt) ;;
  ret result.

End Action.

End Apt.

(** ** [src/cmd/debos/debos.go] *)

Module Cmd.

Import Sys.
Local Open Scope io_scope.

Section Driver.

Context `{World}.

(** [units.FromHumanSize] and [filepath.Abs], library code; [None] is
    an error. *)
Variable units_FromHumanSize : string -> option Z.
Variable filepath_Abs : string -> option string.

(** [func prepareBuildImage(m *fakemachine.Machine, buildImagePath
    string, buildImageSize int64) (string, error)]. *)
Definition prepareBuildImage (buildImagePath : string) (buildImageSize : Z)
  : IO (string * error) :=
  fi <- call (os_Stat buildImagePath) ;;
  match err fi with
  | Some f => ret (""%string, Some (text f))
  | None =>
      if negb (is_dir fi)
      then ret (""%string,
                Some "Location for temporary build image must have directory type."%string)
      else
        buildImage <- call (ioutil_TempFile buildImagePath ".debos-build-") ;;
        match err buildImage with
        | Some f => ret (""%string, Some (text f))
        | None =>
            let name := out buildImage in
            r <- call (File_Truncate name buildImageSize) ;;
            match err r with
            | Some f => ret (name, Some (text f))
            | None =>
                let label := "/scratch"%string in
                let cmdline :=
                  ["mkfs.ext4"; "-q"; "-L"; label; name]%string in
                let cmdline :=
                  (cmdline ++ ["-O"; "^has_journal"]%string)%list in
                r <- call (Command_Run label cmdline) ;;
                match err r with
                | Some f => ret (name, Some (text f))
                | None =>
                    _ <- call (Machine_CreateImage name (-1)) ;;
                    _ <- call (Machine_AddFstabEntry
                                 ("LABEL=" ++ label)%string label
                                 "ext4" "defaults" 0 0) ;;
                    ret (name, None)
                end
            end
        end
  end.

(** [bailOnError]: on an error, after the log line, it calls
    [debos.DebugShell(context)] (which opens a shell when --debug-shell
    was given) and the process exits with status 1 at once, by
    [os.Exit], so that no deferred call runs. *)
Definition bailOnError (e : option Failure) (rest : IO Z) : IO Z :=
  match e with
  | None => rest
  | Some _ => _ <- call debos_DebugShell ;; ret 1%Z
  end.

(** [main] unwinds, by a [return] or by a panic: the deferred calls
    run, the last deferred first, and then the function deferred
    first, [os.Exit(exitcode)], ends the process. *)
Fixpoint returns (deferred : list Call) (exitcode : Z) : IO Z :=
  match deferred with
  | [] => ret exitcode
  | c :: older => _ <- call c ;; returns older exitcode
  end.

(** [for _, a := range r.Actions { err = a.<phase>(...);
    bailOnError(...) }] over the indices still to visit, then the rest
    of [main].  A phase that panics unwinds [main] with what is
    [deferred] at the loop and with the [exitcode] of that moment. *)
Fixpoint each_action (phase : Phase) (idxs : list nat)
    (deferred : list Call) (exitcode : Z) (rest : IO Z) : IO Z :=
  match idxs with
  | [] => rest
  | idx :: idxs' =>
      r <- call (Action_phase phase idx) ;;
      if panics r then returns deferred exitcode
      else bailOnError (err r)
             (each_action phase idxs' deferred exitcode rest)
  end.

(** [main] from its first loop on, for a recipe of [actions] actions.
    [inMachine] and [supported] are [fakemachine.InMachine()] and
    [fakemachine.Supported()]; [scratchdir] is the temporary directory
    whose removal [main] has deferred when neither holds; the two
    strings are the build-storage options.  [exitcode] is 0 at every
    loop: it is 1 only while the build image is prepared, and after
    the sandbox it is what the sandbox returned, 0 where
    [PostMachine] runs.  The argument list of the sandbox is put
    together by the command line and by the actions and is not
    represented; nor are the [m.AddVolume] calls and the log lines. *)
Definition main (actions : nat) (inMachine supported : bool)
    (scratchdir BuildStorageLocation BuildStorageSize : string) : IO Z :=
  let all := seq 0 actions in
  let deferred :=
    if inMachine || supported then [] else [os_RemoveAll scratchdir] in
  each_action Verify all deferred 0
    (if negb inMachine && supported then
       let sandbox (deferred : list Call) : IO Z :=
         each_action PreMachine all deferred 0
           (r <- call Machine_RunInMachineWithArgs ;;
            match err r with
            | Some _ => returns deferred (code r)
            | None =>
                if negb (code r =? 0)%Z then returns deferred (code r)
                else each_action PostMachine all deferred (code r)
                       (returns deferred (code r))
            end) in
       if negb (String.length BuildStorageLocation =? 0)%nat then
         match units_FromHumanSize BuildStorageSize with
         | None => returns deferred 1%Z
         | Some buildImageSize =>
             match filepath_Abs BuildStorageLocation with
             | None => returns deferred 1%Z
             | Some blddir =>
                 prepared <- prepareBuildImage blddir buildImageSize ;;
                 let (buildImage, e) := prepared in
                 let deferred :=
                   if negb (String.length buildImage =? 0)%nat
                   then os_Remove buildImage :: deferred
                   else deferred in
                 match e with
                 | Some _ => returns deferred 1%Z
                 | None => sandbox deferred
                 end
             end
         end
       else sandbox deferred
     else
       (if negb inMachine
        then each_action PreNoMachine all deferred 0
        else fun rest => rest)
         (each_action Run all deferred 0
            (each_action Cleanup all deferred 0
               (if negb inMachine
                then each_action PostMachine all deferred 0
                       (returns deferred 0%Z)
                else returns deferred 0%Z)))).

End Driver.

End Cmd.

(** ** Vocabulary for the apt action and the driver *)

(** A command run in the target root. *)
Definition is_chroot (c : Sys.Call) : bool :=
  match c with
  | Sys.Chroot_Run _ _ _ _ _ => true
  | _ => false
  end.

(** The three commands of an apt action that nothing stops. *)
Definition apt_plan (apt : Apt.AptAction) (rootdir architecture : string)
  : list Sys.Call :=
  let run := Sys.Chroot_Run rootdir architecture
               ["DEBIAN_FRONTEND=noninteractive"] "apt" in
  [ run ["apt-get"; "update"];
    run (["apt-get"; "-y"]
         ++ (if Apt.Recommends apt then [] else ["--no-install-recommends"])
         ++ ["install"] ++ Apt.Packages apt)%list;
    run ["apt-get"; "clean"] ].

(** The calls of a [prepareBuildImage] that nothing stops, for the
    temporary file of name [tmp]. *)
Definition prepareBuildImage_plan (path : string) (sz : Z) (tmp : string)
  : list Sys.Call :=
  [ Sys.os_Stat path;
    Sys.ioutil_TempFile path ".debos-build-";
    Sys.File_Truncate tmp sz;
    Sys.Command_Run "/scratch"
      ["mkfs.ext4"; "-q"; "-L"; "/scratch"; tmp; "-O"; "^has_journal"];
    Sys.Machine_CreateImage tmp (-1);
    Sys.Machine_AddFstabEntry "LABEL=/scratch" "/scratch" "ext4" "defaults" 0 0 ].

(** The phase calls among some calls, in order. *)
Definition phase_calls (ops : list Sys.Call) : list (Sys.Phase * nat) :=
  flat_map (fun c => match c with
                     | Sys.Action_phase p idx => [(p, idx)]
                     | _ => []
                     end) ops.

(** Each phase in turn, and within a phase the actions in the order of
    the recipe. *)
Definition schedule (phases : list Sys.Phase) (actions : nat)
  : list (Sys.Phase * nat) :=
  flat_map (fun p => map (pair p) (seq 0 actions)) phases.

(** The phases of the three ways to build: inside the sandbox, around
    it, and without one. *)
Definition phases_of (inMachine supported : bool) : list Sys.Phase :=
  if inMachine then [Sys.Verify; Sys.Run; Sys.Cleanup]
  else if supported then [Sys.Verify; Sys.PreMachine; Sys.PostMachine]
  else [Sys.Verify; Sys.PreNoMachine; Sys.Run; Sys.Cleanup; Sys.PostMachine].

(** Every phase call among [ops], made after [t], has [P] at the
    history it was made from. *)
Definition every_phase (P : list Sys.Call -> Sys.Call -> Prop)
    (t ops : list Sys.Call) : Prop :=
  forall before p idx after,
    ops = (before ++ Sys.Action_phase p idx :: after)%list ->
    P (t ++ before)%list (Sys.Action_phase p idx).

(** The call, made after [t], returns an error: it does not panic and
    what it returns is not nil. *)
Definition returned_error `{Sys.World} (t : list Sys.Call) (c : Sys.Call)
  : Prop :=
  Sys.panics (Sys.reply t c) = false /\ Sys.err (Sys.reply t c) <> None.

(** The call, made after [t], panics. *)
Definition panicked `{Sys.World} (t : list Sys.Call) (c : Sys.Call) : Prop :=
  Sys.panics (Sys.reply t c) = true.

(** No phase call among [ops], made after [t], returned an error. *)
Definition no_phase_failed `{Sys.World} (t ops : list Sys.Call) : Prop :=
  every_phase (fun t c => ~ returned_error t c) t ops.

(** No phase call among [ops], made after [t], panicked. *)
Definition no_phase_panicked `{Sys.World} (t ops : list Sys.Call) : Prop :=
  every_phase (fun t c => ~ panicked t c) t ops.

(** The creation of a temporary file. *)
Definition is_TempFile (c : Sys.Call) : bool :=
  match c with
  | Sys.ioutil_TempFile _ _ => true
  | _ => false
  end.

(** A computation that calls no phase of an action. *)
Definition quiet {A : Type} (m : Sys.IO A) : Prop :=
  forall t, exists a ops, m t = (a, (t ++ ops)%list) /\ phase_calls ops = [].

(** A driver computation extends the history by some calls [ops],
    exits with some [code], and [Q] holds of them. *)
Definition satisfies (Q : list Sys.Call -> Z -> list Sys.Call -> Prop)
    (c : Sys.IO Z) : Prop :=
  forall t, exists code ops, c t = (code, (t ++ ops)%list) /\ Q t code ops.

(** After a phase call that returned an error comes the debug shell
    and nothing else, and the exit code is 1; after a phase call that
    panicked comes no phase call. *)
Definition stops_short `{Sys.World} (t : list Sys.Call) (code : Z)
    (ops : list Sys.Call) : Prop :=
  forall before p idx after,
    ops = (before ++ Sys.Action_phase p idx :: after)%list ->
    (returned_error (t ++ before)%list (Sys.Action_phase p idx) ->
     after = [Sys.debos_DebugShell] /\ code = 1%Z) /\
    (panicked (t ++ before)%list (Sys.Action_phase p idx) ->
     phase_calls after = []).

(** The phase calls are a beginning of [plan]. *)
Definition follows (plan : list (Sys.Phase * nat)) (t : list Sys.Call)
    (code : Z) (ops : list Sys.Call) : Prop :=
  begins (phase_calls ops) plan.

(** The phase calls are a beginning of [plan]; when none returned an
    error the exit code is [z], and when none panicked either they are
    the whole of [plan]. *)
Definition completes `{Sys.World} (z : Z) (plan : list (Sys.Phase * nat))
    (t : list Sys.Call) (code : Z) (ops : list Sys.Call) : Prop :=
  begins (phase_calls ops) plan /\
  (no_phase_failed t ops ->
   code = z /\ (no_phase_panicked t ops -> phase_calls ops = plan)).

(** The start of the sandbox. *)
Definition is_sandbox (c : Sys.Call) : bool :=
  match c with
  | Sys.Machine_RunInMachineWithArgs => true
  | _ => false
  end.

(** Wherever the sandbox was started: a phase is called after it only
    when it came back without error and with exit code 0, and when no
    phase failed the exit code is the sandbox's. *)
Definition sandbox_decides `{Sys.World} (t : list Sys.Call) (code : Z)
    (ops : list Sys.Call) : Prop :=
  forall before after,
    ops = (before ++ Sys.Machine_RunInMachineWithArgs :: after)%list ->
    let r := Sys.reply (t ++ before)%list Sys.Machine_RunInMachineWithArgs in
    (phase_calls after <> [] -> Sys.err r = None /\ Sys.code r = 0%Z) /\
    (no_phase_failed t ops -> code = Sys.code r).

(** None of the calls is an [f]; when no phase failed the calls end
    with [deferred] and the exit code is [z]. *)
Definition ends_with `{Sys.World} (f : Sys.Call -> bool)
    (deferred : list Sys.Call) (z : Z)
    (t : list Sys.Call) (code : Z) (ops : list Sys.Call) : Prop :=
  existsb f ops = false /\
  (no_phase_failed t ops ->
   code = z /\ exists front, ops = (front ++ deferred)%list).

(** When no phase failed, a temporary file that was created, under a
    name that is not empty, is removed by the last call. *)
Definition removes_build_image `{Sys.World} (t : list Sys.Call) (code : Z)
    (ops : list Sys.Call) : Prop :=
  no_phase_failed t ops ->
  forall before dir pattern after,
    ops = (before ++ Sys.ioutil_TempFile dir pattern :: after)%list ->
    let r := Sys.reply (t ++ before)%list (Sys.ioutil_TempFile dir pattern) in
    Sys.err r = None -> Sys.out r <> "" ->
    exists mid, after = (mid ++ [Sys.os_Remove (Sys.out r)])%list.

(** No temporary file is created; when no phase failed the calls end
    with [deferred]. *)
Definition tidy `{Sys.World} (deferred : list Sys.Call)
    (t : list Sys.Call) (code : Z) (ops : list Sys.Call) : Prop :=
  existsb is_TempFile ops = false /\
  (no_phase_failed t ops -> exists front, ops = (front ++ deferred)%list).

(** * Proofs *)

(** ** Inversion of the monad's combinators *)

Lemma bind_Returns {A B : Type} (c : M A) (k : A -> M B) s b s' :
  bind c k s = Returns b s' ->
  exists a s1, c s = Returns a s1 /\ k a s1 = Returns b s'.
Proof.
  unfold bind. destruct (c s) as [a s1 | msg s1]; intros E.
  - exists a, s1. split; [reflexivity | exact E].
  - discriminate E.
Qed.

Lemma or_return_None (c k : M error) s s' :
  or_return c k s = Returns None s' ->
  exists s1, c s = Returns None s1 /\ k s1 = Returns None s'.
Proof.
  unfold or_return. intros E. apply bind_Returns in E.
  destruct E as (e & s1 & Ec & Ek). destruct e as [msg |].
  - discriminate Ek.
  - exists s1. split; assumption.
Qed.

Lemma value_receiver_Returns {A : Type} (body : M A) s a s' :
  value_receiver body s = Returns a s' ->
  exists s1, body s = Returns a s1 /\ s' = leave (st_action s) s1.
Proof.
  unfold value_receiver. destruct (body s) as [b s1 | msg s1]; intros E.
  - exists s1. split; congruence.
  - discriminate E.
Qed.

Lemma bind_eq {A B : Type} (c : M A) (k : A -> M B) s a s1 :
  c s = Returns a s1 -> bind c k s = k a s1.
Proof. unfold bind. intros ->. reflexivity. Qed.

Lemma or_return_eq (c k : M error) s s1 :
  c s = Returns None s1 -> or_return c k s = k s1.
Proof. unfold or_return. intros E. rewrite (bind_eq _ _ _ _ _ E). reflexivity. Qed.

Lemma or_return_fails (c k : M error) s msg s1 :
  c s = Returns (Some msg) s1 -> or_return c k s = Returns (Some msg) s1.
Proof. unfold or_return. intros E. rewrite (bind_eq _ _ _ _ _ E). reflexivity. Qed.

(** ** Relations every step of a computation keeps *)

Section Preservation.

Context (R : State -> State -> Prop) `{!Invariant R}.

Lemma preserves_ret {A : Type} (a : A) : preserves R (ret a).
Proof. intros s. apply inv_refl. Qed.

Lemma preserves_panic {A : Type} (msg : string) : preserves R (@panic A msg).
Proof. intros s. apply inv_refl. Qed.

Lemma preserves_bind {A B : Type} (c : M A) (k : A -> M B) :
  preserves R c -> (forall a, preserves R (k a)) -> preserves R (bind c k).
Proof.
  intros Hc Hk s. unfold bind. specialize (Hc s).
  destruct (c s) as [a s1 | msg s1]; simpl in *.
  - apply inv_trans with s1; [exact Hc | apply Hk].
  - exact Hc.
Qed.

Lemma preserves_or_return (c k : M error) :
  preserves R c -> preserves R k -> preserves R (or_return c k).
Proof.
  intros Hc Hk. unfold or_return. apply preserves_bind; [exact Hc |].
  intros [msg |]; [apply preserves_ret | exact Hk].
Qed.

Lemma preserves_for_range {A : Type} (l : list A) (body : A -> M error) :
  (forall x, preserves R (body x)) -> preserves R (for_range l body).
Proof.
  intros Hb. induction l as [| x l IH]; simpl.
  - apply preserves_ret.
  - apply preserves_or_return; [apply Hb | exact IH].
Qed.

Lemma preserves_get_action : preserves R get_action.
Proof. intros s. apply inv_refl. Qed.

Lemma preserves_get_context : preserves R get_context.
Proof. intros s. apply inv_refl. Qed.

Lemma preserves_get_args : preserves R get_args.
Proof. intros s. apply inv_refl. Qed.

Lemma preserves_or_panic {A : Type} (o : option A) :
  preserves R (or_panic o).
Proof. destruct o; [apply preserves_ret | apply preserves_panic]. Qed.

Lemma preserves_partition_at idx : preserves R (partition_at idx).
Proof.
  unfold partition_at. apply preserves_bind; [apply preserves_get_action |].
  intros i. destruct (nth_error (Partitions i) idx);
    [apply preserves_ret | apply preserves_panic].
Qed.

Lemma preserves_mountpoint_at idx : preserves R (mountpoint_at idx).
Proof.
  unfold mountpoint_at. apply preserves_bind; [apply preserves_get_action |].
  intros i. destruct (nth_error (Mountpoints i) idx);
    [apply preserves_ret | apply preserves_panic].
Qed.

Lemma preserves_deref q : preserves R (deref q).
Proof.
  destruct q; simpl; [apply preserves_partition_at | apply preserves_panic].
Qed.

Lemma preserves_value_receiver `{!ReceiverSafe R} {A : Type} (body : M A) :
  preserves R body -> preserves R (value_receiver body).
Proof.
  intros Hb s. unfold value_receiver. specialize (Hb s).
  destruct (body s) as [a s1 | msg s1]; simpl in *; apply inv_leave; exact Hb.
Qed.

End Preservation.

(** Breaks a goal [preserves R c] down along the structure of [c]; what
    is left are the writes and the host calls. *)
Ltac preserve_step :=
  match goal with
  | |- preserves _ (bind _ _) => apply preserves_bind; [exact _ .. | | intro]
  | |- preserves _ (or_return _ _) =>
      apply preserves_or_return; [exact _ .. | |]
  | |- preserves _ (for_range _ _) =>
      apply preserves_for_range; [exact _ .. | intro]
  | |- preserves _ (value_receiver _) =>
      apply preserves_value_receiver; [exact _ .. |]
  | |- preserves _ (ret _) => apply preserves_ret; exact _
  | |- preserves _ (panic _) => apply preserves_panic; exact _
  | |- preserves _ get_action => apply preserves_get_action; exact _
  | |- preserves _ get_context => apply preserves_get_context; exact _
  | |- preserves _ get_args => apply preserves_get_args; exact _
  | |- preserves _ (or_panic _) => apply preserves_or_panic; exact _
  | |- preserves _ (partition_at _) => apply preserves_partition_at; exact _
  | |- preserves _ (mountpoint_at _) => apply preserves_mountpoint_at; exact _
  | |- preserves _ (deref _) => apply preserves_deref; exact _
  | |- preserves _ (match ?x with _ => _ end) => destruct x
  | |- preserves _ (if ?x then _ else _) => destruct x
  end.

(** ** Lists *)

Local Open Scope list_scope.

Lemma list_set_middle {A : Type} (pre post : list A) (x y : A) :
  list_set (List.length pre) x (pre ++ y :: post) = pre ++ x :: post.
Proof. induction pre as [| a pre IH]; simpl; [reflexivity | now rewrite IH]. Qed.

Lemma nth_error_middle {A : Type} (pre post : list A) (y : A) :
  nth_error (pre ++ y :: post) (List.length pre) = Some y.
Proof. induction pre as [| a pre IH]; simpl; [reflexivity | exact IH]. Qed.

Lemma app_cons_snoc {A : Type} (pre post : list A) (x : A) :
  pre ++ x :: post = (pre ++ [x]) ++ post.
Proof. now rewrite <- app_assoc. Qed.

Lemma length_snoc {A : Type} (pre : list A) (x : A) :
  List.length (pre ++ [x]) = S (List.length pre).
Proof. rewrite length_app. simpl. lia. Qed.

(** ** Reads and writes through the slices *)

Lemma partition_at_eq idx p s :
  nth_error (Partitions (st_action s)) idx = Some p ->
  partition_at idx s = Returns p s.
Proof. unfold partition_at, bind, get_action. intros ->. reflexivity. Qed.

Lemma mountpoint_at_eq idx m s :
  nth_error (Mountpoints (st_action s)) idx = Some m ->
  mountpoint_at idx s = Returns m s.
Proof. unfold mountpoint_at, bind, get_action. intros ->. reflexivity. Qed.

Lemma update_partition_eq idx f p s :
  nth_error (Partitions (st_action s)) idx = Some p ->
  update_partition idx f s =
  Returns tt (with_partitions s (list_set idx (f p) (Partitions (st_action s)))).
Proof.
  intros E. unfold update_partition.
  rewrite (bind_eq _ _ _ _ _ (partition_at_eq _ _ _ E)). reflexivity.
Qed.

Lemma update_mountpoint_eq idx f m s :
  nth_error (Mountpoints (st_action s)) idx = Some m ->
  update_mountpoint idx f s =
  Returns tt (with_mountpoints s (list_set idx (f m) (Mountpoints (st_action s)))).
Proof.
  intros E. unfold update_mountpoint.
  rewrite (bind_eq _ _ _ _ _ (mountpoint_at_eq _ _ _ E)). reflexivity.
Qed.

(** ** The first loop of Verify *)

Section VerifyProofs.

Context `{Platform}.

Lemma Verify_partitions_numbers post :
  forall pre num s,
    Partitions (st_action s) = pre ++ post ->
    Forall well_formed post ->
    Verify_partitions (seq (List.length pre) (List.length post)) num s =
    Returns None (with_partitions s (pre ++ renumber num post)).
Proof.
  induction post as [| p post IH]; intros pre num s Eps Hwf.
  - simpl. unfold ret, with_partitions. rewrite <- Eps.
    destruct s as [[] ? ? ?]. reflexivity.
  - inversion Hwf as [| ? ? (Hn & Hs & He & Hf) Hwf']; subst.
    cbn [List.length seq Verify_partitions renumber].
    assert (E0 : nth_error (Partitions (st_action s)) (List.length pre) = Some p)
      by (rewrite Eps; apply nth_error_middle).
    rewrite (bind_eq _ _ _ _ _ (update_partition_eq _ (set_number num) _ _ E0)).
    rewrite Eps, list_set_middle.
    set (s1 := with_partitions s (pre ++ set_number num p :: post)).
    assert (E1 : nth_error (Partitions (st_action s1)) (List.length pre)
                 = Some (set_number num p)) by apply nth_error_middle.
    rewrite (bind_eq _ _ _ _ _ (partition_at_eq _ _ _ E1)). simpl.
    apply String.eqb_neq in Hn, Hs, He, Hf. rewrite Hn, Hs, He, Hf.
    rewrite <- (length_snoc pre (set_number num p)).
    rewrite (IH (pre ++ [set_number num p]) (int_add num 1) s1).
    + unfold with_partitions, s1. simpl. now rewrite <- app_assoc.
    + unfold s1. simpl. apply app_cons_snoc.
    + exact Hwf'.
Qed.

Lemma renumber_length num ps : List.length (renumber num ps) = List.length ps.
Proof.
  revert num. induction ps as [| p ps IH]; intros num; simpl;
    [reflexivity | now rewrite IH].
Qed.

Lemma first_named_renumber name ps :
  forall num k,
    first_named name (renumber num ps) k = first_named name ps k.
Proof.
  induction ps as [| p ps IH]; intros num k; simpl; [reflexivity |].
  now rewrite IH.
Qed.

End VerifyProofs.

(** ** What Verify keeps *)

#[local] Instance same_trace_invariant : Invariant same_trace.
Proof. split; unfold same_trace; congruence. Qed.

#[local] Instance same_trace_receiver : ReceiverSafe same_trace.
Proof. intros s s'. unfold same_trace. simpl. auto. Qed.

#[local] Instance same_partitions_invariant : Invariant same_partitions.
Proof. split; unfold same_partitions; congruence. Qed.

#[local] Instance same_numbers_invariant : Invariant same_numbers.
Proof. split; unfold same_numbers; congruence. Qed.

#[local] Instance same_numbers_receiver : ReceiverSafe same_numbers.
Proof. intros s s'. unfold same_numbers. simpl. auto. Qed.

(** Runs [preserve_step] to the leaves, opening the action's own
    helpers on the way, and closes the leaves with [leaf]. *)
Ltac preserve leaf :=
  repeat first
    [ leaf
    | preserve_step
    | progress unfold update_partition, update_mountpoint, Command_Run ].


Ltac partitions_leaf :=
  idtac;
  match goal with
  | |- preserves same_partitions (modify_action _) => intros ?; reflexivity
  | |- preserves same_partitions (modify_context _) => intros ?; reflexivity
  | |- preserves same_partitions (modify_args _) => intros ?; reflexivity
  end.

Section VerifyKeeps.

Context `{Platform}.




Lemma Verify_link_same_partitions idx pidxs :
  preserves same_partitions (Verify_link idx pidxs).
Proof.
  induction pidxs as [| pidx rest IH]; simpl.
  - preserve partitions_leaf.
  - preserve partitions_leaf. apply IH.
Qed.

Lemma Verify_mountpoints_same_partitions idxs :
  preserves same_partitions (for_range idxs Verify_mountpoint).
Proof.
  unfold Verify_mountpoint.
  preserve ltac:(first [ partitions_leaf
                       | apply Verify_link_same_partitions ]).
Qed.

End VerifyKeeps.

(** ** The second loop of Verify *)

Section VerifyMounts.

Context `{Platform}.

Lemma Verify_link_first post :
  forall pre idx m s,
    Partitions (st_action s) = pre ++ post ->
    nth_error (Mountpoints (st_action s)) idx = Some m ->
    Verify_link idx (seq (List.length pre) (List.length post)) s =
    Returns tt
      match first_named (m_Partition m) post (List.length pre) with
      | Some pidx =>
          with_mountpoints s
            (list_set idx (set_part (Some pidx) m) (Mountpoints (st_action s)))
      | None => s
      end.
Proof.
  induction post as [| p post IH]; intros pre idx m s Eps Em.
  - reflexivity.
  - cbn [List.length seq Verify_link first_named].
    rewrite (bind_eq _ _ _ _ _ (mountpoint_at_eq _ _ _ Em)).
    assert (Ep : nth_error (Partitions (st_action s)) (List.length pre) = Some p)
      by (rewrite Eps; apply nth_error_middle).
    rewrite (bind_eq _ _ _ _ _ (partition_at_eq _ _ _ Ep)).
    destruct (m_Partition m =? p_Name p)%string.
    + apply (update_mountpoint_eq _ _ _ _ Em).
    + rewrite <- (length_snoc pre p). apply IH; [| exact Em].
      rewrite Eps. apply app_cons_snoc.
Qed.

(** One iteration of the second loop, on a mount that carries no link
    yet: it ends linked to the first partition of its name, or the
    loop returns the error. *)
Lemma Verify_mountpoint_result mpre m mpost s :
  Mountpoints (st_action s) = mpre ++ m :: mpost ->
  m_part m = None ->
  Verify_mountpoint (List.length mpre) s =
  match first_named (m_Partition m) (Partitions (st_action s)) 0 with
  | Some pidx =>
      Returns None
        (with_mountpoints s (mpre ++ link (Partitions (st_action s)) m :: mpost))
  | None =>
      Returns (Some ("Couldn't fount partition for " ++ m_Mountpoint m)%string) s
  end.
Proof.
  intros Ems Efresh. unfold Verify_mountpoint.
  unfold bind at 1. unfold get_action at 1.
  assert (Em : nth_error (Mountpoints (st_action s)) (List.length mpre) = Some m)
    by (rewrite Ems; apply nth_error_middle).
  rewrite (bind_eq _ _ _ _ _
             (Verify_link_first (Partitions (st_action s)) [] _ m s
                                eq_refl Em)).
  simpl List.length. unfold link.
  destruct (first_named (m_Partition m) (Partitions (st_action s)) 0)
    as [pidx |].
  - rewrite Ems, list_set_middle.
    erewrite bind_eq by (apply mountpoint_at_eq; apply nth_error_middle).
    reflexivity.
  - rewrite (bind_eq _ _ _ _ _ (mountpoint_at_eq _ _ _ Em)).
    rewrite Efresh. reflexivity.
Qed.

Lemma Verify_mountpoints_linked mpost :
  forall mpre s,
    Mountpoints (st_action s) = mpre ++ mpost ->
    Forall (fun m => m_part m = None) mpost ->
    Forall (fun m => first_named (m_Partition m) (Partitions (st_action s)) 0
                     <> None) mpost ->
    for_range (seq (List.length mpre) (List.length mpost)) Verify_mountpoint s =
    Returns None
      (with_mountpoints s (mpre ++ map (link (Partitions (st_action s))) mpost)).
Proof.
  induction mpost as [| m mpost IH]; intros mpre s Ems Hfresh Hres.
  - simpl. unfold ret, with_mountpoints. rewrite <- Ems.
    destruct s as [[] ? ? ?]. reflexivity.
  - inversion Hfresh as [| ? ? Hm Hfresh']; subst.
    inversion Hres as [| ? ? Rm Hres']; subst.
    cbn [List.length seq for_range map].
    pose proof (Verify_mountpoint_result mpre m mpost s Ems Hm) as E.
    destruct (first_named (m_Partition m) (Partitions (st_action s)) 0)
      as [pidx |] eqn:Ef; [| congruence].
    rewrite (or_return_eq _ _ _ _ E).
    rewrite <- (length_snoc mpre (link (Partitions (st_action s)) m)).
    rewrite IH.
    + unfold with_mountpoints. simpl. now rewrite <- app_assoc.
    + simpl. apply app_cons_snoc.
    + exact Hfresh'.
    + exact Hres'.
Qed.

Lemma Verify_mountpoints_unresolved mpost :
  forall mpre s,
    Mountpoints (st_action s) = mpre ++ mpost ->
    Forall (fun m => m_part m = None) mpost ->
    Exists (fun m => first_named (m_Partition m) (Partitions (st_action s)) 0
                     = None) mpost ->
    exists msg s',
      for_range (seq (List.length mpre) (List.length mpost)) Verify_mountpoint s
      = Returns (Some msg) s'.
Proof.
  induction mpost as [| m mpost IH]; intros mpre s Ems Hfresh Hex.
  - inversion Hex.
  - inversion Hfresh as [| ? ? Hm Hfresh']; subst.
    cbn [List.length seq for_range].
    pose proof (Verify_mountpoint_result mpre m mpost s Ems Hm) as E.
    destruct (first_named (m_Partition m) (Partitions (st_action s)) 0)
      as [pidx |] eqn:Ef.
    + rewrite (or_return_eq _ _ _ _ E).
      rewrite <- (length_snoc mpre (link (Partitions (st_action s)) m)).
      apply IH.
      * simpl. apply app_cons_snoc.
      * exact Hfresh'.
      * inversion Hex as [? ? Hhd | ? ? Htl]; subst; [congruence | exact Htl].
    + rewrite (or_return_fails _ _ _ _ _ E). eauto.
Qed.

End VerifyMounts.

(** ** What the later phases keep: the ordinal numbers *)

Lemma map_number_list_set (f : Partition -> Partition) ps :
  (forall p, p_number (f p) = p_number p) ->
  forall idx p,
    nth_error ps idx = Some p ->
    map p_number (list_set idx (f p) ps) = map p_number ps.
Proof.
  intros Hf. induction ps as [| q ps IH]; intros [| idx] p E; simpl in *;
    try discriminate.
  - injection E as ->. now rewrite Hf.
  - now rewrite (IH _ _ E).
Qed.

Lemma update_partition_same_numbers idx f :
  (forall p, p_number (f p) = p_number p) ->
  preserves same_numbers (update_partition idx f).
Proof.
  intros Hf s. unfold update_partition, partition_at, bind, get_action.
  destruct (nth_error (Partitions (st_action s)) idx) as [p |] eqn:E; simpl.
  - unfold same_numbers. simpl. now apply map_number_list_set.
  - reflexivity.
Qed.

Ltac numbers_leaf :=
  idtac;
  match goal with
  | |- preserves same_numbers (update_partition _ (set_FSUUID _)) =>
      apply update_partition_same_numbers; intros ?; reflexivity
  | |- preserves same_numbers (modify_action (set_usingLoop _)) =>
      intros ?; reflexivity
  | |- preserves same_numbers (modify_action (set_size _)) =>
      intros ?; reflexivity
  | |- preserves same_numbers (modify_context _) => intros ?; reflexivity
  | |- preserves same_numbers (modify_args _) => intros ?; reflexivity
  | |- preserves same_numbers (perform _) => intros ?; reflexivity
  end.

Section LaterPhases.

Context `{Platform}.

Lemma generateKernelRoot_loop_same_numbers ms :
  preserves same_numbers (generateKernelRoot_loop ms).
Proof.
  induction ms as [| m ms IH]; simpl.
  - preserve numbers_leaf.
  - preserve numbers_leaf. exact IH.
Qed.

Lemma Cleanup_unmount_same_numbers n context :
  preserves same_numbers (Cleanup_unmount n context).
Proof.
  induction n as [| n IH]; simpl.
  - preserve numbers_leaf.
  - preserve numbers_leaf. exact IH.
Qed.

Lemma PreMachine_same_numbers : preserves same_numbers PreMachine.
Proof. unfold PreMachine. preserve numbers_leaf. Qed.

Lemma PreNoMachine_same_numbers : preserves same_numbers PreNoMachine.
Proof. unfold PreNoMachine. preserve numbers_leaf. Qed.

Lemma Run_same_numbers : preserves same_numbers Run.
Proof.
  unfold Run, Run_partition, Run_mount, formatPartition, generateFSTab,
    generateFSTab_entry, generateKernelRoot.
  preserve ltac:(first [ numbers_leaf
                       | apply generateKernelRoot_loop_same_numbers ]).
Qed.

Lemma Cleanup_same_numbers context : preserves same_numbers (Cleanup context).
Proof.
  unfold Cleanup.
  preserve ltac:(first [ numbers_leaf
                       | apply Cleanup_unmount_same_numbers ]).
Qed.

End LaterPhases.

(** ** Verify as a whole *)

Lemma first_named_none name ps :
  forall k,
    first_named name ps k = None <->
    filter (fun p => (name =? p_Name p)%string) ps = [].
Proof.
  induction ps as [| p ps IH]; intros k; simpl.
  - split; reflexivity.
  - destruct (name =? p_Name p)%string.
    + split; discriminate.
    + apply IH.
Qed.

Lemma matches_first_named i m :
  (1 <= matches i m)%nat <->
  first_named (m_Partition m) (Partitions i) 0 <> None.
Proof.
  unfold matches. rewrite (first_named_none (m_Partition m) (Partitions i) 0).
  destruct (filter _ (Partitions i)); simpl; split; intros; try lia; congruence.
Qed.

(** The link is to the first declared partition of that name. *)
Lemma first_named_first name ps :
  forall k pidx,
    first_named name ps k = Some pidx ->
    (k <= pidx)%nat /\
    (exists p, nth_error ps (pidx - k) = Some p /\ p_Name p = name) /\
    (forall j p, (j < pidx - k)%nat -> nth_error ps j = Some p ->
                 p_Name p <> name).
Proof.
  induction ps as [| p ps IH]; intros k pidx E; simpl in E; [discriminate |].
  destruct (String.eqb_spec name (p_Name p)) as [En | Nn].
  - injection E as <-. rewrite Nat.sub_diag. repeat split.
    + lia.
    + exists p. auto.
    + intros j q Hj. lia.
  - destruct (IH _ _ E) as (Hle & (q & Hq & Hname) & Hbefore).
    repeat split.
    + lia.
    + exists q. replace (pidx - k)%nat with (S (pidx - S k)) by lia. auto.
    + intros [| j] r Hj Hr; simpl in Hr.
      * injection Hr as <-. congruence.
      * apply (Hbefore j r); [lia | exact Hr].
Qed.

Section VerifyWhole.

Context `{Platform}.

Lemma link_renumber num ps ms :
  map (link (renumber num ps)) ms = map (link ps) ms.
Proof.
  apply map_ext. intros m. unfold link. now rewrite first_named_renumber.
Qed.

Lemma Verify_succeeds s sz :
  Forall well_formed (Partitions (st_action s)) ->
  Forall (fun m => m_part m = None) (Mountpoints (st_action s)) ->
  Forall (fun m => first_named (m_Partition m) (Partitions (st_action s)) 0
                   <> None) (Mountpoints (st_action s)) ->
  units_FromHumanSize (ImageSize (st_action s)) = Some sz ->
  Verify s =
  Returns None
    (mkState
       (set_size sz
          (set_Mountpoints
             (map (link (Partitions (st_action s))) (Mountpoints (st_action s)))
             (set_Partitions (renumber 1 (Partitions (st_action s)))
                             (st_action s))))
       (st_context s) (st_args s) (st_trace s)).
Proof.
  intros Hwf Hfresh Hres Hsz. unfold Verify.
  unfold bind at 1. unfold get_action at 1.
  rewrite (or_return_eq _ _ _ _
             (Verify_partitions_numbers _ [] 1%Z s eq_refl Hwf)).
  simpl app.
  set (s1 := with_partitions s (renumber 1 (Partitions (st_action s)))).
  assert (Hres1 : Forall (fun m => first_named (m_Partition m)
                                     (Partitions (st_action s1)) 0 <> None)
                         (Mountpoints (st_action s1))).
  { unfold s1. simpl. eapply Forall_impl; [| exact Hres].
    intros m Hm. now rewrite first_named_renumber. }
  rewrite (or_return_eq _ _ _ _
             (Verify_mountpoints_linked _ [] s1 eq_refl Hfresh Hres1)).
  unfold bind, get_action, s1. simpl. rewrite Hsz. simpl.
  unfold modify_action, ret. simpl. rewrite link_renumber. reflexivity.
Qed.

Lemma Verify_rejects s :
  Forall well_formed (Partitions (st_action s)) ->
  Forall (fun m => m_part m = None) (Mountpoints (st_action s)) ->
  Exists (fun m => first_named (m_Partition m) (Partitions (st_action s)) 0
                   = None) (Mountpoints (st_action s)) ->
  exists msg s', Verify s = Returns (Some msg) s'.
Proof.
  intros Hwf Hfresh Hex. unfold Verify.
  unfold bind at 1. unfold get_action at 1.
  rewrite (or_return_eq _ _ _ _
             (Verify_partitions_numbers _ [] 1%Z s eq_refl Hwf)).
  simpl app.
  set (s1 := with_partitions s (renumber 1 (Partitions (st_action s)))).
  assert (Hex1 : Exists (fun m => first_named (m_Partition m)
                                    (Partitions (st_action s1)) 0 = None)
                        (Mountpoints (st_action s1))).
  { unfold s1. simpl. eapply Exists_impl; [| exact Hex].
    intros m Hm. now rewrite first_named_renumber. }
  destruct (Verify_mountpoints_unresolved _ [] s1 eq_refl Hfresh Hex1)
    as (msg & s' & E).
  rewrite (or_return_fails _ _ _ _ _ E). eauto.
Qed.

(** On well-formed partitions the numbers are in place when [Verify]
    is over, whatever it returns. *)
Lemma Verify_leaves_numbers s :
  Forall well_formed (Partitions (st_action s)) ->
  Partitions (st_action (state_of (Verify s))) =
  renumber 1 (Partitions (st_action s)).
Proof.
  intros Hwf. unfold Verify.
  unfold bind at 1. unfold get_action at 1.
  rewrite (or_return_eq _ _ _ _
             (Verify_partitions_numbers _ [] 1%Z s eq_refl Hwf)).
  simpl app.
  set (s1 := with_partitions s (renumber 1 (Partitions (st_action s)))).
  change (renumber 1 (Partitions (st_action s)))
    with (Partitions (st_action s1)).
  assert (K : preserves same_partitions
                (guard for_range (seq 0 (List.length (Mountpoints (st_action s))))
                             Verify_mountpoint ;;
                 i <- get_action ;;
                 match units_FromHumanSize (ImageSize i) with
                 | Some sz => modify_action (set_size sz) ;; ret None
                 | None =>
                     ret (Some ("Failed to parse image size: " ++ ImageSize i)%string)
                 end)).
  { preserve ltac:(first [ partitions_leaf
                         | apply Verify_mountpoints_same_partitions ]). }
  apply K.
Qed.

End VerifyWhole.

Lemma renumber_nth ps :
  forall j k p,
    (Z.of_nat (j + List.length ps) <= 9223372036854775808)%Z ->
    nth_error ps k = Some p ->
    nth_error (renumber (Z.of_nat j) ps) k =
    Some (set_number (Z.of_nat (j + k)) p).
Proof.
  induction ps as [| q ps IH]; intros j [| k] p Hj E; simpl in *;
    try discriminate.
  - injection E as ->. now rewrite Nat.add_0_r.
  - assert (Hk : (k < List.length ps)%nat)
      by (apply nth_error_Some; congruence).
    replace (int_add (Z.of_nat j) 1) with (Z.of_nat (S j))
      by (unfold int_add, int_wrap; rewrite Z.mod_small; lia).
    rewrite (IH (S j) k p); [| lia | exact E].
    do 3 f_equal. lia.
Qed.

(** ** The ordinal numbers, as claimed *)

(** C9.  On a recipe whose N partitions are well formed, [Verify]
    leaves the k-th declared partition (k counted from 1) as it was
    declared except that its ordinal number is k, so the numbers are
    1..N in declaration order; on such a recipe [Verify] returns nil
    when every mount names a declared partition and the image size
    parses.  No later phase ([PreMachine], [PreNoMachine], [Run],
    [Cleanup]) changes the ordinal number of any partition, from any
    state and on any host. *)
Theorem Verify_assigns_ordinals `{Platform} (s : State) :
  (Z.of_nat (List.length (Partitions (st_action s))) < 9223372036854775808)%Z ->
  Forall well_formed (Partitions (st_action s)) ->
  (List.length (Partitions (st_action (state_of (Verify s)))) =
   List.length (Partitions (st_action s)) /\
   forall k p,
     nth_error (Partitions (st_action s)) k = Some p ->
     nth_error (Partitions (st_action (state_of (Verify s)))) k =
     Some (set_number (Z.of_nat (S k)) p)) /\
  (Forall (fun m => m_part m = None) (Mountpoints (st_action s)) ->
   (forall m, In m (Mountpoints (st_action s)) ->
              (1 <= matches (st_action s) m)%nat) ->
   units_FromHumanSize (ImageSize (st_action s)) <> None ->
   exists s', Verify s = Returns None s') /\
  (forall t context,
     same_numbers t (state_of (PreMachine t)) /\
     same_numbers t (state_of (PreNoMachine t)) /\
     same_numbers t (state_of (Run t)) /\
     same_numbers t (state_of (Cleanup context t))).
Proof.
  intros Hn Hwf. split; [| split].
  - rewrite (Verify_leaves_numbers s Hwf). split.
    + apply renumber_length.
    + intros k p E. apply (renumber_nth _ 1 k p); [| exact E].
      simpl Nat.add. lia.
  - intros Hfresh Hres Hsz.
    destruct (units_FromHumanSize (ImageSize (st_action s))) as [sz |] eqn:Esz;
      [| congruence].
    eexists. apply (Verify_succeeds s sz Hwf Hfresh); [| exact Esz].
    apply Forall_forall. intros m Hm. apply matches_first_named. auto.
  - intros t context. repeat split.
    + apply PreMachine_same_numbers.
    + apply PreNoMachine_same_numbers.
    + apply Run_same_numbers.
    + apply Cleanup_same_numbers.
Qed.

(** The theorem of C9 at the layout of the action's documentation:
    the second declared partition, root, ends with number 2. *)
Lemma Verify_assigns_ordinals_witness :
  nth_error
    (Partitions (st_action (state_of (@Verify willing_platform rpi3_state)))) 1
  = Some (mkPartition 2 "root" "64MB" "100%" "ext4" ["boot"] "").
Proof.
  assert (Hn : (Z.of_nat (List.length (Partitions (st_action rpi3_state)))
                < 9223372036854775808)%Z) by (simpl; lia).
  assert (Hwf : Forall well_formed (Partitions (st_action rpi3_state)))
    by (repeat constructor; discriminate).
  destruct (@Verify_assigns_ordinals willing_platform rpi3_state Hn Hwf)
    as ((_ & Hk) & _).
  exact (Hk 1%nat _ eq_refl).
Defined.

(** ** Cleanup *)

Lemma firstn_snoc {A : Type} (l : list A) :
  forall n x, nth_error l n = Some x -> firstn (S n) l = firstn n l ++ [x].
Proof.
  induction l as [| a l IH]; intros [| n] x E; simpl in *; try discriminate.
  - now injection E as ->.
  - now rewrite <- (IH n x E).
Qed.

Section CleanupProofs.

Context `{Platform}.

Lemma Cleanup_unmount_trace context n :
  forall s,
    (n <= List.length (Mountpoints (st_action s)))%nat ->
    Cleanup_unmount n context s =
    Returns tt
      (with_trace s
         (st_trace s ++
          map (unmount_of context) (rev (firstn n (Mountpoints (st_action s)))))).
Proof.
  induction n as [| n IH]; intros s Hn.
  - simpl. unfold ret, with_trace. rewrite app_nil_r. now destruct s.
  - destruct (nth_error (Mountpoints (st_action s)) n) as [m |] eqn:Em;
      [| apply nth_error_None in Em; lia].
    rewrite (firstn_snoc _ _ _ Em), rev_unit.
    cbn [Cleanup_unmount].
    rewrite (bind_eq _ _ _ _ _ (mountpoint_at_eq _ _ _ Em)).
    unfold bind at 1. unfold perform at 1.
    rewrite IH by (simpl; lia).
    unfold with_trace, unmount_of. simpl.
    now rewrite <- app_assoc.
Qed.

Lemma Cleanup_result context s :
  Cleanup context s =
  Returns None
    (with_trace s
       (st_trace s ++
        map (unmount_of context) (rev (Mountpoints (st_action s))) ++
        if usingLoop (st_action s) then [detach_of context] else [])).
Proof.
  unfold Cleanup, value_receiver.
  unfold bind at 1. unfold get_action at 1.
  rewrite (bind_eq _ _ _ _ _ (Cleanup_unmount_trace context _ s (le_n _))).
  rewrite firstn_all.
  unfold bind, get_action, perform, ret, with_trace, leave, copy_back,
    detach_of.
  destruct s as [[name isz pt ps ms sz loop] c a t]. simpl.
  destruct loop; simpl; rewrite ?app_nil_r, <- ?app_assoc; reflexivity.
Qed.

End CleanupProofs.

(** C8.  From every state and on every host, [Cleanup] returns having
    appended to the host calls made so far exactly one unmount per
    declared mount, in the reverse of declaration order (the last
    declared mount first, the first declared mount last), followed by
    the loop detach when [usingLoop] is set and by nothing otherwise. *)
Theorem Cleanup_unmounts_in_reverse `{Platform} (context : DebosContext)
    (s : State) :
  exists s',
    Cleanup context s = Returns None s' /\
    st_trace s' =
    st_trace s ++
    map (fun m => Unmount (path_Join (ImageMntDir context) (m_Mountpoint m)) 0)
        (rev (Mountpoints (st_action s))) ++
    (if usingLoop (st_action s)
     then [ExecRun ["losetup"; "-d"; Image context]]
     else []).
Proof. eexists. split; [apply Cleanup_result | reflexivity]. Qed.

(** C10.  From every state and on every host, whatever the host
    answers to the unmounts and to the loop detach, [Cleanup] returns
    nil (it does not panic either); so the driver's [bailOnError]
    after it goes on with the rest of the build. *)
Theorem Cleanup_returns_nil `{Platform} (context : DebosContext) (s : State) :
  (exists s', Cleanup context s = Returns None s') /\
  (forall rest : M Z,
     (err <- Cleanup context ;; bailOnError err rest) s =
     rest (state_of (Cleanup context s))).
Proof.
  split.
  - eexists. apply Cleanup_result.
  - intros rest. unfold bind. rewrite Cleanup_result. reflexivity.
Qed.

(** ** The ownership flag *)

#[local] Instance same_usingLoop_invariant : Invariant same_usingLoop.
Proof. split; unfold same_usingLoop; congruence. Qed.

Ltac usingLoop_leaf :=
  idtac;
  match goal with
  | |- preserves same_usingLoop (modify_action (set_size _)) =>
      intros ?; reflexivity
  | |- preserves same_usingLoop (modify_action (fun _ => set_Partitions _ _)) =>
      intros ?; reflexivity
  | |- preserves same_usingLoop (modify_action (fun _ => set_Mountpoints _ _)) =>
      intros ?; reflexivity
  end.

(** A method with a value receiver cannot set the caller's flag. *)
Lemma value_receiver_usingLoop {A : Type} (body : M A) :
  preserves same_usingLoop (value_receiver body).
Proof.
  intros s. unfold value_receiver. destruct (body s); reflexivity.
Qed.

Lemma Verify_partitions_usingLoop `{Platform} idxs :
  forall num, preserves same_usingLoop (Verify_partitions idxs num).
Proof.
  induction idxs as [| idx rest IH]; intros num; simpl.
  - preserve usingLoop_leaf.
  - preserve usingLoop_leaf. apply IH.
Qed.

Lemma Verify_link_usingLoop `{Platform} idx pidxs :
  preserves same_usingLoop (Verify_link idx pidxs).
Proof.
  induction pidxs as [| pidx rest IH]; simpl.
  - preserve usingLoop_leaf.
  - preserve usingLoop_leaf. apply IH.
Qed.

(** No phase changes the flag the recipe's action carries: the only
    assignment to it, in [PreNoMachine], is to the receiver's copy. *)
Lemma usingLoop_never_set `{Platform} (context : DebosContext) :
  preserves same_usingLoop Verify /\
  preserves same_usingLoop PreMachine /\
  preserves same_usingLoop PreNoMachine /\
  preserves same_usingLoop Run /\
  preserves same_usingLoop (Cleanup context).
Proof.
  repeat split; try apply value_receiver_usingLoop.
  unfold Verify, Verify_mountpoint.
  preserve ltac:(first [ usingLoop_leaf
                       | apply Verify_partitions_usingLoop
                       | apply Verify_link_usingLoop ]).
Qed.

(** From an action as the decoder leaves it, the provisioning on the
    host followed by [Cleanup] makes no loop detach, on any host. *)
Lemma PreNoMachine_then_Cleanup `{Platform} (s : State) :
  usingLoop (st_action s) = false ->
  let s1 := state_of (PreNoMachine s) in
  exists s2,
    Cleanup (st_context s1) s1 = Returns None s2 /\
    st_trace s2 =
    st_trace s1 ++
    map (unmount_of (st_context s1)) (rev (Mountpoints (st_action s1))).
Proof.
  intros Hfalse s1.
  assert (E : usingLoop (st_action s1) = false).
  { unfold s1. rewrite <- Hfalse. apply value_receiver_usingLoop. }
  eexists. split; [apply Cleanup_result |].
  simpl. rewrite E. now rewrite app_nil_r.
Qed.

#[local] Instance no_new_ExecRun_invariant : Invariant no_new_ExecRun.
Proof. split; unfold no_new_ExecRun; auto. Qed.

#[local] Instance no_new_ExecRun_receiver : ReceiverSafe no_new_ExecRun.
Proof. intros s s'. unfold no_new_ExecRun. simpl. auto. Qed.

#[local] Instance no_detach_invariant : Invariant no_detach.
Proof.
  split; unfold no_detach, no_new_ExecRun.
  - auto.
  - intros a b c Hab Hbc Ha. destruct (Hab Ha) as (Hb & Hab').
    destruct (Hbc Hb) as (Hc & Hbc'). auto.
Qed.

Ltac ExecRun_leaf :=
  idtac;
  match goal with
  | |- preserves no_new_ExecRun (modify_action _) => intros ? ? ?; assumption
  | |- preserves no_new_ExecRun (modify_context _) => intros ? ? ?; assumption
  | |- preserves no_new_ExecRun (modify_args _) => intros ? ? ?; assumption
  | |- preserves no_new_ExecRun (perform _) =>
      let Hin := fresh "Hin" in
      intros ? ? Hin; simpl in Hin; apply in_app_or in Hin;
      destruct Hin as [Hin | [Hin | []]]; [exact Hin | discriminate Hin]
  end.

Section NoDetach.

Context `{Platform}.

Lemma Verify_partitions_no_new_ExecRun idxs :
  forall num, preserves no_new_ExecRun (Verify_partitions idxs num).
Proof.
  induction idxs as [| idx rest IH]; intros num; simpl.
  - preserve ExecRun_leaf.
  - preserve ExecRun_leaf. apply IH.
Qed.

Lemma Verify_link_no_new_ExecRun idx pidxs :
  preserves no_new_ExecRun (Verify_link idx pidxs).
Proof.
  induction pidxs as [| pidx rest IH]; simpl.
  - preserve ExecRun_leaf.
  - preserve ExecRun_leaf. apply IH.
Qed.

Lemma generateKernelRoot_loop_no_new_ExecRun ms :
  preserves no_new_ExecRun (generateKernelRoot_loop ms).
Proof.
  induction ms as [| m ms IH]; simpl.
  - preserve ExecRun_leaf.
  - preserve ExecRun_leaf. exact IH.
Qed.

Lemma phases_no_new_ExecRun :
  preserves no_new_ExecRun Verify /\
  preserves no_new_ExecRun PreMachine /\
  preserves no_new_ExecRun PreNoMachine /\
  preserves no_new_ExecRun Run.
Proof.
  repeat split.
  - unfold Verify, Verify_mountpoint.
    preserve ltac:(first [ ExecRun_leaf
                         | apply Verify_partitions_no_new_ExecRun
                         | apply Verify_link_no_new_ExecRun ]).
  - unfold PreMachine. preserve ExecRun_leaf.
  - unfold PreNoMachine. preserve ExecRun_leaf.
  - unfold Run, Run_partition, Run_mount, formatPartition, generateFSTab,
      generateFSTab_entry, generateKernelRoot.
    preserve ltac:(first [ ExecRun_leaf
                         | apply generateKernelRoot_loop_no_new_ExecRun ]).
Qed.

Lemma no_detach_from {A : Type} (c : M A) :
  preserves same_usingLoop c -> preserves no_new_ExecRun c ->
  preserves no_detach c.
Proof.
  intros Hu Hn s Hs. split; [| apply Hn].
  rewrite <- Hs. apply Hu.
Qed.

Lemma Cleanup_no_detach context : preserves no_detach (Cleanup context).
Proof.
  intros s Hs. rewrite Cleanup_result. simpl. rewrite Hs. split; [reflexivity |].
  intros argv Hin. rewrite app_nil_r in Hin. apply in_app_or in Hin.
  destruct Hin as [Hin | Hin]; [exact Hin |].
  apply in_map_iff in Hin. destruct Hin as (m & Em & _). discriminate Em.
Qed.

(** Whichever way the driver goes (directly on the host, inside the
    sandbox, or outside it), on any host: a build that starts from an
    action as the decoder leaves it, with [usingLoop] unset, runs no
    [losetup -d] (it runs nothing through [exec.Command(...).Run()]). *)
Lemma no_build_detaches (inMachine supported : bool) (s : State) :
  usingLoop (st_action s) = false ->
  forall argv,
    In (ExecRun argv) (st_trace (state_of (main inMachine supported s))) ->
    In (ExecRun argv) (st_trace s).
Proof.
  intros Hs.
  assert (K : preserves no_detach (main inMachine supported)).
  { pose proof (usingLoop_never_set fresh_context) as (U1 & U2 & U3 & U4 & _).
    pose proof phases_no_new_ExecRun as (N1 & N2 & N3 & N4).
    unfold main, bailOnError.
    preserve ltac:(first
      [ apply (no_detach_from _ U1 N1)
      | apply (no_detach_from _ U2 N2)
      | apply (no_detach_from _ U3 N3)
      | apply (no_detach_from _ U4 N4)
      | apply Cleanup_no_detach
      | apply no_detach_from; [intros ?; reflexivity | ExecRun_leaf] ]). }
  exact (proj2 (K s Hs)).
Qed.

End NoDetach.

(** C1.  The code at the failing input: the layout of the action's
    documentation, built directly on a host where every operation
    succeeds.  [PreNoMachine] attaches the image to /dev/loop0 and the
    build ends with exit code 0, but the action the recipe holds still
    has [usingLoop] false and the build has run no command through
    [exec.Command(...).Run()], so no [losetup -d]: the loop device is
    never detached. *)
Theorem direct_build_never_detaches :
  let s' := state_of (@main willing_platform false false rpi3_state) in
  @main willing_platform false false rpi3_state = Returns 0%Z s' /\
  In (ExecOutput ["losetup"; "-f"; "--show"; "debian-rpi3.img"]) (st_trace s') /\
  Image (st_context s') = "/dev/loop0"%string /\
  usingLoop (st_action s') = false /\
  (forall argv, ~ In (ExecRun argv) (st_trace s')).
Proof.
  vm_compute. repeat split.
  - do 3 right. left. reflexivity.
  - intros argv Hin.
    repeat (destruct Hin as [Hin | Hin]; [discriminate Hin |]).
    exact Hin.
Qed.

(** ** Device paths *)

(** What [getPartitionDevice] computes, by the last byte of the base
    path: the by-id suffix is looked at only under a digit. *)
Lemma getPartitionDevice_cases (number : Z) (context : DebosContext)
    (last : ascii) :
  last_byte (Image context) = Some last ->
  getPartitionDevice number context =
  Some (Image context ++
        (if is_digit last
         then if strings_Contains (Image context) "/disk/by-id/"
              then "-part" else "p"
         else "") ++
        itoa number)%string.
Proof.
  intros E. unfold getPartitionDevice. rewrite E.
  destruct (is_digit last); [| reflexivity].
  destruct (strings_Contains (Image context) "/disk/by-id/"); reflexivity.
Qed.

(** The two examples of the specification that the code agrees with,
    and a by-id path that ends in a digit. *)
Lemma getPartitionDevice_examples :
  getPartitionDevice 2 (set_Image "/tmp/image5" fresh_context)
  = Some "/tmp/image5p2"%string /\
  getPartitionDevice 1 (set_Image "/tmp/image" fresh_context)
  = Some "/tmp/image1"%string /\
  getPartitionDevice 1
    (set_Image "/dev/disk/by-id/virtio-fakedisk-0" fresh_context)
  = Some "/dev/disk/by-id/virtio-fakedisk-0-part1"%string /\
  getPartitionDevice 1 fresh_context = None.
Proof. repeat split. Qed.

(** C2.  The code at the failing input: the base path
    /dev/disk/by-id/foo is a by-id path, and partition 3 of it comes
    out as /dev/disk/by-id/foo3, not as /dev/disk/by-id/foo-part3. *)
Theorem getPartitionDevice_by_id_without_digit :
  strings_Contains (Image by_id_context) "/disk/by-id/" = true /\
  getPartitionDevice 3 by_id_context = Some "/dev/disk/by-id/foo3"%string /\
  getPartitionDevice 3 by_id_context <>
  Some (Image by_id_context ++ "-part" ++ itoa 3)%string.
Proof. repeat split. discriminate. Qed.

(** ** The exit status of mkfs *)

(** [rpi3_on_loop0] is where [Run] starts in a direct build of the
    documented layout, whether or not mkfs will work. *)
Lemma rpi3_on_loop0_reached :
  state_of (@PreNoMachine mkfs_failing_platform
              (state_of (@Verify mkfs_failing_platform rpi3_state)))
  = rpi3_on_loop0.
Proof. reflexivity. Qed.

(** [formatPartition] performs the mkfs command and reads nothing of
    its answer: the command's error is not among what it can return. *)
Lemma formatPartition_errors `{Platform} idx context s msg s' :
  formatPartition idx context s = Returns (Some msg) s' ->
  exists e, msg = ("Failed to get uuid: " ++ e)%string.
Proof.
  unfold formatPartition. intros E.
  apply value_receiver_Returns in E. destruct E as (s1 & E & _).
  apply bind_Returns in E. destruct E as (p & s2 & _ & E).
  apply bind_Returns in E. destruct E as (path & s3 & _ & E).
  apply bind_Returns in E. destruct E as (ignored & s4 & _ & E).
  apply bind_Returns in E. destruct E as (r & s5 & _ & E).
  destruct (r_err r) as [e |].
  - exists e. unfold ret in E. congruence.
  - apply bind_Returns in E. destruct E as (u & s6 & _ & E). discriminate E.
Qed.

(** C3.  The code at the failing input: on a host where every mkfs
    command exits with status 1 (and everything else succeeds), [Run]
    on the documented layout issues both mkfs commands, gets an error
    from [debos.Command{}.Run] for each, and returns nil. *)
Theorem Run_ignores_mkfs_failure :
  let mkfs1 := CommandRun "Formatting partition 1"
                 ["mkfs.vfat"; "-n"; "firmware"; "/dev/loop0p1"] in
  let mkfs2 := CommandRun "Formatting partition 2"
                 ["mkfs.ext4"; "-L"; "root"; "/dev/loop0p2"] in
  let s' := state_of (@Run mkfs_failing_platform rpi3_on_loop0) in
  (forall history,
     r_err (mkfs_failing_host history mkfs1) = Some "exit status 1"%string /\
     r_err (mkfs_failing_host history mkfs2) = Some "exit status 1"%string) /\
  In mkfs1 (st_trace s') /\
  In mkfs2 (st_trace s') /\
  @Run mkfs_failing_platform rpi3_on_loop0 = Returns None s'.
Proof.
  vm_compute. repeat split.
  - do 7 right. left. reflexivity.
  - do 11 right. left. reflexivity.
Qed.

(** ** Reading through a mount's link *)

Lemma deref_linked m p s :
  mount_partition (st_action s) m = Some p ->
  deref (m_part m) s = Returns p s.
Proof.
  unfold mount_partition. destruct (m_part m) as [idx |]; [| discriminate].
  simpl. apply partition_at_eq.
Qed.

Lemma deref_Returns q p s s' :
  deref q s = Returns p s' ->
  s' = s /\ exists idx, q = Some idx /\
                        nth_error (Partitions (st_action s)) idx = Some p.
Proof.
  destruct q as [idx |]; simpl; [| discriminate].
  unfold partition_at, bind, get_action.
  destruct (nth_error (Partitions (st_action s)) idx) as [p' |] eqn:E;
    [| discriminate].
  unfold ret. intros Er. split; [congruence |].
  exists idx. split; [reflexivity | congruence].
Qed.

(** ** The kernel root parameter *)

Section KernelRoot.

Context `{Platform}.

Lemma generateKernelRoot_loop_none ms s :
  find is_root ms = None -> generateKernelRoot_loop ms s = Returns None s.
Proof.
  induction ms as [| m ms IH]; simpl; [reflexivity |].
  unfold is_root at 1. destruct (m_Mountpoint m =? "/")%string;
    [discriminate | exact IH].
Qed.

Lemma generateKernelRoot_loop_some ms s m p :
  find is_root ms = Some m ->
  mount_partition (st_action s) m = Some p ->
  generateKernelRoot_loop ms s =
  if (p_FSUUID p =? "")%string
  then Returns (Some "No fs UUID for root partition !?!"%string) s
  else Returns None
         (with_context s
            (set_ImageKernelRoot ("root=UUID=" ++ p_FSUUID p)%string
                                 (st_context s))).
Proof.
  intros Ef Ep. induction ms as [| m0 ms IH]; simpl in *; [discriminate |].
  unfold is_root in Ef at 1. destruct (m_Mountpoint m0 =? "/")%string.
  - injection Ef as ->. rewrite (bind_eq _ _ _ _ _ (deref_linked _ _ _ Ep)).
    destruct (p_FSUUID p =? "")%string; reflexivity.
  - apply IH. exact Ef.
Qed.

Lemma generateKernelRoot_loop_Returns ms s e s' :
  generateKernelRoot_loop ms s = Returns e s' ->
  match find is_root ms with
  | None => True
  | Some m => exists p, mount_partition (st_action s) m = Some p
  end.
Proof.
  induction ms as [| m0 ms IH]; simpl; [trivial |].
  unfold is_root at 1. destruct (m_Mountpoint m0 =? "/")%string; [| exact IH].
  intros E. apply bind_Returns in E. destruct E as (p & s1 & Ed & _).
  apply deref_Returns in Ed. destruct Ed as (_ & idx & Eq & Ep).
  exists p. unfold mount_partition. now rewrite Eq.
Qed.

End KernelRoot.

Lemma find_is_root_none ms :
  find is_root ms = None <->
  ~ exists m, In m ms /\ m_Mountpoint m = "/"%string.
Proof.
  split.
  - intros Ef (m & Hin & Em).
    pose proof (find_none _ _ Ef m Hin) as Hm. unfold is_root in Hm.
    rewrite Em in Hm. discriminate Hm.
  - intros Hno. destruct (find is_root ms) as [m |] eqn:Ef; [| reflexivity].
    apply find_some in Ef. destruct Ef as (Hin & Hm).
    exfalso. apply Hno. exists m. split; [exact Hin |].
    now apply String.eqb_eq.
Qed.

(** ** The fat32 alias *)

Section Alias.

Context `{Platform}.

Lemma formatPartition_trace idx context s p dev :
  nth_error (Partitions (st_action s)) idx = Some p ->
  getPartitionDevice (p_number p) context = Some dev ->
  st_trace (state_of (formatPartition idx context s)) =
  st_trace s ++
  [ CommandRun ("Formatting partition " ++ itoa (p_number p))%string
               (mkfs_cmdline p ++ [dev]);
    ExecOutput ["blkid"; "-o"; "value"; "-s"; "UUID"; "-p"; "-c"; "none";
                dev] ].
Proof.
  intros Ep Edev. unfold formatPartition, value_receiver.
  rewrite (bind_eq _ _ _ _ _ (partition_at_eq _ _ _ Ep)).
  rewrite Edev. unfold or_panic.
  unfold Command_Run, bind, perform, ret. simpl.
  destruct (r_err (host _ _)) as [e |]; simpl.
  - now rewrite <- app_assoc.
  - unfold update_partition, partition_at, bind, get_action. simpl.
    rewrite Ep. simpl. now rewrite <- app_assoc.
Qed.

Lemma Run_mount_trace m s p dev :
  mount_partition (st_action s) m = Some p ->
  getPartitionDevice (p_number p) (st_context s) = Some dev ->
  st_trace (state_of (Run_mount m s)) =
  st_trace s ++
  [ MkdirAll (path_Join (ImageMntDir (st_context s)) (m_Mountpoint m)) 755;
    Mount dev (path_Join (ImageMntDir (st_context s)) (m_Mountpoint m))
          (mount_fs p) 0 "" ].
Proof.
  intros Ep Edev. unfold Run_mount.
  unfold bind at 1. unfold get_context at 1.
  rewrite (bind_eq _ _ _ _ _ (deref_linked _ _ _ Ep)).
  rewrite Edev. unfold or_panic, bind, perform, ret. simpl.
  destruct (r_err (host _ _)); simpl; now rewrite <- app_assoc.
Qed.

Lemma generateFSTab_entry_written m s p :
  mount_partition (st_action s) m = Some p ->
  p_FSUUID p <> ""%string ->
  generateFSTab_entry m s =
  Returns None
    (with_context s
       (set_ImageFSTab
          (ImageFSTab (st_context s) ++
           fstab_line (p_FSUUID p) (m_Mountpoint m) (unaliased (p_FS p))
                      ("defaults"%string :: m_Options m))%string
          (st_context s))).
Proof.
  intros Ep Hu. unfold generateFSTab_entry.
  rewrite (bind_eq _ _ _ _ _ (deref_linked _ _ _ Ep)).
  apply String.eqb_neq in Hu. rewrite Hu. reflexivity.
Qed.

Lemma generateFSTab_entry_missing m s p :
  mount_partition (st_action s) m = Some p ->
  p_FSUUID p = ""%string ->
  generateFSTab_entry m s =
  Returns (Some ("Missing fs UUID for partition " ++ p_Name p ++ "!?!")%string)
          s.
Proof.
  intros Ep Hu. unfold generateFSTab_entry.
  rewrite (bind_eq _ _ _ _ _ (deref_linked _ _ _ Ep)).
  rewrite Hu. reflexivity.
Qed.

End Alias.

(** ** The fstab *)

Lemma string_append_assoc (a b c : string) :
  ((a ++ b) ++ c = a ++ (b ++ c))%string.
Proof. induction a as [| ch a IH]; simpl; [reflexivity | now rewrite IH]. Qed.

Lemma mount_partition_ext i i' m :
  Partitions i = Partitions i' -> mount_partition i m = mount_partition i' m.
Proof. unfold mount_partition. now intros ->. Qed.

Lemma lines_ext i i' ms :
  Partitions i = Partitions i' -> lines i ms = lines i' ms.
Proof.
  intros E. unfold lines. f_equal. apply map_ext. intros m.
  unfold line_of. now rewrite (mount_partition_ext i i' m E).
Qed.

Section FSTab.

Context `{Platform}.

Lemma generateFSTab_entry_None m s s' :
  generateFSTab_entry m s = Returns None s' -> has_uuid (st_action s) m.
Proof.
  unfold generateFSTab_entry. intros E.
  apply bind_Returns in E. destruct E as (p & s1 & Ed & E).
  apply deref_Returns in Ed. destruct Ed as (-> & idx & Eq & Ep).
  exists p. split.
  - unfold mount_partition. now rewrite Eq.
  - destruct (String.eqb_spec (p_FSUUID p) "") as [Eu | Nu];
      [discriminate E | exact Nu].
Qed.

Lemma generateFSTab_loop_written ms :
  forall s,
    (forall m, In m ms -> has_uuid (st_action s) m) ->
    for_range ms generateFSTab_entry s =
    Returns None
      (with_context s
         (set_ImageFSTab
            (ImageFSTab (st_context s) ++ lines (st_action s) ms)%string
            (st_context s))).
Proof.
  induction ms as [| m ms IH]; intros s Hall.
  - simpl. unfold ret, with_context, set_ImageFSTab, lines. simpl.
    assert (E : forall a, (a ++ "")%string = a)
      by (induction a; simpl; congruence).
    rewrite E. now destruct s as [i [] a t].
  - destruct (Hall m (or_introl eq_refl)) as (p & Ep & Hu).
    cbn [for_range].
    rewrite (or_return_eq _ _ _ _ (generateFSTab_entry_written _ _ _ Ep Hu)).
    rewrite IH by (intros m' Hm'; apply Hall; now right).
    unfold with_context, lines, line_of. simpl. rewrite Ep.
    now rewrite string_append_assoc.
Qed.

Lemma generateFSTab_loop_None ms :
  forall s s',
    for_range ms generateFSTab_entry s = Returns None s' ->
    forall m, In m ms -> has_uuid (st_action s) m.
Proof.
  induction ms as [| m0 ms IH]; intros s s' E m Hin; [destruct Hin |].
  cbn [for_range] in E. apply or_return_None in E.
  destruct E as (s1 & E0 & E).
  pose proof (generateFSTab_entry_None _ _ _ E0) as H0.
  destruct Hin as [<- | Hin]; [exact H0 |].
  destruct H0 as (p & Ep & Hu).
  rewrite (generateFSTab_entry_written _ _ _ Ep Hu) in E0.
  injection E0 as <-. exact (IH _ _ E m Hin).
Qed.

Lemma generateFSTab_loop_missing ms :
  forall s,
    (forall m, In m ms -> mount_partition (st_action s) m <> None) ->
    (exists m p, In m ms /\ mount_partition (st_action s) m = Some p /\
                 p_FSUUID p = ""%string) ->
    exists msg s', for_range ms generateFSTab_entry s = Returns (Some msg) s'.
Proof.
  induction ms as [| m0 ms IH]; intros s Hres (m & p & Hin & Ep & Hu);
    [destruct Hin |].
  cbn [for_range].
  destruct (mount_partition (st_action s) m0) as [p0 |] eqn:Ep0;
    [| exfalso; apply (Hres m0 (or_introl eq_refl)); exact Ep0].
  destruct (String.eqb_spec (p_FSUUID p0) "") as [Eu | Nu].
  - rewrite (or_return_fails _ _ _ _ _
               (generateFSTab_entry_missing _ _ _ Ep0 Eu)). eauto.
  - rewrite (or_return_eq _ _ _ _
               (generateFSTab_entry_written _ _ _ Ep0 Nu)).
    apply IH.
    + intros m' Hm'. apply (Hres m'). now right.
    + destruct Hin as [<- | Hin]; [congruence |].
      exists m, p. auto.
Qed.

(** [generateFSTab] when it returns nil. *)
Lemma generateFSTab_None s s' :
  generateFSTab s = Returns None s' ->
  st_action s' = st_action s /\
  ImageFSTab (st_context s') = lines (st_action s) (Mountpoints (st_action s)) /\
  forall m, In m (Mountpoints (st_action s)) -> has_uuid (st_action s) m.
Proof.
  unfold generateFSTab. intros E.
  unfold bind at 1 in E. unfold modify_context at 1 in E.
  unfold bind at 1 in E. unfold get_action at 1 in E. cbn [st_action] in E.
  apply or_return_None in E. destruct E as (s1 & E & Er).
  injection Er as <-.
  pose proof (generateFSTab_loop_None _ _ _ E) as Hall. cbn [st_action] in Hall.
  rewrite generateFSTab_loop_written in E by exact Hall.
  injection E as <-. simpl. auto.
Qed.

End FSTab.

#[local] Instance same_mountpoints_invariant : Invariant same_mountpoints.
Proof. split; unfold same_mountpoints; congruence. Qed.

#[local] Instance same_mountpoints_receiver : ReceiverSafe same_mountpoints.
Proof. intros s s'. unfold same_mountpoints. simpl. auto. Qed.

Ltac mountpoints_leaf :=
  idtac;
  match goal with
  | |- preserves same_mountpoints (modify_action (fun _ => set_Partitions _ _)) =>
      intros ?; reflexivity
  | |- preserves same_mountpoints (modify_context _) => intros ?; reflexivity
  | |- preserves same_mountpoints (perform _) => intros ?; reflexivity
  end.

Section RunFSTab.

Context `{Platform}.

Lemma generateKernelRoot_loop_same_mountpoints ms :
  preserves same_mountpoints (generateKernelRoot_loop ms).
Proof.
  induction ms as [| m ms IH]; simpl.
  - preserve mountpoints_leaf.
  - preserve mountpoints_leaf. exact IH.
Qed.

Lemma Run_same_mountpoints : preserves same_mountpoints Run.
Proof.
  unfold Run, Run_partition, Run_mount, formatPartition, generateFSTab,
    generateFSTab_entry, generateKernelRoot.
  preserve ltac:(first [ mountpoints_leaf
                       | apply generateKernelRoot_loop_same_mountpoints ]).
Qed.

Lemma generateKernelRoot_None s s' :
  generateKernelRoot s = Returns None s' ->
  st_action s' = st_action s /\
  ImageFSTab (st_context s') = ImageFSTab (st_context s).
Proof.
  unfold generateKernelRoot, bind, get_action. intros E.
  pose proof (generateKernelRoot_loop_Returns _ _ _ _ E) as Hp.
  destruct (find is_root (Mountpoints (st_action s))) as [m |] eqn:Ef.
  - destruct Hp as (p & Ep).
    rewrite (generateKernelRoot_loop_some _ _ _ _ Ef Ep) in E.
    destruct (p_FSUUID p =? "")%string; [discriminate E |].
    injection E as <-. split; reflexivity.
  - rewrite (generateKernelRoot_loop_none _ _ Ef) in E.
    injection E as <-. split; reflexivity.
Qed.

Lemma Run_None s s' :
  Run s = Returns None s' ->
  ImageFSTab (st_context s') =
  lines (st_action s') (Mountpoints (st_action s')) /\
  forall m, In m (Mountpoints (st_action s')) -> has_uuid (st_action s') m.
Proof.
  unfold Run. intros E.
  apply value_receiver_Returns in E. destruct E as (s1 & E & ->).
  apply bind_Returns in E. destruct E as (r0 & sa & _ & E).
  apply bind_Returns in E. destruct E as (i0 & sb & _ & E).
  apply bind_Returns in E. destruct E as (c0 & sc & _ & E).
  apply or_return_None in E. destruct E as (sd & _ & E).
  apply or_return_None in E. destruct E as (se & _ & E).
  apply bind_Returns in E. destruct E as (u0 & sf & _ & E).
  apply bind_Returns in E. destruct E as (c1 & sg & _ & E).
  apply bind_Returns in E. destruct E as (r1 & sh & _ & E).
  apply bind_Returns in E. destruct E as (i1 & sk & _ & E).
  apply or_return_None in E. destruct E as (sl & _ & E).
  apply or_return_None in E. destruct E as (sm & Efs & E).
  apply or_return_None in E. destruct E as (sn & Ekr & E).
  injection E as <-.
  apply generateFSTab_None in Efs. destruct Efs as (Ea & Ef & Hall).
  apply generateKernelRoot_None in Ekr. destruct Ekr as (Ea' & Ef').
  assert (Eps : Partitions (st_action (leave (st_action s) sn))
                = Partitions (st_action sl))
    by (simpl; congruence).
  assert (Ems : Mountpoints (st_action (leave (st_action s) sn))
                = Mountpoints (st_action sl))
    by (simpl; congruence).
  split.
  - rewrite Ems, (lines_ext _ _ _ Eps). simpl. congruence.
  - rewrite Ems. intros m Hm. destruct (Hall m Hm) as (p & Ep & Hu).
    exists p. split; [| exact Hu].
    now rewrite (mount_partition_ext _ _ m Eps).
Qed.

End RunFSTab.

Section FSTabWhole.

Context `{Platform}.

Lemma generateFSTab_unfold s :
  generateFSTab s =
  (guard for_range (Mountpoints (st_action s)) generateFSTab_entry ;;
   ret None) (reset s).
Proof. reflexivity. Qed.

Lemma generateFSTab_written s :
  (forall m, In m (Mountpoints (st_action s)) -> has_uuid (st_action s) m) ->
  generateFSTab s =
  Returns None
    (with_context s
       (set_ImageFSTab (lines (st_action s) (Mountpoints (st_action s)))
                       (st_context s))).
Proof.
  intros Hall. rewrite generateFSTab_unfold.
  rewrite (or_return_eq _ _ _ _
             (generateFSTab_loop_written _ (reset s) Hall)).
  reflexivity.
Qed.

Lemma generateFSTab_missing s :
  (forall m, In m (Mountpoints (st_action s)) ->
             mount_partition (st_action s) m <> None) ->
  (exists m p, In m (Mountpoints (st_action s)) /\
               mount_partition (st_action s) m = Some p /\
               p_FSUUID p = ""%string) ->
  exists msg s', generateFSTab s = Returns (Some msg) s'.
Proof.
  intros Hres Hex. rewrite generateFSTab_unfold.
  destruct (generateFSTab_loop_missing _ (reset s) Hres Hex) as (msg & s' & E).
  rewrite (or_return_fails _ _ _ _ _ E). eauto.
Qed.

(** Linked mounts all have a UUID, or one of them lacks it. *)
Lemma uuid_decision i ms :
  (forall m, In m ms -> mount_partition i m <> None) ->
  (forall m, In m ms -> has_uuid i m) \/
  (exists m p, In m ms /\ mount_partition i m = Some p /\
               p_FSUUID p = ""%string).
Proof.
  induction ms as [| m0 ms IH]; intros Hr.
  - left. intros m [].
  - destruct (IH (fun m Hm => Hr m (or_intror Hm)))
      as [Hall | (m & p & Hm & Ep & Eu)].
    + destruct (mount_partition i m0) as [p0 |] eqn:Ep0;
        [| exfalso; exact (Hr m0 (or_introl eq_refl) Ep0)].
      destruct (String.eqb_spec (p_FSUUID p0) "") as [Eu | Nu].
      * right. exists m0, p0. repeat split; auto. now left.
      * left. intros m [<- | Hm]; [exists p0; auto | auto].
    + right. exists m, p. repeat split; auto. now right.
Qed.

End FSTabWhole.

(** ** The kernel root parameter after Run *)

#[local] Instance same_kernel_root_invariant : Invariant same_kernel_root.
Proof. split; unfold same_kernel_root; congruence. Qed.

#[local] Instance same_kernel_root_receiver : ReceiverSafe same_kernel_root.
Proof. intros s s'. unfold same_kernel_root. simpl. auto. Qed.

Ltac kernel_root_leaf :=
  idtac;
  match goal with
  | |- preserves same_kernel_root (modify_action _) => intros ?; reflexivity
  | |- preserves same_kernel_root (modify_context _) => intros ?; reflexivity
  | |- preserves same_kernel_root (perform _) => intros ?; reflexivity
  end.

Lemma preserves_Returns (R : State -> State -> Prop) {A : Type} (c : M A)
    s a s' :
  preserves R c -> c s = Returns a s' -> R s s'.
Proof. intros K E. specialize (K s). now rewrite E in K. Qed.

Section RunKernelRoot.

Context `{Platform}.

(** Whenever [Run] returns nil: if a mount at "/" is declared, the
    parameter is root=UUID= followed by the non-empty UUID of the first
    such mount; if none is, the parameter is what it was before [Run].
    So inside [Run] the error of [generateKernelRoot] never shows. *)
Lemma Run_sets_kernel_root s s' :
  Run s = Returns None s' ->
  match find is_root (Mountpoints (st_action s')) with
  | Some m =>
      exists p, mount_partition (st_action s') m = Some p /\
                p_FSUUID p <> ""%string /\
                ImageKernelRoot (st_context s') =
                ("root=UUID=" ++ p_FSUUID p)%string
  | None => ImageKernelRoot (st_context s') = ImageKernelRoot (st_context s)
  end.
Proof.
  unfold Run. intros E.
  apply value_receiver_Returns in E. destruct E as (s1 & E & ->).
  apply bind_Returns in E. destruct E as (r0 & sa & E1 & E).
  apply bind_Returns in E. destruct E as (i0 & sb & E2 & E).
  apply bind_Returns in E. destruct E as (c0 & sc & E3 & E).
  apply or_return_None in E. destruct E as (sd & E4 & E).
  apply or_return_None in E. destruct E as (se & E5 & E).
  apply bind_Returns in E. destruct E as (u0 & sf & E6 & E).
  apply bind_Returns in E. destruct E as (c1 & sg & E7 & E).
  apply bind_Returns in E. destruct E as (r1 & sh & E8 & E).
  apply bind_Returns in E. destruct E as (i1 & sk & E9 & E).
  apply or_return_None in E. destruct E as (sl & E10 & E).
  apply or_return_None in E. destruct E as (sm & Efs & E).
  apply or_return_None in E. destruct E as (sn & Ekr & E).
  injection E as <-.
  assert (K : same_kernel_root s sm).
  { repeat
      match goal with
      | E : ?c ?x = Returns _ ?y |- same_kernel_root ?z ?y =>
          apply (inv_trans z x y);
          [| refine (preserves_Returns same_kernel_root c x _ y _ E);
             unfold Run_partition, Run_mount, formatPartition, generateFSTab,
               generateFSTab_entry;
             preserve kernel_root_leaf ];
          clear E
      end.
    apply inv_refl. }
  pose proof (generateFSTab_None _ _ Efs) as (Ea & _ & Hall).
  rewrite <- Ea in Hall.
  unfold generateKernelRoot, bind, get_action in Ekr.
  pose proof (generateKernelRoot_loop_Returns _ _ _ _ Ekr) as Hp.
  cbn [leave st_action st_context copy_back Mountpoints].
  destruct (find is_root (Mountpoints (st_action sm))) as [m |] eqn:Ef.
  - destruct Hp as (p & Ep).
    rewrite (generateKernelRoot_loop_some _ _ _ _ Ef Ep) in Ekr.
    destruct (Hall m (proj1 (find_some _ _ Ef))) as (p' & Ep' & Hu).
    assert (p' = p) by congruence. subst p'.
    apply String.eqb_neq in Hu. rewrite Hu in Ekr. injection Ekr as <-.
    simpl. rewrite Ef. exists p. repeat split.
    + exact Ep.
    + now apply String.eqb_neq.
  - rewrite (generateKernelRoot_loop_none _ _ Ef) in Ekr. injection Ekr as <-.
    rewrite Ef. exact K.
Qed.

End RunKernelRoot.

(** C7.  [generateKernelRoot] has one caller, [Run], which calls it on
    the state [generateFSTab] has just returned nil from.  On such a
    state it returns nil.  When a mount at "/" is declared, the
    parameter is then root=UUID= followed by the UUID of the first such
    mount, which is not empty, and nothing else has changed; when none
    is declared, the state, the parameter included, is as it was.  So
    the parameter is root=UUID= followed by the UUID of a declared
    mount at "/" iff such a mount is declared. *)
Theorem generateKernelRoot_sets_root (s0 s : State) :
  generateFSTab s0 = Returns None s ->
  exists s',
    generateKernelRoot s = Returns None s' /\
    ((exists m p,
        In m (Mountpoints (st_action s)) /\ m_Mountpoint m = "/"%string /\
        mount_partition (st_action s) m = Some p /\
        ImageKernelRoot (st_context s') = ("root=UUID=" ++ p_FSUUID p)%string)
     <->
     (exists m, In m (Mountpoints (st_action s)) /\
                m_Mountpoint m = "/"%string)) /\
    (forall m p,
       find is_root (Mountpoints (st_action s)) = Some m ->
       mount_partition (st_action s) m = Some p ->
       p_FSUUID p <> ""%string /\
       s' = with_context s
              (set_ImageKernelRoot ("root=UUID=" ++ p_FSUUID p)%string
                                   (st_context s))) /\
    ((~ exists m, In m (Mountpoints (st_action s)) /\
                  m_Mountpoint m = "/"%string) ->
     s' = s).
Proof.
  intros Efs.
  pose proof (generateFSTab_None _ _ Efs) as (Ea & _ & Hall).
  rewrite <- Ea in Hall.
  unfold generateKernelRoot, bind, get_action.
  destruct (find is_root (Mountpoints (st_action s))) as [m |] eqn:Ef.
  - pose proof (find_some _ _ Ef) as (Hin & Hm).
    apply String.eqb_eq in Hm.
    destruct (Hall m Hin) as (p & Ep & Hu).
    rewrite (generateKernelRoot_loop_some _ _ _ _ Ef Ep).
    pose proof Hu as Hb. apply String.eqb_neq in Hb. rewrite Hb.
    eexists. split; [reflexivity |]. split; [| split].
    + split.
      * intros (m' & _ & Hin' & Em' & _). now exists m'.
      * intros _. exists m, p. repeat split; assumption.
    + intros m' p' Em' Ep'. injection Em' as <-.
      assert (p' = p) by congruence. subst p'. now split.
    + intros Hno. exfalso. apply Hno. now exists m.
  - rewrite (generateKernelRoot_loop_none _ _ Ef).
    exists s. split; [reflexivity |]. split; [| split].
    + split.
      * intros (m' & _ & Hin' & Em' & _). now exists m'.
      * intros Hex. exfalso. apply find_is_root_none in Ef. exact (Ef Hex).
    + intros m' p' Em'. discriminate Em'.
    + reflexivity.
Qed.

(** The theorem of C7 on an action whose root partition is formatted:
    [generateFSTab] returns nil on it, and on the state it leaves
    [generateKernelRoot] sets the parameter from the UUID of the mount
    at "/". *)
Lemma generateKernelRoot_sets_root_witness :
  exists s',
    generateKernelRoot (state_of (generateFSTab formatted_state)) =
    Returns None s' /\
    ImageKernelRoot (st_context s') = "root=UUID=0a1b-2c3d"%string.
Proof.
  destruct (generateKernelRoot_sets_root formatted_state
              (state_of (generateFSTab formatted_state)) eq_refl)
    as (s' & E & _ & Hset & _).
  exists s'. split; [exact E |].
  destruct (Hset (mkMountpoint "/" "root" [] (Some 0%nat))
                 (mkPartition 1 "root" "0%" "100%" "ext4" [] "0a1b-2c3d")
                 eq_refl eq_refl) as (_ & ->).
  reflexivity.
Defined.

(** C5.  When [Run] returns nil, every mount is linked to a partition
    with a non-empty UUID, the mounts are those declared, and the
    fstab content in the context is, for each mount in declaration
    order, the line UUID=<uuid> <mountpoint> <fs> <options> 0 0
    (tab-separated, newline-terminated), where <fs> is the partition's
    type with fat32 replaced by vfat and <options> is "defaults"
    followed by the mount's options, comma-joined; nothing else is in
    it.  And on an action whose mounts are all linked,
    [generateFSTab] returns, with an error iff the partition of some
    mount has an empty UUID, and with that content when it returns
    nil. *)
Theorem generateFSTab_lists_mounts `{Platform} (s : State) :
  (forall s',
     Run s = Returns None s' ->
     Mountpoints (st_action s') = Mountpoints (st_action s) /\
     (forall m, In m (Mountpoints (st_action s')) ->
                exists p, mount_partition (st_action s') m = Some p /\
                          p_FSUUID p <> ""%string) /\
     ImageFSTab (st_context s') =
     fold_right String.append EmptyString
       (map (fun m =>
               match mount_partition (st_action s') m with
               | Some p =>
                   ("UUID=" ++ p_FSUUID p ++ tab ++ m_Mountpoint m ++ tab ++
                    (if p_FS p =? "fat32" then "vfat" else p_FS p) ++ tab ++
                    String.concat "," ("defaults" :: m_Options m) ++
                    tab ++ "0" ++ tab ++ "0" ++ newline)%string
               | None => EmptyString
               end)
            (Mountpoints (st_action s')))) /\
  ((forall m, In m (Mountpoints (st_action s)) ->
              mount_partition (st_action s) m <> None) ->
   exists e s',
     generateFSTab s = Returns e s' /\
     (e <> None <->
      exists m p, In m (Mountpoints (st_action s)) /\
                  mount_partition (st_action s) m = Some p /\
                  p_FSUUID p = ""%string) /\
     (e = None ->
      ImageFSTab (st_context s') =
      lines (st_action s) (Mountpoints (st_action s)))).
Proof.
  split.
  - intros s' E. split; [| split].
    + pose proof (Run_same_mountpoints s) as K. rewrite E in K. exact K.
    + apply (Run_None _ _ E).
    + apply (Run_None _ _ E).
  - intros Hres.
    destruct (uuid_decision _ _ Hres) as [Hall | Hex].
    + eexists. eexists. split; [apply (generateFSTab_written _ Hall) |].
      split; [split |].
      * congruence.
      * intros (m & p & Hm & Ep & Eu).
        destruct (Hall m Hm) as (p' & Ep' & Hu). congruence.
      * reflexivity.
    + destruct (generateFSTab_missing _ Hres Hex) as (msg & s' & E).
      exists (Some msg), s'. split; [exact E |].
      split; [split |].
      * intros _. exact Hex.
      * discriminate.
      * discriminate.
Qed.

(** The theorem of C5 on the documented layout, verified and attached
    to /dev/loop0, on a host where everything succeeds: [Run] returns
    nil and leaves the two lines, root first as declared; and on the
    formatted single-partition action [generateFSTab] returns nil. *)
Lemma generateFSTab_lists_mounts_witness :
  ImageFSTab (st_context (state_of (@Run willing_platform rpi3_on_loop0))) =
  ("UUID=uuid-12" ++ tab ++ "/" ++ tab ++ "ext4" ++ tab ++ "defaults" ++
   tab ++ "0" ++ tab ++ "0" ++ newline ++
   "UUID=uuid-8" ++ tab ++ "/boot/firmware" ++ tab ++ "vfat" ++ tab ++
   "defaults,x-systemd.automount" ++ tab ++ "0" ++ tab ++ "0" ++ newline)%string
  /\
  exists e s', generateFSTab formatted_state = Returns e s'.
Proof.
  split.
  - assert (E : @Run willing_platform rpi3_on_loop0 =
                Returns None (state_of (@Run willing_platform rpi3_on_loop0)))
      by (vm_compute; reflexivity).
    destruct (proj1 (@generateFSTab_lists_mounts willing_platform
                       rpi3_on_loop0) _ E) as (_ & _ & Ef).
    rewrite Ef. reflexivity.
  - assert (Hres : forall m,
               In m (Mountpoints (st_action formatted_state)) ->
               mount_partition (st_action formatted_state) m <> None)
      by (intros m [<- | []]; discriminate).
    destruct (proj2 (@generateFSTab_lists_mounts willing_platform
                       formatted_state) Hres) as (e & s' & E & _).
    exists e, s'. exact E.
Defined.

(** * Further properties of the action *)

(** ** Verify on recipes it rejects, what its success establishes, and
    the links of the mounts *)

Lemma partition_error_well_formed p :
  partition_error p = None <-> well_formed p.
Proof.
  unfold partition_error, well_formed.
  destruct (String.eqb_spec (p_Name p) ""); [split; [discriminate | tauto] |].
  destruct (String.eqb_spec (p_Start p) ""); [split; [discriminate | tauto] |].
  destruct (String.eqb_spec (p_End p) ""); [split; [discriminate | tauto] |].
  destruct (String.eqb_spec (p_FS p) ""); [split; [discriminate | tauto] |].
  tauto.
Qed.

(** A list of partitions is well formed throughout, or has a first
    partition that is not. *)
Lemma first_malformed ps :
  Forall well_formed ps \/
  exists pre p post msg,
    ps = pre ++ p :: post /\ Forall well_formed pre /\
    partition_error p = Some msg.
Proof.
  induction ps as [| q ps IH].
  - left. constructor.
  - destruct (partition_error q) as [msg |] eqn:Eq.
    + right. exists [], q, ps, msg. repeat split; [constructor | exact Eq].
    + apply partition_error_well_formed in Eq.
      destruct IH as [Hall | (pre & p & post & msg & -> & Hpre & Ep)].
      * left. now constructor.
      * right. exists (q :: pre), p, post, msg.
        repeat split; [now constructor | exact Ep].
Qed.

Lemma renumber_app num pre post :
  exists num',
    renumber num (pre ++ post) = renumber num pre ++ renumber num' post.
Proof.
  revert num. induction pre as [| p pre IH]; intros num; simpl.
  - now exists num.
  - destruct (IH (int_add num 1)) as (num' & E). exists num'. now rewrite E.
Qed.

Lemma renumber_same_fields num ps :
  forall k q,
    nth_error (renumber num ps) k = Some q ->
    exists p n, nth_error ps k = Some p /\ q = set_number n p.
Proof.
  revert num. induction ps as [| p ps IH]; intros num [| k] q E; simpl in E;
    try discriminate.
  - injection E as <-. exists p, num. split; reflexivity.
  - apply IH in E. exact E.
Qed.

Lemma renumber_well_formed num ps :
  Forall well_formed ps -> Forall well_formed (renumber num ps).
Proof.
  revert num. induction ps as [| p ps IH]; intros num Hwf; simpl.
  - constructor.
  - inversion Hwf; subst. constructor; [assumption | now apply IH].
Qed.

Section VerifyFurther.

Context `{Platform}.

Lemma Verify_partitions_stops post :
  forall pre p rest msg num s,
    Partitions (st_action s) = pre ++ post ++ p :: rest ->
    Forall well_formed post ->
    partition_error p = Some msg ->
    Verify_partitions
      (seq (List.length pre) (List.length (post ++ p :: rest))) num s =
    Returns (Some msg)
      (with_partitions s (pre ++ renumber num (post ++ [p]) ++ rest)).
Proof.
  induction post as [| q post IH]; intros pre p rest msg num s Eps Hwf Ep.
  - cbn [app List.length seq Verify_partitions renumber].
    assert (E0 : nth_error (Partitions (st_action s)) (List.length pre) = Some p)
      by (rewrite Eps; apply nth_error_middle).
    rewrite (bind_eq _ _ _ _ _ (update_partition_eq _ (set_number num) _ _ E0)).
    rewrite Eps. simpl app. rewrite list_set_middle.
    set (s1 := with_partitions s (pre ++ set_number num p :: rest)).
    assert (E1 : nth_error (Partitions (st_action s1)) (List.length pre)
                 = Some (set_number num p)) by apply nth_error_middle.
    rewrite (bind_eq _ _ _ _ _ (partition_at_eq _ _ _ E1)).
    unfold partition_error in Ep. simpl.
    destruct (p_Name p =? "")%string; [now injection Ep as <- |].
    destruct (p_Start p =? "")%string; [now injection Ep as <- |].
    destruct (p_End p =? "")%string; [now injection Ep as <- |].
    destruct (p_FS p =? "")%string; [now injection Ep as <- | discriminate Ep].
  - inversion Hwf as [| ? ? (Hn & Hs & He & Hf) Hwf']; subst.
    cbn [app List.length seq Verify_partitions renumber].
    assert (E0 : nth_error (Partitions (st_action s)) (List.length pre) = Some q)
      by (rewrite Eps; apply nth_error_middle).
    rewrite (bind_eq _ _ _ _ _ (update_partition_eq _ (set_number num) _ _ E0)).
    rewrite Eps. simpl app. rewrite list_set_middle.
    set (s1 := with_partitions s
                 (pre ++ set_number num q :: post ++ p :: rest)).
    assert (E1 : nth_error (Partitions (st_action s1)) (List.length pre)
                 = Some (set_number num q)) by apply nth_error_middle.
    rewrite (bind_eq _ _ _ _ _ (partition_at_eq _ _ _ E1)). simpl.
    apply String.eqb_neq in Hn, Hs, He, Hf. rewrite Hn, Hs, He, Hf.
    rewrite <- (length_snoc pre (set_number num q)).
    rewrite (IH (pre ++ [set_number num q]) p rest msg (int_add num 1) s1).
    + unfold with_partitions, s1. simpl. now rewrite <- app_assoc.
    + unfold s1. simpl. apply app_cons_snoc.
    + exact Hwf'.
    + exact Ep.
Qed.

Lemma Verify_malformed_result (s : State) pre p post msg :
  Partitions (st_action s) = pre ++ p :: post ->
  Forall well_formed pre ->
  partition_error p = Some msg ->
  Verify s =
  Returns (Some msg) (with_partitions s (renumber 1 (pre ++ [p]) ++ post)).
Proof.
  intros Eps Hwf Ep. unfold Verify.
  unfold bind at 1. unfold get_action at 1.
  pose proof (Verify_partitions_stops pre [] p post msg 1%Z s Eps Hwf Ep) as E.
  simpl List.length in E. rewrite Eps, length_app.
  rewrite length_app in E. simpl app in E.
  now rewrite (or_return_fails _ _ _ _ _ E).
Qed.

Lemma Verify_size_fails s :
  Forall well_formed (Partitions (st_action s)) ->
  Forall unlinked (Mountpoints (st_action s)) ->
  Forall (fun m => first_named (m_Partition m) (Partitions (st_action s)) 0
                   <> None) (Mountpoints (st_action s)) ->
  units_FromHumanSize (ImageSize (st_action s)) = None ->
  Verify s =
  Returns (Some ("Failed to parse image size: " ++ ImageSize (st_action s))%string)
    (mkState
       (set_Mountpoints
          (map (link (Partitions (st_action s))) (Mountpoints (st_action s)))
          (set_Partitions (renumber 1 (Partitions (st_action s)))
                          (st_action s)))
       (st_context s) (st_args s) (st_trace s)).
Proof.
  intros Hwf Hfresh Hres Hsz. unfold Verify.
  unfold bind at 1. unfold get_action at 1.
  rewrite (or_return_eq _ _ _ _
             (Verify_partitions_numbers _ [] 1%Z s eq_refl Hwf)).
  simpl app.
  set (s1 := with_partitions s (renumber 1 (Partitions (st_action s)))).
  assert (Hres1 : Forall (fun m => first_named (m_Partition m)
                                     (Partitions (st_action s1)) 0 <> None)
                         (Mountpoints (st_action s1))).
  { unfold s1. simpl. eapply Forall_impl; [| exact Hres].
    intros m Hm. now rewrite first_named_renumber. }
  rewrite (or_return_eq _ _ _ _
             (Verify_mountpoints_linked _ [] s1 eq_refl Hfresh Hres1)).
  unfold bind, get_action, s1. simpl. rewrite Hsz. simpl.
  unfold ret. simpl. rewrite link_renumber. reflexivity.
Qed.

End VerifyFurther.

Lemma renumber_nth_some ps :
  forall num k p,
    nth_error ps k = Some p ->
    exists n, nth_error (renumber num ps) k = Some (set_number n p).
Proof.
  induction ps as [| q ps IH]; intros num [| k] p E; simpl in *;
    try discriminate.
  - injection E as ->. now exists num.
  - apply IH. exact E.
Qed.

(** X1.  When the partitions before [p] are well formed and [p] is
    not, [Verify] returns the error of [p]'s first empty field (name,
    start, end, fs type, in that order).  It has by then numbered the
    partitions up to and including [p]; the partitions after [p] keep
    the number they had, no mount has been linked, the size has not
    been parsed, and nothing outside the process has been called. *)
Theorem Verify_rejects_malformed_partition `{Platform} (s : State)
    pre p post msg :
  Partitions (st_action s) = pre ++ p :: post ->
  Forall well_formed pre ->
  partition_error p = Some msg ->
  Verify s =
  Returns (Some msg) (with_partitions s (renumber 1 (pre ++ [p]) ++ post)).
Proof. apply Verify_malformed_result. Qed.

(** The theorem of X1 on a recipe whose second partition has no end
    (and whose third has neither start nor end): the error names the
    second, which has got number 2; the third is still unnumbered. *)
Lemma Verify_rejects_malformed_partition_witness :
  @Verify willing_platform endless_state =
  Returns (Some "Partition root missing end"%string)
    (with_partitions endless_state
       [ mkPartition 1 "firmware" "0%" "64MB" "fat32" [] "";
         mkPartition 2 "root" "64MB" "" "ext4" ["boot"] "";
         mkPartition 0 "data" "" "" "ext4" [] "" ]).
Proof.
  assert (Hwf : Forall well_formed
                  [mkPartition 0 "firmware" "0%" "64MB" "fat32" [] ""])
    by (repeat constructor; discriminate).
  exact (@Verify_rejects_malformed_partition willing_platform endless_state
           [mkPartition 0 "firmware" "0%" "64MB" "fat32" [] ""]
           (mkPartition 0 "root" "64MB" "" "ext4" ["boot"] "")
           [mkPartition 0 "data" "" "" "ext4" [] ""] _ eq_refl Hwf eq_refl).
Defined.

Lemma named_dec name ps :
  {first_named name ps 0 <> None} + {~ first_named name ps 0 <> None}.
Proof.
  destruct (first_named name ps 0);
    [left; discriminate | right; intros N; now apply N].
Qed.

Lemma Verify_nil_state `{Platform} (s s' : State) :
  Forall unlinked (Mountpoints (st_action s)) ->
  Verify s = Returns None s' ->
  Forall well_formed (Partitions (st_action s)) /\
  Forall (fun m => first_named (m_Partition m) (Partitions (st_action s)) 0
                   <> None) (Mountpoints (st_action s)) /\
  exists sz,
    units_FromHumanSize (ImageSize (st_action s)) = Some sz /\
    s' = mkState
           (set_size sz
              (set_Mountpoints
                 (map (link (Partitions (st_action s)))
                      (Mountpoints (st_action s)))
                 (set_Partitions (renumber 1 (Partitions (st_action s)))
                                 (st_action s))))
           (st_context s) (st_args s) (st_trace s).
Proof.
  intros Hfresh E.
  assert (Hwf : Forall well_formed (Partitions (st_action s))).
  { destruct (first_malformed (Partitions (st_action s)))
      as [Hwf | (pre & p & post & msg & Eps & Hpre & Ep)]; [exact Hwf |].
    rewrite (Verify_malformed_result s pre p post msg Eps Hpre Ep) in E.
    discriminate E. }
  assert (Hres : Forall (fun m => first_named (m_Partition m)
                                    (Partitions (st_action s)) 0 <> None)
                        (Mountpoints (st_action s))).
  { destruct (Forall_Exists_dec
                (fun m => first_named (m_Partition m)
                            (Partitions (st_action s)) 0 <> None)
                (fun m => named_dec (m_Partition m) (Partitions (st_action s)))
                (Mountpoints (st_action s))) as [Hall | Hex]; [exact Hall |].
    exfalso.
    destruct (Verify_rejects s Hwf Hfresh) as (msg & s'' & E').
    - eapply Exists_impl; [| exact Hex]. intros m Hm. simpl in Hm.
      destruct (first_named (m_Partition m) (Partitions (st_action s)) 0);
        [exfalso; apply Hm; discriminate | reflexivity].
    - congruence. }
  split; [exact Hwf |]. split; [exact Hres |].
  destruct (units_FromHumanSize (ImageSize (st_action s))) as [sz |] eqn:Esz.
  - exists sz. split; [reflexivity |].
    rewrite (Verify_succeeds s sz Hwf Hfresh Hres Esz) in E. congruence.
  - rewrite (Verify_size_fails s Hwf Hfresh Hres Esz) in E. discriminate E.
Qed.




(** X2.  Whenever [Verify] returns nil on a recipe as the decoder
    leaves it (no mount linked), the action it leaves is ready for the
    later phases: every partition has a non-empty name, start, end and
    fs type; every mount is linked to a declared partition that carries
    the name the mount refers to; and [size] is the parsed image size.
    The build context, the launch arguments and the host are untouched. *)
Theorem Verify_nil_establishes `{Platform} (s s' : State) :
  Forall unlinked (Mountpoints (st_action s)) ->
  Verify s = Returns None s' ->
  Forall well_formed (Partitions (st_action s')) /\
  (forall m, In m (Mountpoints (st_action s')) ->
             exists p, mount_partition (st_action s') m = Some p /\
                       p_Name p = m_Partition m) /\
  units_FromHumanSize (ImageSize (st_action s')) = Some (size (st_action s')) /\
  st_context s' = st_context s /\ st_args s' = st_args s /\
  st_trace s' = st_trace s.
Proof.
  intros Hfresh E.
  destruct (Verify_nil_state s s' Hfresh E) as (Hwf & Hres & sz & Esz & ->).
  simpl. repeat split; try assumption.
  - now apply renumber_well_formed.
  - intros m' Hin. apply in_map_iff in Hin. destruct Hin as (m & <- & Hm).
    pose proof (proj1 (Forall_forall _ _) Hres m Hm) as Hm'.
    unfold link.
    destruct (first_named (m_Partition m) (Partitions (st_action s)) 0)
      as [pidx |] eqn:Ef; [| congruence].
    destruct (first_named_first _ _ _ _ Ef) as (_ & (p & Ep & En) & _).
    rewrite Nat.sub_0_r in Ep.
    destruct (renumber_nth_some _ 1%Z _ _ Ep) as (n & En').
    exists (set_number n p). split; [| exact En].
    unfold mount_partition. simpl. exact En'.
Qed.

(** The theorem of X2 on the documented layout. *)
Lemma Verify_nil_establishes_witness :
  size (st_action (state_of (@Verify willing_platform rpi3_state)))
  = 1000000000%Z.
Proof.
  assert (Hfresh : Forall unlinked (Mountpoints (st_action rpi3_state)))
    by (repeat constructor).
  assert (E : @Verify willing_platform rpi3_state =
              Returns None (state_of (@Verify willing_platform rpi3_state)))
    by (vm_compute; reflexivity).
  destruct (@Verify_nil_establishes willing_platform rpi3_state _ Hfresh E)
    as (_ & _ & Esz & _).
  exact (f_equal (fun o => match o with Some z => z | None => 0%Z end)
                 (eq_sym Esz)).
Defined.

(** ** The host calls of Run *)

Lemma begins_refl {A : Type} (l : list A) : begins l l.
Proof. exists []. now rewrite app_nil_r. Qed.

Lemma begins_nil {A : Type} (plan : list A) : begins [] plan.
Proof. now exists plan. Qed.

Lemma begins_app {A : Type} (l ops plan : list A) :
  begins ops plan -> begins (l ++ ops) (l ++ plan).
Proof. intros (rest & ->). exists rest. now rewrite app_assoc. Qed.

Lemma begins_more {A : Type} (ops plan more : list A) :
  begins ops plan -> begins ops (plan ++ more).
Proof. intros (rest & ->). exists (rest ++ more). now rewrite app_assoc. Qed.

Lemma moved_same s ps t :
  Partitions (st_action s) = ps -> moved s ps t = with_trace s t.
Proof. destruct s as [[] ? ? ?]. simpl. now intros ->. Qed.

Lemma set_FSUUID_same p : set_FSUUID (p_FSUUID p) p = p.
Proof. now destruct p. Qed.

Lemma list_set_same {A : Type} (l : list A) :
  forall n x, nth_error l n = Some x -> list_set n x l = l.
Proof.
  induction l as [| a l IH]; intros [| n] x E; simpl in *; try discriminate.
  - now injection E as ->.
  - now rewrite (IH n x E).
Qed.

Lemma getPartitionDevice_some number context :
  Image context <> ""%string ->
  exists dev, getPartitionDevice number context = Some dev.
Proof.
  intros Hne. unfold getPartitionDevice.
  assert (exists c, last_byte (Image context) = Some c) as (c & ->).
  { destruct (Image context) as [| c0 rest]; [congruence |]. clear Hne.
    revert c0. induction rest as [| c1 rest IH]; intros c0; simpl.
    - eauto.
    - apply IH. }
  destruct (is_digit c); eauto.
Qed.

Section Heard.

Context `{Platform}.

Lemma accepted_app a :
  forall t b, accepted t (a ++ b) = accepted t a && accepted (t ++ a) b.
Proof.
  induction a as [| op a IH]; intros t b; cbn [app accepted].
  - now rewrite app_nil_r.
  - rewrite IH, <- app_assoc. cbn [app]. now rewrite andb_assoc.
Qed.

Lemma until_refused_app a :
  forall t b,
    until_refused t (a ++ b) =
    if accepted t a then a ++ until_refused (t ++ a) b
    else until_refused t a.
Proof.
  induction a as [| op a IH]; intros t b; cbn [app accepted until_refused].
  - now rewrite app_nil_r.
  - destruct (refused t op); cbn [negb andb]; [reflexivity |].
    rewrite IH, <- app_assoc. cbn [app].
    now destruct (accepted (t ++ [op]) a).
Qed.

Lemma accepted_until plan :
  forall t, accepted t plan = true -> until_refused t plan = plan.
Proof.
  induction plan as [| op plan IH]; intros t A; cbn [accepted until_refused] in *;
    [reflexivity |].
  apply andb_prop in A as [A1 A2]. apply negb_true_iff in A1.
  rewrite A1. now rewrite (IH _ A2).
Qed.

Lemma until_refused_begins plan :
  forall t, begins (until_refused t plan) plan.
Proof.
  induction plan as [| op plan IH]; intros t; cbn [until_refused].
  - apply begins_nil.
  - destruct (refused t op).
    + apply (begins_app [op] [] plan), begins_nil.
    + apply (begins_app [op] _ plan), IH.
Qed.

(** A call the host refused is the last one. *)
Lemma until_refused_stops plan :
  forall t before op after,
    until_refused t plan = before ++ op :: after ->
    refused (t ++ before) op = true ->
    after = [] /\ accepted t plan = false.
Proof.
  induction plan as [| x plan IH]; intros t before op after E R;
    cbn [until_refused accepted] in *.
  - now destruct before.
  - destruct (refused t x) eqn:Rx.
    + destruct before as [| b before]; cbn [app] in E.
      * injection E as _ <-. now split.
      * injection E as _ E. now destruct before.
    + destruct before as [| b before]; cbn [app] in E.
      * injection E as -> _. rewrite app_nil_r in R. congruence.
      * injection E as <- E.
        change (t ++ x :: before) with (t ++ [x] ++ before) in R.
        rewrite app_assoc in R.
        destruct (IH _ _ _ _ E R) as [-> A]. split; [reflexivity |].
        now rewrite A.
Qed.

(** When the host refused none of the calls made, all were made. *)
Lemma until_refused_whole plan :
  forall t,
    (forall before op after,
       until_refused t plan = before ++ op :: after ->
       refused (t ++ before) op = false) ->
    accepted t plan = true.
Proof.
  induction plan as [| x plan IH]; intros t Hall;
    cbn [until_refused accepted] in *; [reflexivity |].
  assert (Rx : refused t x = false).
  { destruct (refused t x) eqn:Rx; [| reflexivity].
    specialize (Hall [] x [] eq_refl). rewrite app_nil_r in Hall.
    congruence. }
  rewrite Rx in *. cbn [negb andb]. apply IH.
  intros before op after E.
  specialize (Hall (x :: before) op after). cbn [app] in Hall.
  rewrite E in Hall. specialize (Hall eq_refl).
  change (t ++ x :: before) with (t ++ [x] ++ before) in Hall.
  now rewrite app_assoc in Hall.
Qed.

Lemma heard_nil t : heard t [] None [].
Proof. now split. Qed.

Lemma heard_first t op rest msg :
  refused t op = true -> heard t (op :: rest) (Some msg) [op].
Proof.
  intros R. unfold heard. cbn [until_refused accepted]. rewrite R.
  split; [reflexivity |]. split; discriminate.
Qed.

Lemma heard_cons t op rest e ops :
  refused t op = false ->
  heard (t ++ [op]) rest e ops -> heard t (op :: rest) e (op :: ops).
Proof.
  intros R [-> A]. unfold heard. cbn [until_refused accepted]. rewrite R.
  split; [reflexivity | exact A].
Qed.

Lemma heard_stop t a b msg msg' ops :
  heard t a (Some msg) ops -> heard t (a ++ b) (Some msg') ops.
Proof.
  intros [-> A]. unfold heard.
  assert (Aa : accepted t a = false).
  { destruct (accepted t a); [| reflexivity].
    destruct A as [_ A]. now specialize (A eq_refl). }
  rewrite until_refused_app, accepted_app, Aa.
  split; [reflexivity |]. split; discriminate.
Qed.

Lemma heard_go t a b e ops :
  heard t a None a -> heard (t ++ a) b e ops -> heard t (a ++ b) e (a ++ ops).
Proof.
  intros [_ A] [-> B]. unfold heard.
  assert (Aa : accepted t a = true) by now apply A.
  rewrite until_refused_app, accepted_app, Aa.
  split; [reflexivity | exact B].
Qed.

Lemma heard_all t plan e ops :
  heard t plan e ops -> e = None -> ops = plan.
Proof. intros [-> A] ->. apply accepted_until. now apply A. Qed.

Lemma heard_outcome t plan e ops :
  heard t plan e ops ->
  ops = until_refused t plan /\ (accepted t plan = false -> e <> None).
Proof.
  intros [-> A]. split; [reflexivity |].
  intros F ->. destruct A as [A _]. specialize (A eq_refl). congruence.
Qed.

Lemma heard_through t plan (e : error) :
  heard t plan None plan ->
  plan = until_refused t plan /\ (accepted t plan = false -> e <> None).
Proof.
  intros [E A]. split; [exact E |].
  intros F. destruct A as [A _]. specialize (A eq_refl). congruence.
Qed.

End Heard.

Section RunPlan.

Context `{Platform}.

Lemma flags_loop_result (cmd : string -> list string) flags :
  forall s,
  exists e ops,
    for_range flags (fun flag => Command_Run "parted" (cmd flag)) s =
    Returns e (with_trace s (st_trace s ++ ops)) /\
    begins ops (map (fun flag => CommandRun "parted" (cmd flag)) flags) /\
    (e = None ->
     ops = map (fun flag => CommandRun "parted" (cmd flag)) flags) /\
    heard (st_trace s)
          (map (fun flag => CommandRun "parted" (cmd flag)) flags) e ops.
Proof.
  induction flags as [| flag flags IH]; intros s.
  - exists None, []. simpl. unfold ret, with_trace. rewrite app_nil_r.
    split; [now destruct s |].
    split; [apply begins_refl | split; [reflexivity | apply heard_nil]].
  - cbn [for_range map]. unfold or_return at 1.
    unfold Command_Run at 1. unfold bind at 1. unfold bind at 1.
    unfold perform at 1. unfold ret at 1.
    set (s1 := mkState _ _ _ _).
    destruct (r_err (host (st_trace s) (CommandRun "parted" (cmd flag))))
      as [msg |] eqn:Er.
    + exists (Some msg), [CommandRun "parted" (cmd flag)].
      split; [| split; [| split]].
      * reflexivity.
      * apply (begins_app [_] [] _). apply begins_nil.
      * discriminate.
      * apply heard_first. unfold refused. now rewrite Er.
    + destruct (IH s1) as (e & ops & E & Hb & Hfull & Hh).
      exists e, (CommandRun "parted" (cmd flag) :: ops).
      split; [| split; [| split]].
      * rewrite E. unfold with_trace, s1. simpl. now rewrite <- app_assoc.
      * apply (begins_app [_] ops _). exact Hb.
      * intros He. now rewrite (Hfull He).
      * apply heard_cons; [| exact Hh].
        unfold refused. rewrite Er. apply andb_false_r.
Qed.

Lemma formatPartition_result idx context s p :
  nth_error (Partitions (st_action s)) idx = Some p ->
  Image context <> ""%string ->
  exists e u,
    formatPartition idx context s =
    Returns e
      (moved s (list_set idx (set_FSUUID u p) (Partitions (st_action s)))
         (st_trace s ++
          [ CommandRun ("Formatting partition " ++ itoa (p_number p))%string
              (mkfs_cmdline p ++ [device_of context p]);
            ExecOutput ["blkid"; "-o"; "value"; "-s"; "UUID"; "-p"; "-c";
                        "none"; device_of context p] ])) /\
    (e = None <->
     r_err (host (st_trace s ++
                  [ CommandRun
                      ("Formatting partition " ++ itoa (p_number p))%string
                      (mkfs_cmdline p ++ [device_of context p]) ])
                 (ExecOutput ["blkid"; "-o"; "value"; "-s"; "UUID"; "-p";
                              "-c"; "none"; device_of context p])) = None).
Proof.
  intros Ep Hne.
  destruct (getPartitionDevice_some (p_number p) context Hne) as (dev & Edev).
  unfold device_of. rewrite Edev.
  unfold formatPartition, value_receiver.
  rewrite (bind_eq _ _ _ _ _ (partition_at_eq _ _ _ Ep)).
  rewrite Edev. unfold or_panic.
  unfold Command_Run, bind, perform, ret. simpl.
  destruct (r_err (host _ (ExecOutput _))) as [e |]; simpl.
  - exists (Some ("Failed to get uuid: " ++ e)%string), (p_FSUUID p).
    split; [| split; discriminate].
    rewrite set_FSUUID_same, (list_set_same _ _ _ Ep).
    rewrite (moved_same _ _ _ eq_refl).
    unfold leave, with_trace, copy_back. simpl.
    rewrite <- app_assoc. now destruct s as [[] ? ? ?].
  - unfold update_partition, partition_at, bind, get_action. simpl.
    rewrite Ep. simpl. eexists None, _.
    split; [| split; reflexivity].
    unfold moved, leave, copy_back, modify_action, set_Partitions. simpl.
    rewrite <- app_assoc. reflexivity.
Qed.

(** The two calls of [formatPartition]: the result of mkfs is not
    looked at, that of blkid is. *)
Lemma heard_format t label cmdline argv e :
  (label =? "parted")%string = false ->
  (e = None <->
   r_err (host (t ++ [CommandRun label cmdline]) (ExecOutput argv)) = None) ->
  heard t [CommandRun label cmdline; ExecOutput argv] e
        [CommandRun label cmdline; ExecOutput argv].
Proof.
  intros Hl He. unfold heard. cbn [until_refused accepted].
  unfold refused. cbn [checked]. rewrite Hl. cbn [andb negb].
  destruct (r_err (host (t ++ [CommandRun label cmdline]) (ExecOutput argv)));
    cbn [andb negb]; (split; [reflexivity |]).
  - split; [intros E; apply He in E; discriminate E | discriminate].
  - split; [reflexivity | intros _; now apply He].
Qed.

Lemma Run_partition_result pre p post s :
  Partitions (st_action s) = pre ++ p :: post ->
  Image (st_context s) <> ""%string ->
  exists e u ops,
    Run_partition (List.length pre) s =
    Returns e (moved s (pre ++ set_FSUUID u p :: post) (st_trace s ++ ops)) /\
    begins ops (partition_plan (st_action s) (st_context s) p) /\
    (e = None -> ops = partition_plan (st_action s) (st_context s) p) /\
    heard (st_trace s) (partition_plan (st_action s) (st_context s) p) e ops.
Proof.
  intros Eps Hne.
  assert (Ep : nth_error (Partitions (st_action s)) (List.length pre) = Some p)
    by (rewrite Eps; apply nth_error_middle).
  unfold Run_partition.
  unfold bind at 1. unfold get_action at 1.
  unfold bind at 1. unfold get_context at 1.
  rewrite (bind_eq _ _ _ _ _ (partition_at_eq _ _ _ Ep)).
  unfold partition_plan.
  set (mkpart := CommandRun "parted" _).
  unfold or_return at 1. unfold Command_Run at 1.
  unfold bind at 1. unfold bind at 1. unfold perform at 1. unfold ret at 1.
  fold mkpart.
  set (s1 := mkState _ _ _ _).
  destruct (r_err (host (st_trace s) mkpart)) as [msg |] eqn:Er.
  - exists (Some msg), (p_FSUUID p), [mkpart]. split; [| split; [| split]].
    + rewrite set_FSUUID_same, <- Eps, (moved_same _ _ _ eq_refl).
      reflexivity.
    + apply (begins_app [_] [] _). apply begins_nil.
    + discriminate.
    + apply heard_first. unfold refused. now rewrite Er.
  - assert (Rm : refused (st_trace s) mkpart = false)
      by (unfold refused; rewrite Er; apply andb_false_r).
    destruct (flags_loop_result
                (fun flag => ["parted"; "-s"; Image (st_context s); "set";
                              itoa (p_number p); flag; "on"])
                (p_Flags p) s1) as (e1 & ops1 & E1 & Hb1 & Hfull1 & Hh1).
    unfold or_return at 1. rewrite (bind_eq _ _ _ _ _ E1).
    destruct e1 as [msg |].
    + exists (Some msg), (p_FSUUID p), (mkpart :: ops1).
      split; [| split; [| split]].
      * rewrite set_FSUUID_same, <- Eps, (moved_same _ _ _ eq_refl).
        unfold ret, with_trace, s1. simpl. now rewrite <- app_assoc.
      * apply (begins_app [_] ops1 _). now apply begins_more.
      * discriminate.
      * apply heard_cons; [exact Rm |].
        apply (heard_stop _ _ _ msg msg). exact Hh1.
    + rewrite (Hfull1 eq_refl) in *. clear Hfull1 Hb1.
      set (s2 := with_trace s1 _).
      assert (Ep2 : nth_error (Partitions (st_action s2)) (List.length pre)
                    = Some p) by exact Ep.
      destruct (formatPartition_result (List.length pre) (st_context s) s2 p
                  Ep2 Hne) as (e & u & E & Hblkid).
      unfold or_return at 1. rewrite (bind_eq _ _ _ _ _ E).
      exists e, u. eexists. split; [| split; [| split]].
      * replace (Partitions (st_action s2)) with (pre ++ p :: post)
          by (symmetry; exact Eps).
        rewrite list_set_middle.
        destruct e; unfold ret, moved, s2, s1; simpl;
          rewrite <- !app_assoc; reflexivity.
      * unfold mkfs_cmdline. apply begins_refl.
      * intros _. unfold mkfs_cmdline. reflexivity.
      * apply heard_cons; [exact Rm |].
        apply heard_go; [exact Hh1 |].
        apply heard_format; [reflexivity | exact Hblkid].
Qed.

End RunPlan.

Lemma blank_set_FSUUID u p : blank (set_FSUUID u p) = blank p.
Proof. reflexivity. Qed.

Lemma blank_fields p q :
  blank p = blank q ->
  p_number p = p_number q /\ p_Name p = p_Name q /\ p_FS p = p_FS q.
Proof.
  intros E. repeat split.
  - exact (f_equal p_number E).
  - exact (f_equal p_Name E).
  - exact (f_equal p_FS E).
Qed.

Lemma mount_partition_blank i i' m :
  map blank (Partitions i') = map blank (Partitions i) ->
  match mount_partition i m with
  | Some p => exists p', mount_partition i' m = Some p' /\ blank p' = blank p
  | None => mount_partition i' m = None
  end.
Proof.
  intros E. unfold mount_partition. destruct (m_part m) as [idx |]; [| trivial].
  pose proof (f_equal (fun l => nth_error l idx) E) as En. simpl in En.
  rewrite !nth_error_map in En.
  destruct (nth_error (Partitions i) idx) as [p |],
           (nth_error (Partitions i') idx) as [p' |];
    simpl in En; try discriminate; [| reflexivity].
  exists p'. split; [reflexivity | congruence].
Qed.

Section RunPlanLoops.

Context `{Platform}.

Lemma partition_plan_moved s ps t p :
  partition_plan (st_action (moved s ps t)) (st_context (moved s ps t)) p =
  partition_plan (st_action s) (st_context s) p.
Proof. reflexivity. Qed.

Lemma partitions_loop_result post :
  forall pre s,
    Partitions (st_action s) = pre ++ post ->
    Image (st_context s) <> ""%string ->
    exists e post' ops,
      for_range (seq (List.length pre) (List.length post)) Run_partition s =
      Returns e (moved s (pre ++ post') (st_trace s ++ ops)) /\
      map blank post' = map blank post /\
      begins ops (flat_map (partition_plan (st_action s) (st_context s)) post)
      /\
      (e = None ->
       ops = flat_map (partition_plan (st_action s) (st_context s)) post) /\
      heard (st_trace s)
            (flat_map (partition_plan (st_action s) (st_context s)) post)
            e ops.
Proof.
  induction post as [| p post IH]; intros pre s Eps Hne.
  - exists None, [], []. simpl. rewrite !app_nil_r.
    rewrite (moved_same _ _ _ (eq_trans Eps (app_nil_r pre))).
    unfold ret, with_trace. split; [now destruct s |].
    split; [reflexivity |].
    split; [apply begins_refl | split; [reflexivity | apply heard_nil]].
  - cbn [List.length seq for_range flat_map].
    destruct (Run_partition_result pre p post s Eps Hne)
      as (e1 & u & ops1 & E1 & Hb1 & Hfull1 & Hh1).
    unfold or_return at 1. rewrite (bind_eq _ _ _ _ _ E1).
    destruct e1 as [msg |].
    + exists (Some msg), (set_FSUUID u p :: post), ops1.
      split; [reflexivity |]. split; [reflexivity |].
      split; [now apply begins_more |].
      split; [discriminate |].
      apply (heard_stop _ _ _ msg msg). exact Hh1.
    + rewrite (Hfull1 eq_refl) in *. clear Hfull1 Hb1.
      set (s1 := moved s _ _).
      assert (Eps1 : Partitions (st_action s1)
                     = (pre ++ [set_FSUUID u p]) ++ post)
        by (unfold s1; simpl; apply app_cons_snoc).
      destruct (IH (pre ++ [set_FSUUID u p]) s1 Eps1 Hne)
        as (e & post' & ops & E & Hbl & Hb & Hfull & Hh).
      rewrite length_snoc in E. rewrite E.
      exists e, (set_FSUUID u p :: post'),
        (partition_plan (st_action s) (st_context s) p ++ ops).
      split; [| split; [| split; [| split]]].
      * unfold s1, moved, set_Partitions.
        cbn [st_action st_context st_args st_trace Partitions ImageName
             ImageSize PartitionType Mountpoints size usingLoop].
        rewrite <- !app_assoc. reflexivity.
      * simpl. now rewrite Hbl.
      * apply begins_app. exact Hb.
      * intros He. now rewrite (Hfull He).
      * apply heard_go; [exact Hh1 | exact Hh].
Qed.

Lemma Run_mount_result m s p :
  mount_partition (st_action s) m = Some p ->
  Image (st_context s) <> ""%string ->
  exists e,
    Run_mount m s =
    Returns e
      (with_trace s
         (st_trace s ++
          [ MkdirAll (path_Join (ImageMntDir (st_context s)) (m_Mountpoint m))
                     755;
            Mount (device_of (st_context s) p)
                  (path_Join (ImageMntDir (st_context s)) (m_Mountpoint m))
                  (unaliased (p_FS p)) 0 "" ])) /\
    (e = None <->
     r_err (host (st_trace s ++
                  [ MkdirAll (path_Join (ImageMntDir (st_context s))
                                        (m_Mountpoint m)) 755 ])
                 (Mount (device_of (st_context s) p)
                        (path_Join (ImageMntDir (st_context s))
                                   (m_Mountpoint m))
                        (unaliased (p_FS p)) 0 "")) = None).
Proof.
  intros Ep Hne.
  destruct (getPartitionDevice_some (p_number p) (st_context s) Hne)
    as (dev & Edev).
  unfold device_of. rewrite Edev. unfold Run_mount.
  unfold bind at 1. unfold get_context at 1.
  rewrite (bind_eq _ _ _ _ _ (deref_linked _ _ _ Ep)).
  rewrite Edev. unfold or_panic, bind, perform, ret. simpl.
  destruct (r_err (host _ (Mount _ _ _ _ _))); eexists;
    (split;
     [ unfold with_trace; simpl; rewrite <- app_assoc; reflexivity
     | split; intros; first [reflexivity | discriminate] ]).
Qed.

(** The two calls of one mount: the result of the directory creation
    is not looked at, that of the mount is. *)
Lemma heard_mount t path perm source target fstype flags data e :
  (e = None <->
   r_err (host (t ++ [MkdirAll path perm])
               (Mount source target fstype flags data)) = None) ->
  heard t [MkdirAll path perm; Mount source target fstype flags data] e
        [MkdirAll path perm; Mount source target fstype flags data].
Proof.
  intros He. unfold heard. cbn [until_refused accepted].
  unfold refused. cbn [checked andb negb].
  destruct (r_err (host (t ++ [MkdirAll path perm])
                        (Mount source target fstype flags data)));
    cbn [andb negb]; (split; [reflexivity |]).
  - split; [intros E; apply He in E; discriminate E | discriminate].
  - split; [reflexivity | intros _; now apply He].
Qed.

Lemma mounts_loop_result ms :
  forall s,
    Image (st_context s) <> ""%string ->
    (forall m, In m ms -> mount_partition (st_action s) m <> None) ->
    ImageMntDir (st_context s) = path_Join (Scratchdir (st_context s)) "mnt" ->
    exists e ops,
      for_range ms Run_mount s = Returns e (with_trace s (st_trace s ++ ops)) /\
      begins ops (flat_map (mount_plan (st_action s) (st_context s)) ms) /\
      (e = None ->
       ops = flat_map (mount_plan (st_action s) (st_context s)) ms) /\
      heard (st_trace s)
            (flat_map (mount_plan (st_action s) (st_context s)) ms) e ops.
Proof.
  induction ms as [| m ms IH]; intros s Hne Hlinked Hdir.
  - exists None, []. simpl. unfold ret, with_trace. rewrite app_nil_r.
    split; [now destruct s |].
    split; [apply begins_refl | split; [reflexivity | apply heard_nil]].
  - cbn [for_range flat_map].
    destruct (mount_partition (st_action s) m) as [p |] eqn:Ep;
      [| exfalso; exact (Hlinked m (or_introl eq_refl) Ep)].
    destruct (Run_mount_result m s p Ep Hne) as (e1 & E1 & Hm1).
    assert (Hh1 : heard (st_trace s)
                    [ MkdirAll (path_Join (ImageMntDir (st_context s))
                                          (m_Mountpoint m)) 755;
                      Mount (device_of (st_context s) p)
                            (path_Join (ImageMntDir (st_context s))
                                       (m_Mountpoint m))
                            (unaliased (p_FS p)) 0 "" ]
                    e1
                    [ MkdirAll (path_Join (ImageMntDir (st_context s))
                                          (m_Mountpoint m)) 755;
                      Mount (device_of (st_context s) p)
                            (path_Join (ImageMntDir (st_context s))
                                       (m_Mountpoint m))
                            (unaliased (p_FS p)) 0 "" ])
      by (apply heard_mount; exact Hm1).
    unfold or_return at 1. rewrite (bind_eq _ _ _ _ _ E1).
    assert (Eplan : mount_plan (st_action s) (st_context s) m =
                    [ MkdirAll (path_Join (ImageMntDir (st_context s))
                                          (m_Mountpoint m)) 755;
                      Mount (device_of (st_context s) p)
                            (path_Join (ImageMntDir (st_context s))
                                       (m_Mountpoint m))
                            (unaliased (p_FS p)) 0 "" ]).
    { unfold mount_plan, mount_path. now rewrite Ep, Hdir. }
    rewrite Eplan. set (ops1 := [MkdirAll _ _; Mount _ _ _ _ _]) in *.
    destruct e1 as [msg |].
    + exists (Some msg), ops1. split; [reflexivity |].
      split; [apply begins_more; apply begins_refl |].
      split; [discriminate |].
      apply (heard_stop _ _ _ msg msg). exact Hh1.
    + set (s1 := with_trace s _).
      destruct (IH s1 Hne (fun m' Hm' => Hlinked m' (or_intror Hm')) Hdir)
        as (e & ops & E & Hb & Hfull & Hh).
      rewrite E. exists e, (ops1 ++ ops). split; [| split; [| split]].
      * unfold with_trace, s1. simpl. now rewrite <- app_assoc.
      * apply begins_app. exact Hb.
      * intros He. now rewrite (Hfull He).
      * apply heard_go; [exact Hh1 | exact Hh].
Qed.

End RunPlanLoops.

#[local] Instance context_only_invariant : Invariant context_only.
Proof.
  split; unfold context_only.
  - auto.
  - intros a b c (A1 & A2 & A3 & A4) (B1 & B2 & B3 & B4).
    repeat split; congruence.
Qed.

Ltac context_only_leaf :=
  idtac;
  match goal with
  | |- preserves context_only (modify_context _) =>
      intros ?; repeat split; reflexivity
  end.

Lemma value_receiver_eq {A : Type} (body : M A) s a s1 :
  body s = Returns a s1 ->
  value_receiver body s = Returns a (leave (st_action s) s1).
Proof. unfold value_receiver. now intros ->. Qed.

Section RunPlanWhole.

Context `{Platform}.

Lemma generateFSTab_context_only : preserves context_only generateFSTab.
Proof.
  unfold generateFSTab, generateFSTab_entry. preserve context_only_leaf.
Qed.

Lemma generateKernelRoot_context_only :
  preserves context_only generateKernelRoot.
Proof.
  unfold generateKernelRoot.
  assert (K : forall ms, preserves context_only (generateKernelRoot_loop ms)).
  { induction ms as [| m ms IH]; simpl.
    - preserve context_only_leaf.
    - preserve context_only_leaf. exact IH. }
  preserve ltac:(apply K).
Qed.

Lemma generateFSTab_returns s :
  (forall m, In m (Mountpoints (st_action s)) ->
             mount_partition (st_action s) m <> None) ->
  exists e s', generateFSTab s = Returns e s' /\ context_only s s'.
Proof.
  intros Hlinked.
  assert (exists e s', generateFSTab s = Returns e s') as (e & s' & E).
  { destruct (uuid_decision _ _ Hlinked) as [Hall | Hex].
    - eexists. eexists. apply (generateFSTab_written _ Hall).
    - destruct (generateFSTab_missing _ Hlinked Hex) as (msg & s' & E). eauto. }
  exists e, s'. split; [exact E |].
  exact (preserves_Returns _ _ _ _ _ generateFSTab_context_only E).
Qed.

Lemma generateKernelRoot_returns s :
  (forall m, In m (Mountpoints (st_action s)) ->
             mount_partition (st_action s) m <> None) ->
  exists e s', generateKernelRoot s = Returns e s' /\ context_only s s'.
Proof.
  intros Hlinked.
  assert (exists e s', generateKernelRoot s = Returns e s') as (e & s' & E).
  { unfold generateKernelRoot, bind, get_action.
    destruct (find is_root (Mountpoints (st_action s))) as [m |] eqn:Ef.
    - destruct (mount_partition (st_action s) m) as [p |] eqn:Ep;
        [| exfalso; exact (Hlinked m (proj1 (find_some _ _ Ef)) Ep)].
      rewrite (generateKernelRoot_loop_some _ _ _ _ Ef Ep).
      destruct (p_FSUUID p =? "")%string; eauto.
    - rewrite (generateKernelRoot_loop_none _ _ Ef). eauto. }
  exists e, s'. split; [exact E |].
  exact (preserves_Returns _ _ _ _ _ generateKernelRoot_context_only E).
Qed.

Lemma mount_plan_blank i i' c c' m :
  map blank (Partitions i') = map blank (Partitions i) ->
  Image c' = Image c -> Scratchdir c' = Scratchdir c ->
  mount_plan i' c' m = mount_plan i c m.
Proof.
  intros Eb Ei Es. unfold mount_plan, mount_path, device_of, getPartitionDevice.
  pose proof (mount_partition_blank i i' m Eb) as K.
  destruct (mount_partition i m) as [p |].
  - destruct K as (p' & -> & Ebl).
    destruct (blank_fields _ _ Ebl) as (En & _ & Ef).
    now rewrite Ei, Es, En, Ef.
  - now rewrite K.
Qed.

End RunPlanWhole.

Lemma st_trace_with_trace s t : st_trace (with_trace s t) = t.
Proof. reflexivity. Qed.

Section RunPlanTheorem.

Context `{Platform}.

Lemma Run_result s :
  ready s ->
  exists e s' ops,
    Run s = Returns e s' /\
    st_trace s' = st_trace s ++ ops /\
    begins ops (Run_plan (st_action s) (st_context s)) /\
    (e = None ->
     ops = Run_plan (st_action s) (st_context s) /\
     ImageMntDir (st_context s') = path_Join (Scratchdir (st_context s)) "mnt")
    /\
    ops = until_refused (st_trace s) (Run_plan (st_action s) (st_context s)) /\
    (accepted (st_trace s) (Run_plan (st_action s) (st_context s)) = false ->
     e <> None).
Proof.
  intros (Hne & Hlinked). unfold Run.
  match goal with |- context [value_receiver ?b] => set (body := b) end.
  enough (exists e s1 ops,
             body s = Returns e s1 /\
             st_trace s1 = st_trace s ++ ops /\
             begins ops (Run_plan (st_action s) (st_context s)) /\
             (e = None ->
              ops = Run_plan (st_action s) (st_context s) /\
              ImageMntDir (st_context s1)
              = path_Join (Scratchdir (st_context s)) "mnt") /\
             ops = until_refused (st_trace s)
                     (Run_plan (st_action s) (st_context s)) /\
             (accepted (st_trace s)
                (Run_plan (st_action s) (st_context s)) = false ->
              e <> None))
    as (e & s1 & ops & E & Et & Hb & Hfull & Hu).
  { exists e, (leave (st_action s) s1), ops.
    split; [exact (value_receiver_eq _ _ _ _ E) |].
    split; [exact Et | split; [exact Hb | split; [exact Hfull | exact Hu]]]. }
  subst body. unfold Run_plan.
  set (mklabel := CommandRun "parted" _).
  set (plan_p := flat_map _ (Partitions (st_action s))).
  set (mkdir := MkdirAll _ 755).
  set (plan_m := flat_map _ (Mountpoints (st_action s))).
  unfold bind at 1. unfold perform at 1.
  unfold bind at 1. unfold get_action at 1.
  unfold bind at 1. unfold get_context at 1.
  cbn [st_action st_context st_args st_trace].
  unfold or_return at 1. unfold Command_Run at 1.
  unfold bind at 1. unfold bind at 1. unfold perform at 1. unfold ret at 1.
  cbn [st_action st_context st_args st_trace]. fold mklabel.
  set (sB := mkState _ _ _ ((st_trace s ++ [LogStart]) ++ [mklabel])).
  assert (Rl : refused (st_trace s) LogStart = false) by reflexivity.
  destruct (r_err (host (st_trace s ++ [LogStart]) mklabel)) as [msg |] eqn:Er.
  { exists (Some msg), sB, [LogStart; mklabel]. split; [reflexivity |].
    split; [unfold sB; simpl; now rewrite <- app_assoc |].
    split; [apply begins_more; apply begins_refl |].
    split; [discriminate |].
    apply heard_outcome. cbn [app]. apply heard_cons; [exact Rl |].
    apply heard_first. unfold refused. now rewrite Er. }
  assert (Rm : refused (st_trace s ++ [LogStart]) mklabel = false)
    by (unfold refused; rewrite Er; apply andb_false_r).
  destruct (partitions_loop_result (Partitions (st_action s)) [] sB eq_refl Hne)
    as (e1 & ps' & ops1 & E1 & Hbl & Hb1 & Hfull1 & Hh1).
  simpl List.length in E1.
  unfold or_return at 1. rewrite (bind_eq _ _ _ _ _ E1).
  change (flat_map (partition_plan (st_action sB) (st_context sB))
                   (Partitions (st_action s))) with plan_p in *.
  destruct e1 as [msg |].
  { eexists (Some msg), _, ([LogStart; mklabel] ++ ops1).
    split; [reflexivity |].
    split; [unfold sB; simpl; now rewrite <- !app_assoc |].
    split; [apply begins_app; now apply begins_more |].
    split; [discriminate |].
    apply heard_outcome. cbn [app]. apply heard_cons; [exact Rl |].
    apply heard_cons; [exact Rm |].
    apply (heard_stop _ _ _ msg msg). exact Hh1. }
  rewrite (Hfull1 eq_refl) in *. clear Hfull1 Hb1 E1.
  set (sC := moved sB _ _).
  unfold bind at 1. unfold modify_context at 1.
  unfold bind at 1. unfold get_context at 1.
  unfold bind at 1. unfold perform at 1.
  unfold bind at 1. unfold get_action at 1.
  cbn [st_action st_context st_args st_trace ImageMntDir set_ImageMntDir].
  set (sD := mkState _ _ _ _).
  assert (EbD : map blank (Partitions (st_action sD))
                = map blank (Partitions (st_action s))) by exact Hbl.
  assert (HlinkedD : forall m, In m (Mountpoints (st_action sD)) ->
                               mount_partition (st_action sD) m <> None).
  { intros m Hm. pose proof (mount_partition_blank _ _ m EbD) as K.
    pose proof (Hlinked m Hm) as Hm'.
    destruct (mount_partition (st_action s) m); [| congruence].
    destruct K as (p' & -> & _). discriminate. }
  destruct (mounts_loop_result (Mountpoints (st_action s)) sD Hne HlinkedD
              eq_refl) as (e2 & ops2 & E2 & Hb2 & Hfull2 & Hh2).
  assert (Eplan : flat_map (mount_plan (st_action sD) (st_context sD))
                           (Mountpoints (st_action s)) = plan_m).
  { apply flat_map_ext. intros m.
    apply (mount_plan_blank _ _ _ _ m EbD); reflexivity. }
  rewrite Eplan in *. clear Eplan.
  change (Mountpoints (st_action sC)) with (Mountpoints (st_action s)).
  unfold or_return at 1. rewrite (bind_eq _ _ _ _ _ E2).
  assert (EtD : st_trace sD = st_trace s ++ [LogStart; mklabel] ++ plan_p
                              ++ [mkdir]).
  { unfold sD, sC, sB, moved. simpl. now rewrite <- !app_assoc. }
  assert (Hhost : forall e ops,
             heard (st_trace sD) plan_m e ops ->
             heard (st_trace s)
                   ([LogStart; mklabel] ++ plan_p ++ [mkdir] ++ plan_m) e
                   ([LogStart; mklabel] ++ plan_p ++ [mkdir] ++ ops)).
  { intros e ops Hh. cbn [app]. apply heard_cons; [exact Rl |].
    apply heard_cons; [exact Rm |].
    apply heard_go; [exact Hh1 |].
    cbn [app]. apply heard_cons; [reflexivity | exact Hh]. }
  destruct e2 as [msg |].
  { eexists (Some msg), _, ([LogStart; mklabel] ++ plan_p ++ [mkdir] ++ ops2).
    split; [reflexivity |].
    split; [rewrite st_trace_with_trace, EtD; now rewrite <- !app_assoc |].
    split; [apply begins_app; apply begins_app; apply begins_app; exact Hb2 |].
    split; [discriminate |].
    apply heard_outcome, Hhost, Hh2. }
  rewrite (Hfull2 eq_refl) in *. clear Hfull2 Hb2 E2.
  pose proof (Hhost None plan_m Hh2) as Hall.
  set (sE := with_trace sD _).
  assert (HlinkedE : forall m, In m (Mountpoints (st_action sE)) ->
                               mount_partition (st_action sE) m <> None)
    by exact HlinkedD.
  destruct (generateFSTab_returns sE HlinkedE)
    as (e3 & sF & E3 & A3 & _ & T3 & D3).
  unfold or_return at 1. rewrite (bind_eq _ _ _ _ _ E3).
  assert (EtE : st_trace sE = st_trace s ++ [LogStart; mklabel] ++ plan_p
                              ++ [mkdir] ++ plan_m).
  { unfold sE. rewrite st_trace_with_trace, EtD. now rewrite <- !app_assoc. }
  destruct e3 as [msg |].
  { eexists (Some msg), sF, _. split; [reflexivity |].
    split; [rewrite T3; exact EtE |].
    split; [apply begins_refl |].
    split; [discriminate | exact (heard_through _ _ _ Hall)]. }
  assert (HlinkedF : forall m, In m (Mountpoints (st_action sF)) ->
                               mount_partition (st_action sF) m <> None)
    by (rewrite A3; exact HlinkedE).
  destruct (generateKernelRoot_returns sF HlinkedF)
    as (e4 & sG & E4 & _ & _ & T4 & D4).
  unfold or_return at 1. rewrite (bind_eq _ _ _ _ _ E4).
  destruct e4 as [msg |].
  { eexists (Some msg), sG, _. split; [reflexivity |].
    split; [rewrite T4, T3; exact EtE |].
    split; [apply begins_refl |].
    split; [discriminate | exact (heard_through _ _ _ Hall)]. }
  eexists None, sG, _. split; [reflexivity |].
  split; [rewrite T4, T3; exact EtE |].
  split; [apply begins_refl |].
  split; [| exact (heard_through _ _ _ Hall)].
  intros _. split; [reflexivity |].
  rewrite D4, D3. reflexivity.
Qed.

End RunPlanTheorem.

(** X3.  From a state in which the image path is not empty and every
    mount is linked, on any host, [Run] returns: it does not panic.
    The host calls it has made are a beginning of its plan (LogStart,
    mklabel; for each partition in order mkpart, one set per flag, mkfs,
    blkid; the mount directory; for each mount in order its directory
    and its mount), and the whole plan when it returns nil.  [Run]
    stops at the first parted, blkid or mount call that the host
    answers with an error: such a call is the last call [Run] makes,
    and [Run] then returns an error; and when the host answered none
    of the parted, blkid and mount calls made with an error, [Run] has
    made the whole plan.  It never calls anything else: no unmount, no
    losetup. *)
Theorem Run_follows_its_plan `{Platform} (s : State) :
  ready s ->
  exists e s' ops,
    Run s = Returns e s' /\
    st_trace s' = st_trace s ++ ops /\
    begins ops (Run_plan (st_action s) (st_context s)) /\
    (e = None -> ops = Run_plan (st_action s) (st_context s)) /\
    (forall before op after,
       ops = before ++ op :: after ->
       refused (st_trace s ++ before) op = true ->
       after = [] /\ e <> None) /\
    ((forall before op after,
        ops = before ++ op :: after ->
        refused (st_trace s ++ before) op = false) ->
     ops = Run_plan (st_action s) (st_context s)).
Proof.
  intros Hready.
  destruct (Run_result s Hready)
    as (e & s' & ops & E & Et & Hb & Hfull & Hu & Ha).
  exists e, s', ops.
  split; [exact E |]. split; [exact Et |]. split; [exact Hb |].
  split; [intros He; exact (proj1 (Hfull He)) |].
  split.
  - intros before op after D R. rewrite Hu in D.
    destruct (until_refused_stops _ _ _ _ _ D R) as [-> A].
    split; [reflexivity | exact (Ha A)].
  - intros Hall. rewrite Hu. apply accepted_until.
    apply until_refused_whole. intros before op after D.
    apply (Hall before op after). now rewrite Hu.
Qed.

Lemma rpi3_on_loop0_ready : ready rpi3_on_loop0.
Proof.
  split; [discriminate |].
  intros m [<- | [<- | []]]; discriminate.
Qed.

(** The theorem of X3 on the documented layout attached to /dev/loop0,
    on the host where every mkfs fails. *)
Lemma Run_follows_its_plan_witness :
  exists e s' ops,
    @Run mkfs_failing_platform rpi3_on_loop0 = Returns e s' /\
    st_trace s' = st_trace rpi3_on_loop0 ++ ops /\
    begins ops (@Run_plan mkfs_failing_platform (st_action rpi3_on_loop0)
                  (st_context rpi3_on_loop0)).
Proof.
  destruct (@Run_follows_its_plan mkfs_failing_platform rpi3_on_loop0
              rpi3_on_loop0_ready) as (e & s' & ops & E & Et & Hb & _).
  exists e, s', ops. repeat split; assumption.
Defined.

(** ** Mounts and unmounts pair up *)

Lemma mounted_app a b : mounted (a ++ b) = mounted a ++ mounted b.
Proof. apply flat_map_app. Qed.

Lemma unmounted_app a b : unmounted (a ++ b) = unmounted a ++ unmounted b.
Proof. apply flat_map_app. Qed.

Lemma mounted_partition_plan i c p : mounted (partition_plan i c p) = [].
Proof.
  unfold partition_plan. cbn [mounted flat_map app].
  change (flat_map _ ?l) with (mounted l).
  rewrite mounted_app. simpl. rewrite app_nil_r.
  induction (p_Flags p) as [| flag flags IH]; [reflexivity | exact IH].
Qed.

Lemma unmounted_partition_plan i c p : unmounted (partition_plan i c p) = [].
Proof.
  unfold partition_plan. cbn [unmounted flat_map app].
  change (flat_map _ ?l) with (unmounted l).
  rewrite unmounted_app. simpl. rewrite app_nil_r.
  induction (p_Flags p) as [| flag flags IH]; [reflexivity | exact IH].
Qed.

Lemma mounted_Run_plan `{Platform} i c :
  (forall m, In m (Mountpoints i) -> mount_partition i m <> None) ->
  mounted (Run_plan i c) = map (mount_path c) (Mountpoints i) /\
  unmounted (Run_plan i c) = [].
Proof.
  intros Hlinked. unfold Run_plan.
  rewrite !mounted_app, !unmounted_app. simpl.
  assert (Ep : mounted (flat_map (partition_plan i c) (Partitions i)) = [] /\
               unmounted (flat_map (partition_plan i c) (Partitions i)) = []).
  { induction (Partitions i) as [| p ps IH]; [split; reflexivity |].
    cbn [flat_map].
    rewrite mounted_app, unmounted_app, mounted_partition_plan,
      unmounted_partition_plan. exact IH. }
  destruct Ep as (-> & ->). simpl.
  induction (Mountpoints i) as [| m ms IH]; [split; reflexivity |].
  simpl. rewrite mounted_app, unmounted_app.
  destruct (IH (fun m' Hm' => Hlinked m' (or_intror Hm'))) as (-> & ->).
  unfold mount_plan.
  destruct (mount_partition i m) eqn:Ep;
    [| exfalso; exact (Hlinked m (or_introl eq_refl) Ep)].
  split; reflexivity.
Qed.

(** X4.  When [Run] returns nil from a ready state, the mount calls it
    has made are, in declaration order, one per mount, at the mount's
    path under <scratch>/mnt, and it has made no unmount call; the
    [Cleanup] that follows (given the context [Run] left) returns nil
    having unmounted exactly those paths, in the reverse order, and
    having mounted nothing. *)
Theorem Cleanup_unmounts_what_Run_mounted `{Platform} (s s' : State) :
  ready s ->
  Run s = Returns None s' ->
  exists ops s'' ops',
    st_trace s' = st_trace s ++ ops /\
    mounted ops = map (mount_path (st_context s)) (Mountpoints (st_action s)) /\
    unmounted ops = [] /\
    Cleanup (st_context s') s' = Returns None s'' /\
    st_trace s'' = st_trace s' ++ ops' /\
    unmounted ops' = rev (mounted ops) /\
    mounted ops' = [].
Proof.
  intros Hready E.
  destruct (Run_result s Hready) as (e & s1 & ops & E1 & Et & _ & Hfull & _).
  rewrite E in E1. injection E1 as <- <-.
  destruct (Hfull eq_refl) as (-> & Hdir).
  destruct (mounted_Run_plan (st_action s) (st_context s) (proj2 Hready))
    as (Hm & Hu).
  pose proof (preserves_Returns _ _ _ _ _ Run_same_mountpoints E) as Ems.
  unfold same_mountpoints in Ems.
  eexists. exists (state_of (Cleanup (st_context s') s')). eexists.
  split; [exact Et |]. split; [exact Hm |]. split; [exact Hu |].
  rewrite Cleanup_result. split; [reflexivity |].
  split; [reflexivity |].
  rewrite mounted_app, unmounted_app, Hm, Ems.
  assert (Ku : unmounted (map (unmount_of (st_context s'))
                              (rev (Mountpoints (st_action s))))
               = rev (map (mount_path (st_context s))
                          (Mountpoints (st_action s))) /\
               mounted (map (unmount_of (st_context s'))
                            (rev (Mountpoints (st_action s)))) = []).
  { rewrite <- map_rev.
    induction (rev (Mountpoints (st_action s))) as [| m ms IH];
      [split; reflexivity |].
    simpl. destruct IH as (-> & ->). unfold mount_path. rewrite Hdir.
    split; reflexivity. }
  destruct Ku as (-> & ->).
  destruct (usingLoop (st_action s')); simpl; rewrite ?app_nil_r;
    split; reflexivity.
Qed.

(** The theorem of X4 on the documented layout attached to /dev/loop0,
    on a host where everything succeeds. *)
Lemma Cleanup_unmounts_what_Run_mounted_witness :
  exists ops s'' ops',
    st_trace (state_of (@Run willing_platform rpi3_on_loop0))
    = st_trace rpi3_on_loop0 ++ ops /\
    mounted ops = ["/scratch/mnt"; "/scratch/mnt/boot/firmware"]%string /\
    st_trace s'' =
    st_trace (state_of (@Run willing_platform rpi3_on_loop0)) ++ ops' /\
    unmounted ops' = ["/scratch/mnt/boot/firmware"; "/scratch/mnt"]%string.
Proof.
  assert (E : @Run willing_platform rpi3_on_loop0 =
              Returns None (state_of (@Run willing_platform rpi3_on_loop0)))
    by (vm_compute; reflexivity).
  destruct (@Cleanup_unmounts_what_Run_mounted willing_platform
              rpi3_on_loop0 _ rpi3_on_loop0_ready E)
    as (ops & s'' & ops' & Et & Hm & _ & _ & Et' & Hu & _).
  exists ops, s'', ops'. repeat split; try assumption.
  now rewrite Hu, Hm.
Defined.

(** ** What Run leaves alone *)

#[local] Instance same_recipe_invariant : Invariant same_recipe.
Proof.
  split; unfold same_recipe.
  - intros s. repeat split; reflexivity.
  - intros a b c Hab Hbc.
    destruct Hab as (A1 & A2 & A3 & A4 & A5 & A6 & A7 & A8 & A9 & A10 & A11).
    destruct Hbc as (B1 & B2 & B3 & B4 & B5 & B6 & B7 & B8 & B9 & B10 & B11).
    repeat split; congruence.
Qed.

#[local] Instance same_recipe_receiver : ReceiverSafe same_recipe.
Proof.
  intros s s' K.
  destruct K as (A1 & A2 & A3 & A4 & A5 & A6 & A7 & A8 & A9 & A10 & A11).
  unfold same_recipe. simpl. repeat split; assumption.
Qed.

Lemma map_blank_list_set (f : Partition -> Partition) ps :
  (forall p, blank (f p) = blank p) ->
  forall idx p,
    nth_error ps idx = Some p ->
    map blank (list_set idx (f p) ps) = map blank ps.
Proof.
  intros Hf. induction ps as [| q ps IH]; intros [| idx] p E; simpl in *;
    try discriminate.
  - injection E as ->. now rewrite Hf.
  - now rewrite (IH _ _ E).
Qed.

Lemma update_partition_same_recipe idx u :
  preserves same_recipe (update_partition idx (set_FSUUID u)).
Proof.
  intros s. unfold update_partition, partition_at, bind, get_action.
  destruct (nth_error (Partitions (st_action s)) idx) as [p |] eqn:E; simpl.
  - unfold same_recipe. simpl. repeat split.
    now apply (map_blank_list_set (set_FSUUID u)).
  - apply inv_refl.
Qed.

Ltac recipe_leaf :=
  idtac;
  match goal with
  | |- preserves same_recipe (update_partition _ (set_FSUUID _)) =>
      apply update_partition_same_recipe
  | |- preserves same_recipe (modify_context _) =>
      intros ?; repeat split; reflexivity
  | |- preserves same_recipe (perform _) =>
      intros ?; repeat split; reflexivity
  end.

Lemma generateKernelRoot_loop_same_recipe ms :
  preserves same_recipe (generateKernelRoot_loop ms).
Proof.
  induction ms as [| m ms IH]; simpl.
  - preserve recipe_leaf.
  - preserve recipe_leaf. exact IH.
Qed.

Lemma Run_same_recipe `{Platform} : preserves same_recipe Run.
Proof.
  unfold Run, Run_partition, Run_mount, formatPartition, generateFSTab,
    generateFSTab_entry, generateKernelRoot.
  preserve ltac:(first [ recipe_leaf
                       | apply generateKernelRoot_loop_same_recipe ]).
Qed.

(** X5.  From every state and on every host, however [Run] ends
    (nil, an error, a panic), it has changed nothing of the action but
    the UUIDs of partitions, and nothing of the context but the mount
    directory, the fstab and the kernel root parameter: the recipe
    fields, the partition numbers, the mounts and their links, [size],
    [usingLoop], the scratch and root directories, the image path and
    the launch arguments are as they were. *)
Theorem Run_changes_only_uuids_and_metadata `{Platform} (s : State) :
  let s' := state_of (Run s) in
  ImageName (st_action s') = ImageName (st_action s) /\
  ImageSize (st_action s') = ImageSize (st_action s) /\
  PartitionType (st_action s') = PartitionType (st_action s) /\
  map (set_FSUUID "") (Partitions (st_action s')) =
  map (set_FSUUID "") (Partitions (st_action s)) /\
  Mountpoints (st_action s') = Mountpoints (st_action s) /\
  size (st_action s') = size (st_action s) /\
  usingLoop (st_action s') = usingLoop (st_action s) /\
  Scratchdir (st_context s') = Scratchdir (st_context s) /\
  Rootdir (st_context s') = Rootdir (st_context s) /\
  Image (st_context s') = Image (st_context s) /\
  st_args s' = st_args s.
Proof. exact (Run_same_recipe s). Qed.

(** ** The fat32 alias, in a whole [Run] *)















(** ** Provisioning *)

Lemma leave_same s t c :
  leave (st_action s) (mkState (st_action s) c (st_args s) t)
  = mkState (st_action s) c (st_args s) t.
Proof. destruct s as [[] ? ? ?]. reflexivity. Qed.

Lemma PreNoMachine_result `{Platform} (s : State) :
  exists e s' ops,
    PreNoMachine s = Returns e s' /\
    st_action s' = st_action s /\ st_args s' = st_args s /\
    st_trace s' = st_trace s ++ ops /\
    begins ops (PreNoMachine_plan (st_action s)) /\
    (e = None ->
     ops = PreNoMachine_plan (st_action s) /\
     st_context s' =
     set_Image
       (strings_TrimSpace
          (r_out (host (st_trace s ++
                        [ OpenFile (ImageName (st_action s)) 65 438;
                          Truncate (ImageName (st_action s))
                                   (size (st_action s));
                          Close (ImageName (st_action s)) ])
                       (ExecOutput ["losetup"; "-f"; "--show";
                                    ImageName (st_action s)]))))
       (st_context s)) /\
    (e <> None -> st_context s' = st_context s) /\
    (r_err (host (st_trace s) (OpenFile (ImageName (st_action s)) 65 438))
     = None ->
     exists rest,
       ops = OpenFile (ImageName (st_action s)) 65 438
             :: Truncate (ImageName (st_action s)) (size (st_action s))
             :: rest).
Proof.
  destruct s as [[name isz pt ps ms sz loop] c a t].
  unfold PreNoMachine, value_receiver, bind, get_action, perform, ret,
    PreNoMachine_plan, leave, copy_back, modify_context, modify_action.
  set (op1 := OpenFile name 65 438). set (op2 := Truncate name sz).
  set (op3 := Close name).
  set (op4 := ExecOutput ["losetup"; "-f"; "--show"; name]).
  assert (Hb1 : begins [op1] [op1; op2; op3; op4])
    by (now exists [op2; op3; op4]).
  assert (Hb2 : begins [op1; op2] [op1; op2; op3; op4])
    by (now exists [op3; op4]).
  cbn [st_action st_context st_args st_trace ImageName ImageSize PartitionType
       Partitions Mountpoints size usingLoop set_usingLoop].
  fold op1 op2 op3 op4.
  destruct (r_err (host t op1)) as [e1 |] eqn:E1.
  { eexists. eexists. exists [op1]. split; [reflexivity |].
    repeat split;
      first [reflexivity | discriminate | exact Hb1 | idtac]. }
  cbn [st_action st_context st_args st_trace ImageName ImageSize PartitionType
       Partitions Mountpoints size usingLoop set_usingLoop].
  fold op1 op2 op3 op4.
  destruct (r_err (host (t ++ [op1]) op2)) as [e2 |].
  { eexists. eexists. exists [op1; op2]. split; [reflexivity |].
    repeat split;
      first [reflexivity | discriminate | exact Hb2
            | cbn [st_trace]; now rewrite <- !app_assoc
            | eexists; reflexivity ]. }
  cbn [st_action st_context st_args st_trace ImageName ImageSize PartitionType
       Partitions Mountpoints size usingLoop set_usingLoop].
  fold op1 op2 op3 op4.
  replace (((t ++ [op1]) ++ [op2]) ++ [op3]) with (t ++ [op1; op2; op3])
    by (now rewrite <- !app_assoc).
  destruct (r_err (host (t ++ [op1; op2; op3]) op4)) as [e4 |] eqn:E4.
  { eexists. eexists. exists [op1; op2; op3; op4]. split; [reflexivity |].
    repeat split;
      first [reflexivity | discriminate | apply begins_refl
            | cbn [st_trace]; now rewrite <- !app_assoc
            | eexists; reflexivity ]. }
  eexists. eexists. exists [op1; op2; op3; op4]. split; [reflexivity |].
  repeat split;
    first [reflexivity | congruence | apply begins_refl
          | cbn [st_trace]; now rewrite <- !app_assoc
          | eexists; reflexivity ].
Qed.

(** X6.  From every state and on every host [PreNoMachine] returns,
    and the action is as it was, [usingLoop] included.  Its host calls
    are a beginning of: open the image file, truncate it to [size],
    close it, attach it with losetup; it stops at the first of open,
    truncate and losetup that fails (so after a failed truncate the
    file is not closed).  When it returns nil all four calls were made
    and the image path in the context is the trimmed output of losetup;
    when it returns an error the context is as it was. *)
Theorem PreNoMachine_outcomes `{Platform} (s : State) :
  exists e s' ops,
    PreNoMachine s = Returns e s' /\
    st_action s' = st_action s /\ st_args s' = st_args s /\
    st_trace s' = st_trace s ++ ops /\
    begins ops (PreNoMachine_plan (st_action s)) /\
    (e = None ->
     ops = PreNoMachine_plan (st_action s) /\
     st_context s' =
     set_Image
       (strings_TrimSpace
          (r_out (host (st_trace s ++
                        [ OpenFile (ImageName (st_action s)) 65 438;
                          Truncate (ImageName (st_action s))
                                   (size (st_action s));
                          Close (ImageName (st_action s)) ])
                       (ExecOutput ["losetup"; "-f"; "--show";
                                    ImageName (st_action s)]))))
       (st_context s)) /\
    (e <> None -> st_context s' = st_context s).
Proof.
  destruct (PreNoMachine_result s)
    as (e & s' & ops & E & Ea & Eg & Et & Hb & Hnil & Herr & _).
  exists e, s', ops.
  exact (conj E (conj Ea (conj Eg (conj Et (conj Hb (conj Hnil Herr)))))).
Qed.

(** X7.  The size of the image is the size [Verify] parsed.  After
    [Verify] returns nil on a recipe as the decoder leaves it:
    [PreMachine] makes one host call, the request for an image of the
    recipe's name and of the parsed size; when that fails it returns
    the error and leaves context and launch arguments alone, and when
    it succeeds the returned path becomes the image path and
    --internal-image <path> is appended to the launch arguments.  And
    [PreNoMachine] returns, its host calls being a beginning of: open
    the image file of the recipe's name, truncate it to the parsed
    size, close it, attach it with losetup; once the host has opened
    the file the truncation to the parsed size is the next call, and
    when [PreNoMachine] returns nil it has made all four. *)
Theorem provisioning_uses_the_parsed_size `{Platform} (s s1 : State) :
  Forall unlinked (Mountpoints (st_action s)) ->
  Verify s = Returns None s1 ->
  exists sz,
    units_FromHumanSize (ImageSize (st_action s)) = Some sz /\
    (let name := ImageName (st_action s) in
     exists e s' ops,
       PreNoMachine s1 = Returns e s' /\
       st_trace s' = st_trace s ++ ops /\
       begins ops
         [ OpenFile name 65 438; Truncate name sz; Close name;
           ExecOutput ["losetup"; "-f"; "--show"; name] ] /\
       (r_err (host (st_trace s) (OpenFile name 65 438)) = None ->
        exists rest, ops = OpenFile name 65 438 :: Truncate name sz :: rest) /\
       (e = None ->
        ops = [ OpenFile name 65 438; Truncate name sz; Close name;
                ExecOutput ["losetup"; "-f"; "--show"; name] ])) /\
    let request := CreateImage (ImageName (st_action s)) sz in
    let r := host (st_trace s) request in
    PreMachine s1 =
    match r_err r with
    | Some e =>
        Returns (Some e)
          (mkState (st_action s1) (st_context s) (st_args s)
                   (st_trace s ++ [request]))
    | None =>
        Returns None
          (mkState (st_action s1) (set_Image (r_out r) (st_context s))
                   (st_args s ++ ["--internal-image"; r_out r])
                   (st_trace s ++ [request]))
    end.
Proof.
  intros Hfresh E.
  destruct (Verify_nil_state s s1 Hfresh E) as (_ & _ & sz & Esz & ->).
  exists sz. split; [exact Esz |]. split.
  - match goal with
    | |- context [PreNoMachine ?s0] =>
        destruct (PreNoMachine_result s0)
          as (e & s' & ops & Ep & _ & _ & Et & Hb & Hnil & _ & Hopen)
    end.
    exists e, s', ops. split; [exact Ep |]. split; [exact Et |].
    split; [exact Hb |]. split; [exact Hopen |].
    intros He. exact (proj1 (Hnil He)).
  - unfold PreMachine, value_receiver, bind, get_action, perform, ret.
    cbn [st_action st_context st_args st_trace ImageName size set_size
         set_Mountpoints set_Partitions].
    destruct (r_err (host (st_trace s)
                          (CreateImage (ImageName (st_action s)) sz)));
      reflexivity.
Qed.

(** The theorem of X7 on the documented layout, on the host where
    every operation succeeds: 1GB is a thousand million bytes, and
    [PreNoMachine] truncates the file to that size right after it
    opened it. *)
Lemma provisioning_uses_the_parsed_size_witness :
  exists e s' rest,
    @PreNoMachine willing_platform
      (state_of (@Verify willing_platform rpi3_state)) = Returns e s' /\
    st_trace s' =
    st_trace rpi3_state
    ++ OpenFile "debian-rpi3.img" 65 438
       :: Truncate "debian-rpi3.img" 1000000000 :: rest.
Proof.
  assert (Hfresh : Forall unlinked (Mountpoints (st_action rpi3_state)))
    by (repeat constructor).
  assert (E : @Verify willing_platform rpi3_state =
              Returns None (state_of (@Verify willing_platform rpi3_state)))
    by (vm_compute; reflexivity).
  destruct (@provisioning_uses_the_parsed_size willing_platform rpi3_state _
              Hfresh E) as (sz & Esz & (e & s' & ops & Ep & Et & _ & Hopen & _)
                            & _).
  destruct (Hopen eq_refl) as (rest & ->).
  simpl in Esz. injection Esz as <-.
  exists e, s', rest. split; [exact Ep | exact Et].
Defined.

(** ** Device paths tell partitions apart *)

Lemma itoa_injective a b : itoa a = itoa b -> a = b.
Proof.
  unfold itoa. intros E.
  assert (Hnil : forall z, Z.to_int z <> Decimal.Pos Decimal.Nil /\
                           Z.to_int z <> Decimal.Neg Decimal.Nil).
  { intros [| p | p]; simpl; split; try discriminate;
      intros E'; injection E' as E'; exact (Unsigned.to_uint_nonnil p E'). }
  apply (f_equal NilZero.int_of_string) in E.
  rewrite !NilZero.isi in E by apply Hnil.
  injection E as E. now apply DecimalZ.to_int_inj.
Qed.

Lemma string_append_cancel (a x y : string) :
  (a ++ x = a ++ y)%string -> x = y.
Proof.
  induction a as [| c a IH]; simpl; intros E; [exact E |].
  injection E as E. now apply IH.
Qed.

(** X8.  [getPartitionDevice] panics exactly on the empty image path;
    on any other image path, two partition numbers that get the same
    device path are the same number. *)
Theorem getPartitionDevice_separates_numbers (context : DebosContext) :
  (forall number,
     getPartitionDevice number context = None <->
     Image context = ""%string) /\
  (forall number number' dev,
     getPartitionDevice number context = Some dev ->
     getPartitionDevice number' context = Some dev ->
     number = number').
Proof.
  split.
  - intros number. split.
    + intros E. destruct (String.string_dec (Image context) "") as [E0 | N];
        [exact E0 |].
      destruct (getPartitionDevice_some number context N) as (dev & E').
      congruence.
    + intros E. unfold getPartitionDevice. now rewrite E.
  - intros number number' dev. unfold getPartitionDevice.
    destruct (last_byte (Image context)) as [c |]; [| discriminate].
    destruct (is_digit c); intros E E'; rewrite <- E' in E;
      injection E as E; apply string_append_cancel in E.
    + apply string_append_cancel in E. now apply itoa_injective.
    + now apply itoa_injective.
Qed.

(** ** The fstab when a UUID is missing *)

Lemma for_range_app {A : Type} (l1 l2 : list A) (body : A -> M error) s :
  for_range (l1 ++ l2) body s =
  or_return (for_range l1 body) (for_range l2 body) s.
Proof.
  revert s. induction l1 as [| x l1 IH]; intros s; simpl.
  - reflexivity.
  - unfold or_return, bind.
    destruct (body x s) as [[msg |] s1 | msg s1]; try reflexivity.
    rewrite IH. unfold or_return, bind.
    destruct (for_range l1 body s1) as [[msg |] s2 | msg s2]; reflexivity.
Qed.

(** X9.  When the mounts before [m] are on partitions with a UUID and
    [m] is on a partition [p] without one, [generateFSTab] returns the
    error that names [p]; the fstab in the context then holds the
    lines of the mounts before [m] and nothing else: not the lines of
    later mounts, and nothing of what it held before the call. *)
Theorem generateFSTab_stops_at_missing_uuid `{Platform} (s : State)
    (prior : string) pre m post p :
  Mountpoints (st_action s) = pre ++ m :: post ->
  (forall m', In m' pre -> has_uuid (st_action s) m') ->
  mount_partition (st_action s) m = Some p ->
  p_FSUUID p = ""%string ->
  generateFSTab (with_context s (set_ImageFSTab prior (st_context s))) =
  Returns (Some ("Missing fs UUID for partition " ++ p_Name p ++ "!?!")%string)
    (with_context s (set_ImageFSTab (lines (st_action s) pre) (st_context s))).
Proof.
  intros Ems Hpre Ep Hu. rewrite generateFSTab_unfold.
  cbn [with_context st_action]. rewrite Ems.
  unfold or_return at 1. unfold bind at 1. rewrite for_range_app.
  set (s0 := reset _).
  assert (Hpre' : forall m', In m' pre -> has_uuid (st_action s0) m')
    by exact Hpre.
  rewrite (or_return_eq _ _ _ _ (generateFSTab_loop_written pre s0 Hpre')).
  cbn [for_range].
  set (s1 := with_context s0 _).
  assert (Ep1 : mount_partition (st_action s1) m = Some p) by exact Ep.
  rewrite (or_return_fails _ _ _ _ _
             (generateFSTab_entry_missing m s1 p Ep1 Hu)).
  reflexivity.
Qed.

(** The theorem of X9 on the one-partition action that is not
    formatted: the error, and an empty fstab whatever it held. *)
Lemma generateFSTab_stops_at_missing_uuid_witness :
  generateFSTab
    (with_context unformatted_state
       (set_ImageFSTab "stale" (st_context unformatted_state))) =
  Returns (Some "Missing fs UUID for partition root!?!"%string)
    unformatted_state.
Proof.
  assert (Hpre : forall m', In m' [] -> has_uuid unformatted_action m')
    by (intros m' []).
  exact (@generateFSTab_stops_at_missing_uuid willing_platform
           unformatted_state "stale" []
           (mkMountpoint "/" "root" [] (Some 0%nat)) []
           (mkPartition 1 "root" "0%" "100%" "ext4" [] "")
           eq_refl Hpre eq_refl eq_refl).
Defined.

(** * Further properties: the policy helper, the apt action, the driver *)

(** ** The policy helper *)

(** X10.  [ServicePolicyHelper(DenyServices)] looks at
    /usr/sbin/policy-rc.d: when the host says the file does not exist
    it returns nil and does nothing else; in every other case (the
    file is there, or the look failed otherwise) it removes the file
    and returns what the removal returns.  A policy that is neither of
    the two returns an error and touches nothing. *)
Theorem ServicePolicyHelper_deny `{Sys.World} (t : list Sys.Call) :
  let p := OS.debianPolicyHelper in
  let stat := Sys.reply t (Sys.os_Stat p) in
  let removed := Sys.reply (t ++ [Sys.os_Stat p]) (Sys.os_Remove p) in
  OS.ServicePolicyHelper OS.DenyServices t =
  (if Sys.IsNotExist (Sys.err stat)
   then (None, t ++ [Sys.os_Stat p])
   else (Sys.as_error (Sys.err removed),
         t ++ [Sys.os_Stat p; Sys.os_Remove p])) /\
  (forall policy,
     policy <> OS.DenyServices -> policy <> OS.AllowServices ->
     OS.ServicePolicyHelper policy t =
     (Some "Services policy type is not supported"%string, t)).
Proof.
  split.
  - unfold OS.ServicePolicyHelper, Sys.bind, Sys.call, Sys.ret. simpl.
    destruct (Sys.IsNotExist _); [reflexivity |].
    rewrite <- app_assoc. simpl.
    destruct (Sys.err (Sys.reply (t ++ [_]) _)); reflexivity.
  - intros policy N0 N1. unfold OS.ServicePolicyHelper.
    apply Z.eqb_neq in N0, N1. now rewrite N0, N1.
Qed.

(** X11.  [ServicePolicyHelper(AllowServices)] returns the "exists
    already" error only when the look at /usr/sbin/policy-rc.d fails
    with an error that [os.IsExist] accepts; when the look succeeds
    (the file is there) it goes on and creates the file anew.  When
    the creation fails it returns that error.  When the creation
    succeeds it writes the helper (a script that exits with 101), sets
    mode 0755 unless the write failed, and closes the file last, once,
    whether or not the write or the chmod failed; it returns the error
    of the write, else that of the chmod, else nil. *)
Theorem ServicePolicyHelper_allow `{Sys.World} (t : list Sys.Call) :
  let p := OS.debianPolicyHelper in
  let stat := Sys.reply t (Sys.os_Stat p) in
  let created := Sys.reply (t ++ [Sys.os_Stat p]) (Sys.os_Create p) in
  let written :=
    Sys.reply (t ++ [Sys.os_Stat p; Sys.os_Create p])
              (Sys.File_Write p OS.helper) in
  let moded :=
    Sys.reply (t ++ [Sys.os_Stat p; Sys.os_Create p;
                     Sys.File_Write p OS.helper])
              (Sys.File_Chmod p 493) in
  exists e ops,
    OS.ServicePolicyHelper OS.AllowServices t = (e, t ++ ops) /\
    (Sys.IsExist (Sys.err stat) = true ->
     ops = [Sys.os_Stat p] /\
     e = Some "Policy helper file '/usr/sbin/policy-rc.d' exists already"%string)
    /\
    (Sys.IsExist (Sys.err stat) = false ->
     Sys.err created <> None ->
     ops = [Sys.os_Stat p; Sys.os_Create p] /\
     e = Sys.as_error (Sys.err created)) /\
    (Sys.IsExist (Sys.err stat) = false ->
     Sys.err created = None ->
     ops = [Sys.os_Stat p; Sys.os_Create p; Sys.File_Write p OS.helper]
           ++ match Sys.err written with
              | Some _ => []
              | None => [Sys.File_Chmod p 493]
              end
           ++ [Sys.File_Close p] /\
     e = match Sys.err written with
         | Some f => Some (Sys.text f)
         | None => Sys.as_error (Sys.err moded)
         end).
Proof.
  unfold OS.ServicePolicyHelper, Sys.bind, Sys.call, Sys.ret. simpl.
  destruct (Sys.IsExist _) eqn:Ex.
  { eexists. exists [Sys.os_Stat OS.debianPolicyHelper].
    split; [reflexivity |]. repeat split; try discriminate. }
  rewrite <- !app_assoc. simpl.
  destruct (Sys.err (Sys.reply (t ++ [_]) (Sys.os_Create _))) as [f |] eqn:Ec.
  { eexists. exists [Sys.os_Stat OS.debianPolicyHelper;
                     Sys.os_Create OS.debianPolicyHelper].
    split; [reflexivity |].
    repeat split; try discriminate; congruence. }
  destruct (Sys.err (Sys.reply (t ++ [_; _]) (Sys.File_Write _ _)))
    as [f |] eqn:Ew.
  { eexists. eexists. split; [| split; [discriminate |];
                                 split; [congruence |]; intros _ _;
                                 split; reflexivity].
    rewrite <- !app_assoc. reflexivity. }
  exists (Sys.as_error
            (Sys.err
               (Sys.reply
                  (t ++ [Sys.os_Stat OS.debianPolicyHelper;
                         Sys.os_Create OS.debianPolicyHelper;
                         Sys.File_Write OS.debianPolicyHelper OS.helper])
                  (Sys.File_Chmod OS.debianPolicyHelper 493)))).
  exists [Sys.os_Stat OS.debianPolicyHelper;
          Sys.os_Create OS.debianPolicyHelper;
          Sys.File_Write OS.debianPolicyHelper OS.helper;
          Sys.File_Chmod OS.debianPolicyHelper 493;
          Sys.File_Close OS.debianPolicyHelper].
  split; [| split; [discriminate |];
            split; [congruence |]; intros _ _;
            split; reflexivity].
  rewrite <- !app_assoc. simpl.
  destruct (Sys.err (Sys.reply _ (Sys.File_Chmod _ _)));
    rewrite <- ?app_assoc; reflexivity.
Qed.

(** ** The apt action *)

Lemma ServicePolicyHelper_calls `{Sys.World} (policy : Z) (t : list Sys.Call) :
  exists e ops,
    OS.ServicePolicyHelper policy t = (e, t ++ ops) /\
    filter is_chroot ops = [].
Proof.
  unfold OS.ServicePolicyHelper, Sys.bind, Sys.call, Sys.ret.
  repeat match goal with
         | |- context [if ?b then _ else _] => destruct b
         | |- context [match ?o with Some _ => _ | None => _ end] => destruct o
         end;
    rewrite <- ?app_assoc; simpl;
    try (do 2 eexists; split; [reflexivity | reflexivity]).
  exists (Some "Services policy type is not supported"), [].
  now rewrite app_nil_r.
Qed.

(** The three commands from any history: they are a beginning of the
    plan, the whole of it when the result is nil, and an error is the
    error of the last command run. *)
Lemma apt_commands_result `{Sys.World} (apt : Apt.AptAction)
    (rootdir architecture : string) (t : list Sys.Call) :
  exists e cmds,
    Apt.or_return (Apt.c_Run rootdir architecture "apt" ["apt-get"; "update"])
      (Apt.or_return
         (Apt.c_Run rootdir architecture "apt"
            (((if negb (Apt.Recommends apt)
               then ["apt-get"; "-y"] ++ ["--no-install-recommends"]
               else ["apt-get"; "-y"]) ++ ["install"]) ++ Apt.Packages apt))
         (Apt.or_return
            (Apt.c_Run rootdir architecture "apt" ["apt-get"; "clean"])
            (Sys.ret None))) t = (e, t ++ cmds) /\
    begins cmds (apt_plan apt rootdir architecture) /\
    forallb is_chroot cmds = true /\
    (e = None -> cmds = apt_plan apt rootdir architecture) /\
    (forall msg, e = Some msg ->
       exists before c,
         cmds = before ++ [c] /\
         Sys.as_error (Sys.err (Sys.reply (t ++ before) c)) = Some msg).
Proof.
  assert (Eopt :
    ((if negb (Apt.Recommends apt)
      then ["apt-get"; "-y"] ++ ["--no-install-recommends"]
      else ["apt-get"; "-y"]) ++ ["install"]) ++ Apt.Packages apt =
    ["apt-get"; "-y"]
    ++ (if Apt.Recommends apt then [] else ["--no-install-recommends"])
    ++ ["install"] ++ Apt.Packages apt)
    by (destruct (Apt.Recommends apt); reflexivity).
  rewrite Eopt. clear Eopt.
  unfold apt_plan.
  set (run := Sys.Chroot_Run rootdir architecture
                ["DEBIAN_FRONTEND=noninteractive"] "apt").
  set (c1 := run ["apt-get"; "update"]).
  set (c2 := run (_ ++ _)).
  set (c3 := run ["apt-get"; "clean"]).
  unfold Apt.or_return, Apt.c_Run, Sys.bind, Sys.call, Sys.ret.
  fold run. fold c1. fold c2. fold c3.
  destruct (Sys.as_error (Sys.err (Sys.reply t c1))) as [m1 |] eqn:E1.
  { exists (Some m1), [c1]. split; [reflexivity |].
    split; [now exists [c2; c3] |]. split; [reflexivity |].
    split; [discriminate |]. intros msg [= <-].
    exists [], c1. now rewrite app_nil_r. }
  destruct (Sys.as_error (Sys.err (Sys.reply (t ++ [c1]) c2)))
    as [m2 |] eqn:E2.
  { exists (Some m2), [c1; c2]. split; [now rewrite <- app_assoc |].
    split; [now exists [c3] |]. split; [reflexivity |].
    split; [discriminate |]. intros msg [= <-].
    now exists [c1], c2. }
  destruct (Sys.as_error (Sys.err (Sys.reply ((t ++ [c1]) ++ [c2]) c3)))
    as [m3 |] eqn:E3.
  { exists (Some m3), [c1; c2; c3]. split; [now rewrite <- !app_assoc |].
    split; [now exists [] |]. split; [reflexivity |].
    split; [discriminate |]. intros msg [= <-].
    exists [c1; c2], c3. split; [reflexivity |].
    now rewrite <- app_assoc in E3. }
  exists None, [c1; c2; c3]. split; [now rewrite <- !app_assoc |].
  split; [now exists [] |]. split; [reflexivity |].
  split; [reflexivity | discriminate].
Qed.

(** [Run] in full: the log line, what the first helper call does, the
    commands, what the second helper call does. *)
Lemma apt_Run_result `{Sys.World} (apt : Apt.AptAction)
    (context : DebosContext) (architecture : string) (t : list Sys.Call) :
  exists e deny cmds allow,
    Apt.Run apt context architecture t =
    (e, t ++ [Sys.LogStart] ++ deny ++ cmds ++ allow) /\
    begins cmds (apt_plan apt (Rootdir context) architecture) /\
    forallb is_chroot cmds = true /\
    filter is_chroot deny = [] /\
    filter is_chroot allow = [] /\
    (e = None -> cmds = apt_plan apt (Rootdir context) architecture) /\
    (forall msg, e = Some msg ->
       exists before c,
         cmds = before ++ [c] /\
         Sys.as_error
           (Sys.err (Sys.reply (t ++ [Sys.LogStart] ++ deny ++ before) c)) =
         Some msg) /\
    (if Apt.AllowServices apt then deny = [] /\ allow = []
     else
       snd (OS.ServicePolicyHelper OS.DenyServices (t ++ [Sys.LogStart])) =
       t ++ [Sys.LogStart] ++ deny /\
       snd (OS.ServicePolicyHelper OS.AllowServices
              (t ++ [Sys.LogStart] ++ deny ++ cmds)) =
       t ++ [Sys.LogStart] ++ deny ++ cmds ++ allow).
Proof.
  unfold Apt.Run.
  unfold Sys.bind at 1. unfold Sys.call at 1.
  unfold Sys.bind at 1.
  destruct (Apt.AllowServices apt); cbn [negb].
  - unfold Sys.ret at 1. unfold Sys.bind at 1.
    destruct (apt_commands_result apt (Rootdir context) architecture
                (t ++ [Sys.LogStart]))
      as (e & cmds & E & B & F & W & L).
    cbn zeta. rewrite E. unfold Sys.bind, Sys.ret.
    exists e, [], cmds, []. rewrite app_nil_r. cbn [app].
    split; [now rewrite <- app_assoc |].
    repeat split; auto.
    intros msg Em. destruct (L msg Em) as (before & c & -> & R).
    exists before, c. split; [reflexivity |].
    now rewrite <- app_assoc in R.
  - unfold Sys.bind at 1.
    destruct (ServicePolicyHelper_calls OS.DenyServices (t ++ [Sys.LogStart]))
      as (e1 & deny & E1 & F1).
    rewrite E1. unfold Sys.ret at 1. unfold Sys.bind at 1.
    destruct (apt_commands_result apt (Rootdir context) architecture
                ((t ++ [Sys.LogStart]) ++ deny))
      as (e & cmds & E & B & F & W & L).
    cbn zeta. rewrite E. unfold Sys.bind at 1. unfold Sys.bind at 1.
    destruct (ServicePolicyHelper_calls OS.AllowServices
                (((t ++ [Sys.LogStart]) ++ deny) ++ cmds))
      as (e2 & allow & E2 & F2).
    rewrite E2. unfold Sys.bind, Sys.ret.
    exists e, deny, cmds, allow.
    split; [now rewrite <- !app_assoc |].
    repeat split; auto.
    + intros msg Em. destruct (L msg Em) as (before & c & -> & R).
      exists before, c. split; [reflexivity |].
      now rewrite <- !app_assoc in R.
    + cbn [snd]. now rewrite <- app_assoc.
    + rewrite <- !app_assoc in E2. cbn [app] in E2 |- *. now rewrite E2.
Qed.

Lemma filter_chroot_all (l : list Sys.Call) :
  forallb is_chroot l = true -> filter is_chroot l = l.
Proof.
  induction l as [| c l IH]; [reflexivity |].
  cbn [forallb filter]. intros A. apply andb_prop in A as [A1 A2].
  rewrite A1. f_equal. auto.
Qed.

(** X12.  The commands an apt action runs in the target root are a
    beginning of: apt-get update; apt-get -y install with the packages
    of the recipe, with --no-install-recommends before install unless
    recommends is set; apt-get clean; all three in the root directory
    and for the architecture of the context, with
    DEBIAN_FRONTEND=noninteractive.  When [Run] returns nil all three
    were run.  When it returns an error, that is the error of the last
    command it ran: nothing is run after a command that failed. *)
Theorem apt_Run_commands `{Sys.World} (apt : Apt.AptAction)
    (context : DebosContext) (architecture : string) (t : list Sys.Call) :
  exists e ops,
    Apt.Run apt context architecture t = (e, t ++ ops) /\
    begins (filter is_chroot ops)
           (apt_plan apt (Rootdir context) architecture) /\
    (e = None ->
     filter is_chroot ops = apt_plan apt (Rootdir context) architecture) /\
    (forall msg, e = Some msg ->
       exists before c after,
         ops = before ++ c :: after /\
         is_chroot c = true /\
         filter is_chroot after = [] /\
         Sys.as_error (Sys.err (Sys.reply (t ++ before) c)) = Some msg).
Proof.
  destruct (apt_Run_result apt context architecture t)
    as (e & deny & cmds & allow & E & B & F & Fd & Fa & W & L & _).
  exists e, ([Sys.LogStart] ++ deny ++ cmds ++ allow).
  assert (Ef : filter is_chroot ([Sys.LogStart] ++ deny ++ cmds ++ allow)
               = cmds).
  { rewrite !filter_app, Fd, Fa, app_nil_r. cbn.
    now apply filter_chroot_all. }
  rewrite Ef. repeat split; auto.
  intros msg Em. destruct (L msg Em) as (before & c & -> & R).
  exists ([Sys.LogStart] ++ deny ++ before), c, allow.
  split; [now rewrite <- !app_assoc |].
  split; [| now split].
  rewrite forallb_app in F. apply andb_prop in F as [_ F].
  cbn in F. now rewrite andb_true_r in F.
Qed.

(** X13.  An apt action with allow-services set touches no file: after
    the log line it only runs its commands.  Without allow-services,
    [ServicePolicyHelper(DenyServices)] runs right after the log line
    and before any command, and [ServicePolicyHelper(AllowServices)]
    runs after the last command, on every path, also when a command
    failed; neither helper call runs a command in the target root. *)
Theorem apt_Run_policy_bracket `{Sys.World} (apt : Apt.AptAction)
    (context : DebosContext) (architecture : string) (t : list Sys.Call) :
  exists e deny cmds allow,
    Apt.Run apt context architecture t =
    (e, t ++ [Sys.LogStart] ++ deny ++ cmds ++ allow) /\
    forallb is_chroot cmds = true /\
    filter is_chroot deny = [] /\
    filter is_chroot allow = [] /\
    (if Apt.AllowServices apt then deny = [] /\ allow = []
     else
       snd (OS.ServicePolicyHelper OS.DenyServices (t ++ [Sys.LogStart])) =
       t ++ [Sys.LogStart] ++ deny /\
       snd (OS.ServicePolicyHelper OS.AllowServices
              (t ++ [Sys.LogStart] ++ deny ++ cmds)) =
       t ++ [Sys.LogStart] ++ deny ++ cmds ++ allow).
Proof.
  destruct (apt_Run_result apt context architecture t)
    as (e & deny & cmds & allow & E & B & F & Fd & Fa & W & L & P).
  exists e, deny, cmds, allow. repeat split; auto.
Qed.

(** ** The driver *)

Lemma phase_calls_app (a b : list Sys.Call) :
  phase_calls (a ++ b) = phase_calls a ++ phase_calls b.
Proof. apply flat_map_app. Qed.

Lemma phase_calls_cons_nil (c : Sys.Call) (l : list Sys.Call) :
  phase_calls (c :: l) = [] -> phase_calls [c] = [] /\ phase_calls l = [].
Proof.
  change (c :: l) with ([c] ++ l). rewrite phase_calls_app.
  apply app_eq_nil.
Qed.

Lemma phase_split (pre ops before : list Sys.Call) (p : Sys.Phase)
    (idx : nat) (after : list Sys.Call) :
  phase_calls pre = [] ->
  pre ++ ops = before ++ Sys.Action_phase p idx :: after ->
  exists before',
    before = pre ++ before' /\
    ops = before' ++ Sys.Action_phase p idx :: after.
Proof.
  revert before. induction pre as [| c pre IH]; intros before Q E.
  - now exists before.
  - apply phase_calls_cons_nil in Q as [Qc Q].
    destruct before as [| b before]; cbn [app] in E.
    + injection E as -> _. discriminate Qc.
    + injection E as <- E. destruct (IH before Q E) as (b' & -> & E').
      now exists b'.
Qed.

(** *** Computations that call no phase *)

Lemma returns_eq `{Sys.World} (deferred : list Sys.Call) (z : Z)
    (t : list Sys.Call) :
  Cmd.returns deferred z t = (z, t ++ deferred).
Proof.
  revert t. induction deferred as [| c d IH]; intros t; cbn [Cmd.returns].
  - unfold Sys.ret. now rewrite app_nil_r.
  - unfold Sys.bind, Sys.call. rewrite IH. now rewrite <- app_assoc.
Qed.

Lemma quiet_call `{Sys.World} (c : Sys.Call) :
  phase_calls [c] = [] -> quiet (Sys.call c).
Proof. intros Q t. now exists (Sys.reply t c), [c]. Qed.

(** What [prepareBuildImage] does, case by case. *)
Lemma prepareBuildImage_result `{Sys.World} (path : string) (sz : Z)
    (t : list Sys.Call) :
  let tmp := Sys.out (Sys.reply (t ++ [Sys.os_Stat path])
                        (Sys.ioutil_TempFile path ".debos-build-")) in
  let plan := prepareBuildImage_plan path sz tmp in
  exists name e n,
    Cmd.prepareBuildImage path sz t = ((name, e), t ++ firstn n plan) /\
    (1 <= n <= 6)%nat /\
    (n = 6%nat <-> e = None) /\
    ((n = 1%nat -> name = "") /\
     (n = 2%nat ->
      name = "" /\
      Sys.err (Sys.reply (t ++ [Sys.os_Stat path])
                 (Sys.ioutil_TempFile path ".debos-build-")) <> None) /\
     ((2 < n)%nat ->
      name = tmp /\
      Sys.err (Sys.reply (t ++ [Sys.os_Stat path])
                 (Sys.ioutil_TempFile path ".debos-build-")) = None)).
Proof.
  intros tmp plan. unfold Cmd.prepareBuildImage, Sys.bind, Sys.call, Sys.ret.
  destruct (Sys.err (Sys.reply t (Sys.os_Stat path))) eqn:E1.
  { exists "", (Some (Sys.text f)), 1%nat. split; [reflexivity |].
    repeat split; try lia; try discriminate. }
  destruct (Sys.is_dir (Sys.reply t (Sys.os_Stat path))); cbn [negb].
  2:{ eexists "", _, 1%nat. split; [reflexivity |].
      repeat split; try lia; try discriminate. }
  destruct (Sys.err (Sys.reply (t ++ [Sys.os_Stat path])
                       (Sys.ioutil_TempFile path ".debos-build-"))) eqn:E2.
  { exists "", (Some (Sys.text f)), 2%nat.
    split; [now rewrite <- app_assoc |].
    repeat split; try lia; try discriminate. }
  fold tmp.
  destruct (Sys.err (Sys.reply ((t ++ [_]) ++ [_]) (Sys.File_Truncate _ _)))
    eqn:E3.
  { exists tmp, (Some (Sys.text f)), 3%nat.
    split; [now rewrite <- !app_assoc |].
    repeat split; try lia; try discriminate. }
  destruct (Sys.err (Sys.reply (((t ++ [_]) ++ [_]) ++ [_])
                       (Sys.Command_Run _ _))) eqn:E4.
  { exists tmp, (Some (Sys.text f)), 4%nat.
    split; [now rewrite <- !app_assoc |].
    repeat split; try lia; try discriminate. }
  exists tmp, None, 6%nat. split; [now rewrite <- !app_assoc |].
  repeat split; try lia; try discriminate.
Qed.

Lemma phase_calls_firstn_plan (n : nat) (path : string) (sz : Z)
    (tmp : string) :
  phase_calls (firstn n (prepareBuildImage_plan path sz tmp)) = [].
Proof. do 7 (destruct n as [| n]; [reflexivity |]). reflexivity. Qed.

Lemma quiet_prepareBuildImage `{Sys.World} (path : string) (sz : Z) :
  quiet (Cmd.prepareBuildImage path sz).
Proof.
  intros t. destruct (prepareBuildImage_result path sz t)
    as (name & e & n & E & _).
  exists (name, e). eexists. split; [exact E |].
  apply phase_calls_firstn_plan.
Qed.

(** X14.  [prepareBuildImage] makes a beginning of these calls: look
    at the location; create a temporary file .debos-build-* in it;
    truncate the file to the size asked for; run mkfs.ext4 -q -L
    /scratch on it with -O ^has_journal; add it to the sandbox as an
    image; add the fstab entry of LABEL=/scratch.  It returns nil
    exactly when it made all of them, whatever the sandbox answers to
    the last two.  The name it returns is that of the temporary file
    from the moment the file was created, also when a later step
    failed, and the empty string before. *)
Theorem prepareBuildImage_names_what_it_created `{Sys.World}
    (path : string) (sz : Z) (t : list Sys.Call) :
  let created := Sys.reply (t ++ [Sys.os_Stat path])
                   (Sys.ioutil_TempFile path ".debos-build-") in
  let plan := prepareBuildImage_plan path sz (Sys.out created) in
  exists name e ops,
    Cmd.prepareBuildImage path sz t = ((name, e), t ++ ops) /\
    begins ops plan /\
    (e = None <-> ops = plan) /\
    name =
    (if existsb is_TempFile ops
     then match Sys.err created with
          | None => Sys.out created
          | Some _ => ""
          end
     else "").
Proof.
  intros created plan.
  destruct (prepareBuildImage_result path sz t)
    as (name & e & n & E & [N1 N6] & S & C1 & C2 & C3).
  exists name, e, (firstn n plan). split; [exact E |].
  split; [exists (skipn n plan); symmetry; apply firstn_skipn |].
  fold created in C2, C3.
  assert (D : (n = 1 \/ n = 2 \/ n = 3 \/ n = 4 \/ n = 5 \/ n = 6)%nat) by lia.
  assert (W : e = None <-> firstn n plan = plan).
  { destruct S as [S1 S2]. split.
    - intros Ee. now rewrite (S2 Ee).
    - intros Ef. apply S1.
      apply (f_equal (@List.length _)) in Ef. rewrite List.length_firstn in Ef.
      cbn [plan prepareBuildImage_plan List.length] in Ef. lia. }
  split; [exact W |].
  destruct D as [-> | [-> | D]].
  - now destruct C1.
  - destruct C2 as [-> C2]; [reflexivity |].
    cbn [firstn plan prepareBuildImage_plan existsb is_TempFile orb].
    destruct (Sys.err created); [reflexivity | contradiction].
  - destruct C3 as [-> C3]; [lia |]. rewrite C3.
    destruct D as [-> | [-> | [-> | ->]]]; reflexivity.
Qed.

(** *** Properties kept along the driver *)

Lemma every_phase_nothing (P : list Sys.Call -> Sys.Call -> Prop)
    (t ops : list Sys.Call) :
  phase_calls ops = [] -> every_phase P t ops.
Proof.
  intros Q before p idx after ->. rewrite phase_calls_app in Q.
  apply app_eq_nil in Q as [_ Q]. discriminate Q.
Qed.

Lemma every_phase_quiet (P : list Sys.Call -> Sys.Call -> Prop)
    (t pre ops : list Sys.Call) :
  phase_calls pre = [] ->
  every_phase P (t ++ pre) ops -> every_phase P t (pre ++ ops).
Proof.
  intros Q N before p idx after E.
  destruct (phase_split _ _ _ _ _ _ Q E) as (b' & -> & E').
  rewrite app_assoc. now apply (N b' p idx after).
Qed.

Lemma every_phase_after (P : list Sys.Call -> Sys.Call -> Prop)
    (t pre ops : list Sys.Call) :
  every_phase P t (pre ++ ops) -> every_phase P (t ++ pre) ops.
Proof.
  intros N before p idx after ->. rewrite <- app_assoc.
  apply (N (pre ++ before) p idx after). now rewrite <- app_assoc.
Qed.

Lemma every_phase_first (P : list Sys.Call -> Sys.Call -> Prop)
    (t : list Sys.Call) (p : Sys.Phase) (idx : nat) (ops : list Sys.Call) :
  every_phase P t (Sys.Action_phase p idx :: ops) ->
  P t (Sys.Action_phase p idx) /\
  every_phase P (t ++ [Sys.Action_phase p idx]) ops.
Proof.
  intros N. split.
  - specialize (N [] p idx ops eq_refl). now rewrite app_nil_r in N.
  - now apply (every_phase_after P t [Sys.Action_phase p idx]).
Qed.

Lemma npf_first `{Sys.World} (t : list Sys.Call) (p : Sys.Phase) (idx : nat)
    (ops : list Sys.Call) :
  no_phase_failed t (Sys.Action_phase p idx :: ops) ->
  ~ returned_error t (Sys.Action_phase p idx) /\
  no_phase_failed (t ++ [Sys.Action_phase p idx]) ops.
Proof. apply every_phase_first. Qed.

Lemma npf_after `{Sys.World} (t pre ops : list Sys.Call) :
  no_phase_failed t (pre ++ ops) -> no_phase_failed (t ++ pre) ops.
Proof. apply every_phase_after. Qed.

Lemma npp_first `{Sys.World} (t : list Sys.Call) (p : Sys.Phase) (idx : nat)
    (ops : list Sys.Call) :
  no_phase_panicked t (Sys.Action_phase p idx :: ops) ->
  ~ panicked t (Sys.Action_phase p idx) /\
  no_phase_panicked (t ++ [Sys.Action_phase p idx]) ops.
Proof. apply every_phase_first. Qed.

Lemma npp_after `{Sys.World} (t pre ops : list Sys.Call) :
  no_phase_panicked t (pre ++ ops) -> no_phase_panicked (t ++ pre) ops.
Proof. apply every_phase_after. Qed.

Lemma satisfies_each `{Sys.World}
    (Q : list (Sys.Phase * nat) -> list Sys.Call -> Z -> list Sys.Call -> Prop)
    (deferred : list Sys.Call) (exitcode : Z) :
  (forall plan t ph i,
     returned_error t (Sys.Action_phase ph i) ->
     Q ((ph, i) :: plan) t 1%Z
       [Sys.Action_phase ph i; Sys.debos_DebugShell]) ->
  (forall plan t ph i,
     panicked t (Sys.Action_phase ph i) ->
     Q ((ph, i) :: plan) t exitcode (Sys.Action_phase ph i :: deferred)) ->
  (forall plan t ph i code ops,
     ~ returned_error t (Sys.Action_phase ph i) ->
     ~ panicked t (Sys.Action_phase ph i) ->
     Q plan (t ++ [Sys.Action_phase ph i]) code ops ->
     Q ((ph, i) :: plan) t code (Sys.Action_phase ph i :: ops)) ->
  forall ph idxs plan rest,
    satisfies (Q plan) rest ->
    satisfies (Q (map (pair ph) idxs ++ plan))
              (Cmd.each_action ph idxs deferred exitcode rest).
Proof.
  intros Hf Hp Hs ph idxs plan rest Hr.
  induction idxs as [| i idxs IH]; [exact Hr |].
  intros t. cbn [Cmd.each_action map app].
  unfold Sys.bind at 1. unfold Sys.call at 1.
  destruct (Sys.panics (Sys.reply t (Sys.Action_phase ph i))) eqn:P.
  { exists exitcode, (Sys.Action_phase ph i :: deferred). split.
    - rewrite returns_eq. now rewrite <- app_assoc.
    - now apply Hp. }
  destruct (Sys.err (Sys.reply t (Sys.Action_phase ph i))) eqn:E.
  - exists 1%Z, [Sys.Action_phase ph i; Sys.debos_DebugShell].
    split.
    + cbn [Cmd.bailOnError]. unfold Sys.bind, Sys.call, Sys.ret.
      now rewrite <- app_assoc.
    + apply Hf. split; [exact P | congruence].
  - destruct (IH (t ++ [Sys.Action_phase ph i])) as (code & ops & Ec & HQ).
    exists code, (Sys.Action_phase ph i :: ops). split.
    + cbn [Cmd.bailOnError]. rewrite Ec. now rewrite <- app_assoc.
    + apply Hs; [intros [_ F]; contradiction
                | unfold panicked; congruence
                | exact HQ].
Qed.

Lemma satisfies_quiet_bind {A : Type}
    (Q : list Sys.Call -> Z -> list Sys.Call -> Prop)
    (m : Sys.IO A) (k : A -> Sys.IO Z) :
  (forall t pre code ops,
     phase_calls pre = [] -> Q (t ++ pre) code ops -> Q t code (pre ++ ops)) ->
  quiet m -> (forall a, satisfies Q (k a)) -> satisfies Q (Sys.bind m k).
Proof.
  intros Hq Hm Hk t. destruct (Hm t) as (a & pre & Em & Hp).
  destruct (Hk a (t ++ pre)) as (code & ops & Ek & HQ).
  exists code, (pre ++ ops). split.
  - unfold Sys.bind. rewrite Em, Ek. now rewrite app_assoc.
  - now apply Hq.
Qed.

Lemma satisfies_returns `{Sys.World}
    (Q : list Sys.Call -> Z -> list Sys.Call -> Prop)
    (deferred : list Sys.Call) (z : Z) :
  (forall t pre code ops,
     phase_calls pre = [] -> Q (t ++ pre) code ops -> Q t code (pre ++ ops)) ->
  phase_calls deferred = [] ->
  (forall t, Q t z []) ->
  satisfies Q (Cmd.returns deferred z).
Proof.
  intros Hq Hd Hb t. exists z, deferred. split; [apply returns_eq |].
  rewrite <- (app_nil_r deferred). now apply Hq.
Qed.

(** **** A failed phase is the end, and so is one that panics *)

Lemma no_phase_in (l before : list Sys.Call) (p : Sys.Phase) (idx : nat)
    (after : list Sys.Call) :
  phase_calls l = [] -> l = before ++ Sys.Action_phase p idx :: after -> False.
Proof.
  intros Q ->. rewrite phase_calls_app in Q.
  apply app_eq_nil in Q as [_ Q]. discriminate Q.
Qed.

Lemma stops_fail `{Sys.World} (t : list Sys.Call) (ph : Sys.Phase) (i : nat) :
  returned_error t (Sys.Action_phase ph i) ->
  stops_short t 1 [Sys.Action_phase ph i; Sys.debos_DebugShell].
Proof.
  intros [P F] before p idx after D.
  destruct before as [| b before]; cbn [app] in D.
  - injection D as <- <- <-. rewrite app_nil_r. split; [now split |].
    unfold panicked. congruence.
  - injection D as _ D. exfalso.
    now apply (no_phase_in [Sys.debos_DebugShell] before p idx after).
Qed.

Lemma stops_panic `{Sys.World} (deferred : list Sys.Call) (exitcode : Z)
    (t : list Sys.Call) (ph : Sys.Phase) (i : nat) :
  phase_calls deferred = [] ->
  panicked t (Sys.Action_phase ph i) ->
  stops_short t exitcode (Sys.Action_phase ph i :: deferred).
Proof.
  intros Q P before p idx after D.
  destruct before as [| b before]; cbn [app] in D.
  - injection D as <- <- <-. rewrite app_nil_r. split; [| now intros _].
    intros [N _]. unfold panicked in P. congruence.
  - injection D as _ D. exfalso.
    now apply (no_phase_in deferred before p idx after).
Qed.

Lemma stops_step `{Sys.World} (t : list Sys.Call) (ph : Sys.Phase) (i : nat)
    (code : Z) (ops : list Sys.Call) :
  ~ returned_error t (Sys.Action_phase ph i) ->
  ~ panicked t (Sys.Action_phase ph i) ->
  stops_short (t ++ [Sys.Action_phase ph i]) code ops ->
  stops_short t code (Sys.Action_phase ph i :: ops).
Proof.
  intros F P S before p idx after D.
  destruct before as [| b before]; cbn [app] in D.
  - injection D as <- <- _. rewrite app_nil_r. split; intros; contradiction.
  - injection D as <- D. specialize (S before p idx after D).
    now rewrite <- app_assoc in S.
Qed.

Lemma stops_quiet `{Sys.World} (t pre : list Sys.Call) (code : Z)
    (ops : list Sys.Call) :
  phase_calls pre = [] ->
  stops_short (t ++ pre) code ops ->
  stops_short t code (pre ++ ops).
Proof.
  intros Q S before p idx after D.
  destruct (phase_split _ _ _ _ _ _ Q D) as (b' & -> & D').
  specialize (S b' p idx after D'). now rewrite <- app_assoc in S.
Qed.

Lemma stops_nothing `{Sys.World} (t : list Sys.Call) (code : Z) :
  stops_short t code [].
Proof. intros before p idx after D. now destruct before. Qed.

Lemma stops_each `{Sys.World} (ph : Sys.Phase) (idxs : list nat)
    (deferred : list Sys.Call) (exitcode : Z) (rest : Sys.IO Z) :
  phase_calls deferred = [] ->
  satisfies stops_short rest ->
  satisfies stops_short (Cmd.each_action ph idxs deferred exitcode rest).
Proof.
  intros Q.
  apply (satisfies_each (fun _ => stops_short) deferred exitcode
           (fun _ => stops_fail)
           (fun _ t p i => stops_panic deferred exitcode t p i Q)
           (fun _ => stops_step) ph idxs []).
Qed.

Lemma stops_returns `{Sys.World} (deferred : list Sys.Call) (z : Z) :
  phase_calls deferred = [] ->
  satisfies stops_short (Cmd.returns deferred z).
Proof.
  intros Q. apply satisfies_returns; auto using stops_quiet.
  intros t. apply stops_nothing.
Qed.

(** The part of [main] around the sandbox, with what has been deferred
    so far. *)
Lemma sandbox_stops `{Sys.World} (all : list nat) (deferred : list Sys.Call) :
  phase_calls deferred = [] ->
  satisfies stops_short
    (Cmd.each_action Sys.PreMachine all deferred 0
       (Sys.bind (Sys.call Sys.Machine_RunInMachineWithArgs)
          (fun r =>
             match Sys.err r with
             | Some _ => Cmd.returns deferred (Sys.code r)
             | None =>
                 if negb (Sys.code r =? 0)%Z
                 then Cmd.returns deferred (Sys.code r)
                 else Cmd.each_action Sys.PostMachine all deferred (Sys.code r)
                        (Cmd.returns deferred (Sys.code r))
             end))).
Proof.
  intros Q. apply stops_each; [exact Q |].
  apply satisfies_quiet_bind;
    [apply stops_quiet | now apply quiet_call |].
  intros r. destruct (Sys.err r); [now apply stops_returns |].
  destruct (negb _); [now apply stops_returns |].
  apply stops_each; [exact Q |]. now apply stops_returns.
Qed.

Lemma main_stops `{Sys.World}
    (units_FromHumanSize : string -> option Z)
    (filepath_Abs : string -> option string)
    (actions : nat) (inMachine supported : bool)
    (scratchdir BuildStorageLocation BuildStorageSize : string) :
  satisfies stops_short
    (Cmd.main units_FromHumanSize filepath_Abs actions inMachine supported
       scratchdir BuildStorageLocation BuildStorageSize).
Proof.
  unfold Cmd.main. cbv zeta.
  assert (Qd : phase_calls
                 (if inMachine || supported then []
                  else [Sys.os_RemoveAll scratchdir]) = [])
    by (destruct (_ || _); reflexivity).
  apply stops_each; [exact Qd |].
  destruct (negb inMachine && supported).
  - destruct (negb (_ =? _)%nat); [| now apply sandbox_stops].
    destruct (units_FromHumanSize _); [| now apply stops_returns].
    destruct (filepath_Abs _); [| now apply stops_returns].
    apply satisfies_quiet_bind;
      [apply stops_quiet | apply quiet_prepareBuildImage |].
    intros [buildImage e].
    assert (Q : phase_calls
                  (if negb (String.length buildImage =? 0)%nat
                   then Sys.os_Remove buildImage
                        :: (if inMachine || supported then []
                            else [Sys.os_RemoveAll scratchdir])
                   else if inMachine || supported then []
                        else [Sys.os_RemoveAll scratchdir]) = [])
      by (destruct (negb _), (_ || _); reflexivity).
    destruct e; [now apply stops_returns | now apply sandbox_stops].
  - destruct (negb inMachine);
      repeat (apply stops_each; [exact Qd |]); now apply stops_returns.
Qed.

(** X15.  When a phase of an action returns an error, [main] calls
    [debos.DebugShell] and then exits with status 1, having made no
    other call: no later action or phase is run, and no deferred
    removal either, neither of the scratch directory nor of the build
    image. *)
Theorem main_stops_at_failed_phase `{Sys.World}
    (units_FromHumanSize : string -> option Z)
    (filepath_Abs : string -> option string)
    (actions : nat) (inMachine supported : bool)
    (scratchdir BuildStorageLocation BuildStorageSize : string)
    (t : list Sys.Call) :
  exists code ops,
    Cmd.main units_FromHumanSize filepath_Abs actions inMachine supported
      scratchdir BuildStorageLocation BuildStorageSize t = (code, t ++ ops) /\
    forall before p idx after,
      ops = before ++ Sys.Action_phase p idx :: after ->
      returned_error (t ++ before) (Sys.Action_phase p idx) ->
      after = [Sys.debos_DebugShell] /\ code = 1%Z.
Proof.
  destruct (main_stops units_FromHumanSize filepath_Abs actions inMachine
              supported scratchdir BuildStorageLocation BuildStorageSize t)
    as (code & ops & E & S).
  exists code, ops. split; [exact E |].
  intros before p idx after D. now apply (S before p idx after D).
Qed.

(** **** The order of the phases *)

Lemma begins_cons {A : Type} (x : A) (l plan : list A) :
  begins l plan -> begins (x :: l) (x :: plan).
Proof. intros [rest ->]. now exists rest. Qed.

Lemma follows_nothing (plan : list (Sys.Phase * nat)) (t : list Sys.Call)
    (code : Z) (ops : list Sys.Call) :
  phase_calls ops = [] -> follows plan t code ops.
Proof. unfold follows. intros ->. apply begins_nil. Qed.

Lemma follows_quiet (plan : list (Sys.Phase * nat)) (t pre : list Sys.Call)
    (code : Z) (ops : list Sys.Call) :
  phase_calls pre = [] ->
  follows plan (t ++ pre) code ops -> follows plan t code (pre ++ ops).
Proof. unfold follows. intros Q. now rewrite phase_calls_app, Q. Qed.

Lemma phase_calls_first (p : Sys.Phase) (i : nat) (l : list Sys.Call) :
  phase_calls l = [] -> phase_calls (Sys.Action_phase p i :: l) = [(p, i)].
Proof.
  intros Q. change (Sys.Action_phase p i :: l)
    with ([Sys.Action_phase p i] ++ l).
  now rewrite phase_calls_app, Q.
Qed.

Lemma follows_each `{Sys.World} (ph : Sys.Phase) (idxs : list nat)
    (deferred : list Sys.Call) (exitcode : Z)
    (plan : list (Sys.Phase * nat)) (rest : Sys.IO Z) :
  phase_calls deferred = [] ->
  satisfies (follows plan) rest ->
  satisfies (follows (map (pair ph) idxs ++ plan))
            (Cmd.each_action ph idxs deferred exitcode rest).
Proof.
  intros Q. apply (satisfies_each follows).
  - intros pl t p i _. unfold follows. cbn. apply begins_cons, begins_nil.
  - intros pl t p i _. unfold follows. rewrite (phase_calls_first p i _ Q).
    apply begins_cons, begins_nil.
  - intros pl t p i code ops _ _. unfold follows.
    change (phase_calls (Sys.Action_phase p i :: ops))
      with ((p, i) :: phase_calls ops).
    apply begins_cons.
Qed.

Lemma follows_returns `{Sys.World} (plan : list (Sys.Phase * nat))
    (deferred : list Sys.Call) (z : Z) :
  phase_calls deferred = [] ->
  satisfies (follows plan) (Cmd.returns deferred z).
Proof.
  intros Q t. exists z, deferred. split; [apply returns_eq |].
  now apply follows_nothing.
Qed.

Lemma completes_quiet `{Sys.World} (z : Z) (plan : list (Sys.Phase * nat))
    (t pre : list Sys.Call) (code : Z) (ops : list Sys.Call) :
  phase_calls pre = [] ->
  completes z plan (t ++ pre) code ops -> completes z plan t code (pre ++ ops).
Proof.
  unfold completes. intros Q [B C]. rewrite phase_calls_app, Q.
  split; [exact B |]. intros N. apply npf_after in N.
  destruct (C N) as [Ec W]. split; [exact Ec |].
  intros P. now apply W, npp_after.
Qed.

Lemma completes_each `{Sys.World} (z : Z) (ph : Sys.Phase) (idxs : list nat)
    (deferred : list Sys.Call)
    (plan : list (Sys.Phase * nat)) (rest : Sys.IO Z) :
  phase_calls deferred = [] ->
  satisfies (completes z plan) rest ->
  satisfies (completes z (map (pair ph) idxs ++ plan))
            (Cmd.each_action ph idxs deferred z rest).
Proof.
  intros Q. apply (satisfies_each (completes z)).
  - intros pl t p i F. split; [cbn; apply begins_cons, begins_nil |].
    intros N. apply npf_first in N as [N _]. contradiction.
  - intros pl t p i P. unfold completes.
    rewrite (phase_calls_first p i _ Q).
    split; [apply begins_cons, begins_nil |].
    intros _. split; [reflexivity |].
    intros N. apply npp_first in N as [N _]. contradiction.
  - intros pl t p i code ops _ _ [B C]. unfold completes.
    change (phase_calls (Sys.Action_phase p i :: ops))
      with ((p, i) :: phase_calls ops).
    split; [now apply begins_cons |].
    intros N. apply npf_first in N as [_ N].
    destruct (C N) as [-> W]. split; [reflexivity |].
    intros P. apply npp_first in P as [_ P]. now rewrite (W P).
Qed.

Lemma completes_returns `{Sys.World} (deferred : list Sys.Call) (z : Z) :
  phase_calls deferred = [] ->
  satisfies (completes z []) (Cmd.returns deferred z).
Proof.
  intros Q. apply satisfies_returns; auto using completes_quiet.
  intros t. split; [apply begins_nil | now split].
Qed.

Lemma sandbox_follows `{Sys.World} (all : list nat)
    (deferred : list Sys.Call) :
  phase_calls deferred = [] ->
  satisfies
    (follows (map (pair Sys.PreMachine) all
              ++ map (pair Sys.PostMachine) all ++ []))
    (Cmd.each_action Sys.PreMachine all deferred 0
       (Sys.bind (Sys.call Sys.Machine_RunInMachineWithArgs)
          (fun r =>
             match Sys.err r with
             | Some _ => Cmd.returns deferred (Sys.code r)
             | None =>
                 if negb (Sys.code r =? 0)%Z
                 then Cmd.returns deferred (Sys.code r)
                 else Cmd.each_action Sys.PostMachine all deferred (Sys.code r)
                        (Cmd.returns deferred (Sys.code r))
             end))).
Proof.
  intros Q. apply follows_each; [exact Q |].
  apply satisfies_quiet_bind;
    [apply follows_quiet | now apply quiet_call |].
  intros r. destruct (Sys.err r); [now apply follows_returns |].
  destruct (negb _); [now apply follows_returns |].
  apply follows_each; [exact Q |]. now apply follows_returns.
Qed.

Lemma main_follows_around_sandbox `{Sys.World}
    (units_FromHumanSize : string -> option Z)
    (filepath_Abs : string -> option string)
    (actions : nat)
    (scratchdir BuildStorageLocation BuildStorageSize : string) :
  satisfies (follows (schedule (phases_of false true) actions))
    (Cmd.main units_FromHumanSize filepath_Abs actions false true
       scratchdir BuildStorageLocation BuildStorageSize).
Proof.
  unfold Cmd.main, schedule, phases_of. cbv zeta.
  cbn [negb andb orb flat_map]. apply follows_each; [reflexivity |].
  destruct (negb (_ =? _)%nat); [| now apply sandbox_follows].
  destruct (units_FromHumanSize _); [| now apply follows_returns].
  destruct (filepath_Abs _); [| now apply follows_returns].
  apply satisfies_quiet_bind;
    [apply follows_quiet | apply quiet_prepareBuildImage |].
  intros [buildImage e].
  assert (Q : phase_calls
                (if negb (String.length buildImage =? 0)%nat
                 then [Sys.os_Remove buildImage] else []) = [])
    by (destruct (negb _); reflexivity).
  destruct e; [now apply follows_returns | now apply sandbox_follows].
Qed.

Lemma main_completes_without_sandbox `{Sys.World}
    (units_FromHumanSize : string -> option Z)
    (filepath_Abs : string -> option string)
    (actions : nat) (inMachine supported : bool)
    (scratchdir BuildStorageLocation BuildStorageSize : string) :
  negb inMachine && supported = false ->
  satisfies (completes 0 (schedule (phases_of inMachine supported) actions))
    (Cmd.main units_FromHumanSize filepath_Abs actions inMachine supported
       scratchdir BuildStorageLocation BuildStorageSize).
Proof.
  intros P. unfold Cmd.main, schedule, phases_of. cbv zeta. rewrite P.
  destruct inMachine; [| destruct supported; [discriminate |]];
    cbn [negb andb orb flat_map];
    repeat (apply completes_each; [reflexivity |]);
    now apply completes_returns.
Qed.

(** X16.  [main] runs the recipe phase by phase: every action's
    [Verify] before any other phase, and within a phase the actions in
    the order of the recipe.  Inside the sandbox the phases are
    [Verify], [Run], [Cleanup]; around it [Verify], [PreMachine],
    [PostMachine], and no [Run]; without one [Verify], [PreNoMachine],
    [Run], [Cleanup], [PostMachine].  The calls made are always a
    beginning of that schedule, and a phase that panics is the last
    phase called.  On the two paths that start no sandbox the exit code
    is 0 exactly when no phase returned an error, so also when a phase
    panicked: the deferred [os.Exit(exitcode)] of [main] ends the
    panic with the status so far.  The whole schedule was run when no
    phase returned an error and none panicked. *)
Theorem main_runs_phase_by_phase `{Sys.World}
    (units_FromHumanSize : string -> option Z)
    (filepath_Abs : string -> option string)
    (actions : nat) (inMachine supported : bool)
    (scratchdir BuildStorageLocation BuildStorageSize : string)
    (t : list Sys.Call) :
  let plan := schedule (phases_of inMachine supported) actions in
  exists code ops,
    Cmd.main units_FromHumanSize filepath_Abs actions inMachine supported
      scratchdir BuildStorageLocation BuildStorageSize t = (code, t ++ ops) /\
    begins (phase_calls ops) plan /\
    (forall before p idx after,
       ops = before ++ Sys.Action_phase p idx :: after ->
       panicked (t ++ before) (Sys.Action_phase p idx) ->
       phase_calls after = []) /\
    (negb inMachine && supported = false ->
     (code = 0%Z <-> no_phase_failed t ops) /\
     (no_phase_failed t ops -> no_phase_panicked t ops ->
      phase_calls ops = plan)).
Proof.
  intros plan.
  destruct (main_stops units_FromHumanSize filepath_Abs
              actions inMachine supported scratchdir BuildStorageLocation
              BuildStorageSize t) as (code & ops & E & S).
  exists code, ops. split; [exact E |].
  assert (Hp : forall before p idx after,
             ops = before ++ Sys.Action_phase p idx :: after ->
             panicked (t ++ before) (Sys.Action_phase p idx) ->
             phase_calls after = [])
    by (intros before p idx after D; now apply (S before p idx after D)).
  destruct (negb inMachine && supported) eqn:P.
  - destruct inMachine; [discriminate |]. destruct supported; [| discriminate].
    destruct (main_follows_around_sandbox units_FromHumanSize filepath_Abs
                actions scratchdir BuildStorageLocation BuildStorageSize t)
      as (code' & ops' & E' & F).
    rewrite E in E'. injection E' as _ E'. apply app_inv_head in E' as <-.
    split; [exact F |]. split; [exact Hp | discriminate].
  - destruct (main_completes_without_sandbox units_FromHumanSize filepath_Abs
                actions inMachine supported scratchdir BuildStorageLocation
                BuildStorageSize P t) as (code' & ops' & E' & B & C).
    rewrite E in E'. injection E' as <- E'. apply app_inv_head in E' as <-.
    split; [exact B |]. split; [exact Hp |].
    intros _. split; [split |].
    + intros Ec before p idx after D F.
      destruct (S before p idx after D) as [S1 _].
      destruct (S1 F) as [_ S2]. lia.
    + intros N. now apply C.
    + intros N. now apply C.
Qed.

(** **** What is deferred, and the sandbox *)

Lemma split_at (f : Sys.Call -> bool) (pre ops before : list Sys.Call)
    (c : Sys.Call) (after : list Sys.Call) :
  existsb f pre = false -> f c = true ->
  pre ++ ops = before ++ c :: after ->
  exists before', before = pre ++ before' /\ ops = before' ++ c :: after.
Proof.
  revert before. induction pre as [| x pre IH]; intros before Fp Fc E.
  - now exists before.
  - cbn [existsb] in Fp. apply orb_false_elim in Fp as [Fx Fp].
    destruct before as [| b before]; cbn [app] in E.
    + injection E as -> _. congruence.
    + injection E as <- E. destruct (IH before Fp Fc E) as (b' & -> & E').
      now exists b'.
Qed.

Lemma no_split (f : Sys.Call -> bool) (ops before : list Sys.Call)
    (c : Sys.Call) (after : list Sys.Call) :
  existsb f ops = false -> f c = true -> ops = before ++ c :: after -> False.
Proof.
  intros F Fc ->. rewrite existsb_app in F. cbn [existsb] in F.
  rewrite Fc, orb_true_r in F. discriminate.
Qed.

Lemma satisfies_after {A : Type} (P : list Sys.Call -> Prop)
    (Q : list Sys.Call -> Z -> list Sys.Call -> Prop)
    (m : Sys.IO A) (k : A -> Sys.IO Z) :
  (forall t pre code ops,
     P pre -> Q (t ++ pre) code ops -> Q t code (pre ++ ops)) ->
  (forall t, exists a pre, m t = (a, t ++ pre) /\ P pre) ->
  (forall a, satisfies Q (k a)) -> satisfies Q (Sys.bind m k).
Proof.
  intros Hq Hm Hk t. destruct (Hm t) as (a & pre & Em & Hp).
  destruct (Hk a (t ++ pre)) as (code & ops & Ek & HQ).
  exists code, (pre ++ ops). split.
  - unfold Sys.bind. rewrite Em, Ek. now rewrite app_assoc.
  - now apply Hq.
Qed.

Lemma satisfies_weaken
    (Q Q' : list Sys.Call -> Z -> list Sys.Call -> Prop) (c : Sys.IO Z) :
  (forall t code ops, Q t code ops -> Q' t code ops) ->
  satisfies Q c -> satisfies Q' c.
Proof.
  intros W S t. destruct (S t) as (code & ops & E & HQ).
  exists code, ops. auto.
Qed.

Lemma ends_with_each `{Sys.World} (f : Sys.Call -> bool)
    (deferred : list Sys.Call) (z : Z) (ph : Sys.Phase) (idxs : list nat)
    (rest : Sys.IO Z) :
  (forall p i, f (Sys.Action_phase p i) = false) ->
  f Sys.debos_DebugShell = false ->
  existsb f deferred = false ->
  satisfies (ends_with f deferred z) rest ->
  satisfies (ends_with f deferred z) (Cmd.each_action ph idxs deferred z rest).
Proof.
  intros Ff Fs Fd.
  apply (satisfies_each (fun _ => ends_with f deferred z)) with (plan := []).
  - intros _ t p i F. split; [cbn; now rewrite Ff, Fs |].
    intros N. apply npf_first in N as [N _]. contradiction.
  - intros _ t p i P. split; [cbn [existsb]; now rewrite Ff, Fd |].
    intros _. split; [reflexivity |]. now exists [Sys.Action_phase p i].
  - intros _ t p i code ops _ _ [F C]. split; [cbn; now rewrite Ff |].
    intros N. apply npf_first in N as [_ N].
    destruct (C N) as [-> [front ->]]. split; [reflexivity |].
    now exists (Sys.Action_phase p i :: front).
Qed.

Lemma ends_with_returns `{Sys.World} (f : Sys.Call -> bool)
    (deferred : list Sys.Call) (z : Z) :
  existsb f deferred = false ->
  satisfies (ends_with f deferred z) (Cmd.returns deferred z).
Proof.
  intros F t. exists z, deferred. split; [apply returns_eq |].
  split; [exact F |]. intros _. split; [reflexivity | now exists []].
Qed.

Lemma ends_with_after `{Sys.World} (f : Sys.Call -> bool)
    (deferred : list Sys.Call) (z : Z) (t pre : list Sys.Call) (code : Z)
    (ops : list Sys.Call) :
  existsb f pre = false ->
  ends_with f deferred z (t ++ pre) code ops ->
  ends_with f deferred z t code (pre ++ ops).
Proof.
  intros Fp [F C]. split; [now rewrite existsb_app, Fp, F |].
  intros N. apply npf_after in N. destruct (C N) as [-> [front ->]].
  split; [reflexivity |]. exists (pre ++ front). now rewrite app_assoc.
Qed.

(** ***** The exit code of the sandbox *)

Lemma decides_nothing `{Sys.World} (t : list Sys.Call) (code : Z)
    (ops : list Sys.Call) :
  existsb is_sandbox ops = false -> sandbox_decides t code ops.
Proof.
  intros F before after D. exfalso.
  exact (no_split is_sandbox ops before Sys.Machine_RunInMachineWithArgs
           after F eq_refl D).
Qed.

Lemma decides_after `{Sys.World} (t pre : list Sys.Call) (code : Z)
    (ops : list Sys.Call) :
  existsb is_sandbox pre = false ->
  sandbox_decides (t ++ pre) code ops ->
  sandbox_decides t code (pre ++ ops).
Proof.
  intros Fp S before after D.
  destruct (split_at is_sandbox pre ops before
              Sys.Machine_RunInMachineWithArgs after Fp eq_refl D)
    as (b' & -> & D').
  specialize (S b' after D'). cbv zeta in S |- *.
  rewrite <- app_assoc in S. destruct S as [S1 S2].
  split; [exact S1 |]. intros N. now apply S2, npf_after.
Qed.

Lemma decides_each `{Sys.World} (ph : Sys.Phase) (idxs : list nat)
    (deferred : list Sys.Call) (exitcode : Z) (rest : Sys.IO Z) :
  existsb is_sandbox deferred = false ->
  satisfies sandbox_decides rest ->
  satisfies sandbox_decides (Cmd.each_action ph idxs deferred exitcode rest).
Proof.
  intros Fd.
  apply (satisfies_each (fun _ => sandbox_decides)) with (plan := []).
  - intros _ t p i _. now apply decides_nothing.
  - intros _ t p i _. now apply decides_nothing.
  - intros _ t p i code ops _ _ S.
    now apply (decides_after t [Sys.Action_phase p i]).
Qed.

Lemma sandbox_decides_itself `{Sys.World} (all : list nat)
    (deferred : list Sys.Call) :
  phase_calls deferred = [] ->
  existsb is_sandbox deferred = false ->
  satisfies sandbox_decides
    (Cmd.each_action Sys.PreMachine all deferred 0
       (Sys.bind (Sys.call Sys.Machine_RunInMachineWithArgs)
          (fun r =>
             match Sys.err r with
             | Some _ => Cmd.returns deferred (Sys.code r)
             | None =>
                 if negb (Sys.code r =? 0)%Z
                 then Cmd.returns deferred (Sys.code r)
                 else Cmd.each_action Sys.PostMachine all deferred (Sys.code r)
                        (Cmd.returns deferred (Sys.code r))
             end))).
Proof.
  intros Q F. apply decides_each; [exact F |]. intros t.
  unfold Sys.bind at 1. unfold Sys.call.
  set (r := Sys.reply t Sys.Machine_RunInMachineWithArgs).
  set (t' := t ++ [Sys.Machine_RunInMachineWithArgs]).
  assert (K : exists code ops',
             match Sys.err r with
             | Some _ => Cmd.returns deferred (Sys.code r)
             | None =>
                 if negb (Sys.code r =? 0)%Z
                 then Cmd.returns deferred (Sys.code r)
                 else Cmd.each_action Sys.PostMachine all deferred (Sys.code r)
                        (Cmd.returns deferred (Sys.code r))
             end t' = (code, t' ++ ops') /\
             existsb is_sandbox ops' = false /\
             (phase_calls ops' <> [] ->
              Sys.err r = None /\ Sys.code r = 0%Z) /\
             (no_phase_failed t' ops' -> code = Sys.code r)).
  { destruct (Sys.err r) eqn:Er.
    { exists (Sys.code r), deferred. rewrite returns_eq.
      repeat split; auto; contradiction. }
    destruct (Sys.code r =? 0)%Z eqn:Ec; cbn [negb].
    2:{ exists (Sys.code r), deferred. rewrite returns_eq.
        repeat split; auto; contradiction. }
    destruct (ends_with_each is_sandbox deferred (Sys.code r)
                Sys.PostMachine all _ (fun _ _ => eq_refl) eq_refl F
                (ends_with_returns is_sandbox deferred (Sys.code r) F) t')
      as (code & ops' & E & F' & C).
    exists code, ops'. split; [exact E |]. split; [exact F' |].
    split; [intros _; split; [reflexivity | now apply Z.eqb_eq] |].
    intros N. now apply C. }
  destruct K as (code & ops' & E & F' & P & C).
  exists code, (Sys.Machine_RunInMachineWithArgs :: ops'). split.
  - rewrite E. unfold t'. now rewrite <- app_assoc.
  - intros before after D. cbv zeta.
    destruct before as [| b before]; cbn [app] in D.
    + injection D as <-. rewrite app_nil_r. fold r.
      split; [exact P |]. intros N. apply C.
      now apply (npf_after t [Sys.Machine_RunInMachineWithArgs]).
    + injection D as _ D. exfalso.
      exact (no_split is_sandbox ops' before Sys.Machine_RunInMachineWithArgs
               after F' eq_refl D).
Qed.

Lemma main_decides `{Sys.World}
    (units_FromHumanSize : string -> option Z)
    (filepath_Abs : string -> option string)
    (actions : nat) (inMachine supported : bool)
    (scratchdir BuildStorageLocation BuildStorageSize : string) :
  satisfies sandbox_decides
    (Cmd.main units_FromHumanSize filepath_Abs actions inMachine supported
       scratchdir BuildStorageLocation BuildStorageSize).
Proof.
  unfold Cmd.main. cbv zeta.
  assert (Qd : phase_calls
                 (if inMachine || supported then []
                  else [Sys.os_RemoveAll scratchdir]) = [])
    by (destruct (_ || _); reflexivity).
  assert (Fd : existsb is_sandbox
                 (if inMachine || supported then []
                  else [Sys.os_RemoveAll scratchdir]) = false)
    by (destruct (_ || _); reflexivity).
  apply decides_each; [exact Fd |].
  assert (D : forall z deferred,
             existsb is_sandbox deferred = false ->
             satisfies sandbox_decides (Cmd.returns deferred z)).
  { intros z deferred F.
    apply (satisfies_weaken (ends_with is_sandbox deferred z));
      [| now apply ends_with_returns].
    intros t code ops [F' _]. now apply decides_nothing. }
  destruct (negb inMachine && supported).
  - destruct (negb (_ =? _)%nat); [| now apply sandbox_decides_itself].
    destruct (units_FromHumanSize _); [| now apply D].
    destruct (filepath_Abs _); [| now apply D].
    apply (satisfies_after (fun pre => existsb is_sandbox pre = false));
      [apply decides_after | |].
    { intros t. destruct (prepareBuildImage_result s z t)
        as (name & e & n & E & _).
      exists (name, e). eexists. split; [exact E |].
      do 7 (destruct n as [| n]; [reflexivity |]). reflexivity. }
    intros [buildImage e].
    destruct (negb (String.length buildImage =? 0)%nat);
      (destruct e; [apply D | apply sandbox_decides_itself]);
      cbn; now rewrite ?Qd, ?Fd.
  - apply (satisfies_weaken
             (ends_with is_sandbox
                (if inMachine || supported then []
                 else [Sys.os_RemoveAll scratchdir]) 0));
      [intros t code ops [F' _]; now apply decides_nothing |].
    destruct (negb inMachine);
      repeat (apply ends_with_each; [reflexivity | reflexivity | exact Fd |]);
      now apply ends_with_returns.
Qed.

(** X17.  Wherever [main] starts the sandbox: a phase of an action is
    called after it (that is [PostMachine]) only when the sandbox came
    back without an error and with exit code 0; and unless a phase of
    an action failed, the exit code of [main] is the exit code the
    sandbox came back with, also when it came back with an error. *)
Theorem main_exits_with_the_sandbox_code `{Sys.World}
    (units_FromHumanSize : string -> option Z)
    (filepath_Abs : string -> option string)
    (actions : nat) (inMachine supported : bool)
    (scratchdir BuildStorageLocation BuildStorageSize : string)
    (t : list Sys.Call) :
  exists code ops,
    Cmd.main units_FromHumanSize filepath_Abs actions inMachine supported
      scratchdir BuildStorageLocation BuildStorageSize t = (code, t ++ ops) /\
    forall before after,
      ops = before ++ Sys.Machine_RunInMachineWithArgs :: after ->
      let r := Sys.reply (t ++ before) Sys.Machine_RunInMachineWithArgs in
      (phase_calls after <> [] -> Sys.err r = None /\ Sys.code r = 0%Z) /\
      (no_phase_failed t ops -> code = Sys.code r).
Proof. apply main_decides. Qed.

(** ***** What [main] removes on its way out *)

Lemma tidy_of_ends_with `{Sys.World} (deferred : list Sys.Call) (z : Z)
    (c : Sys.IO Z) :
  satisfies (ends_with is_TempFile deferred z) c ->
  satisfies (tidy deferred) c.
Proof.
  apply satisfies_weaken. intros t code ops [F C]. split; [exact F |].
  intros N. now destruct (C N).
Qed.

Lemma tidy_after `{Sys.World} (deferred : list Sys.Call)
    (t pre : list Sys.Call) (code : Z) (ops : list Sys.Call) :
  existsb is_TempFile pre = false ->
  tidy deferred (t ++ pre) code ops -> tidy deferred t code (pre ++ ops).
Proof.
  intros Fp [F C]. split; [now rewrite existsb_app, Fp, F |].
  intros N. apply npf_after in N. destruct (C N) as [front ->].
  exists (pre ++ front). now rewrite app_assoc.
Qed.

Lemma tidy_each `{Sys.World} (deferred : list Sys.Call) (exitcode : Z)
    (ph : Sys.Phase) (idxs : list nat) (rest : Sys.IO Z) :
  existsb is_TempFile deferred = false ->
  satisfies (tidy deferred) rest ->
  satisfies (tidy deferred) (Cmd.each_action ph idxs deferred exitcode rest).
Proof.
  intros Fd.
  apply (satisfies_each (fun _ => tidy deferred)) with (plan := []).
  - intros _ t p i F. split; [reflexivity |].
    intros N. apply npf_first in N as [N _]. contradiction.
  - intros _ t p i _. split; [exact Fd |].
    intros _. now exists [Sys.Action_phase p i].
  - intros _ t p i code ops _ _ [F C]. split; [exact F |].
    intros N. apply npf_first in N as [_ N].
    destruct (C N) as [front ->].
    now exists (Sys.Action_phase p i :: front).
Qed.

Lemma sandbox_tidy `{Sys.World} (all : list nat) (deferred : list Sys.Call) :
  existsb is_TempFile deferred = false ->
  satisfies (tidy deferred)
    (Cmd.each_action Sys.PreMachine all deferred 0
       (Sys.bind (Sys.call Sys.Machine_RunInMachineWithArgs)
          (fun r =>
             match Sys.err r with
             | Some _ => Cmd.returns deferred (Sys.code r)
             | None =>
                 if negb (Sys.code r =? 0)%Z
                 then Cmd.returns deferred (Sys.code r)
                 else Cmd.each_action Sys.PostMachine all deferred (Sys.code r)
                        (Cmd.returns deferred (Sys.code r))
             end))).
Proof.
  intros F. apply tidy_each; [exact F |].
  apply (satisfies_after (fun pre => existsb is_TempFile pre = false));
    [apply tidy_after
    | intros t; now exists (Sys.reply t Sys.Machine_RunInMachineWithArgs),
                           [Sys.Machine_RunInMachineWithArgs]
    |].
  intros r.
  apply (tidy_of_ends_with deferred (Sys.code r)).
  destruct (Sys.err r); [now apply ends_with_returns |].
  destruct (negb _); [now apply ends_with_returns |].
  apply ends_with_each;
    [reflexivity | reflexivity | exact F | now apply ends_with_returns].
Qed.

Lemma removes_nothing `{Sys.World} (t : list Sys.Call) (code : Z)
    (ops : list Sys.Call) :
  existsb is_TempFile ops = false -> removes_build_image t code ops.
Proof.
  intros F _ before dir pattern after D. exfalso.
  exact (no_split is_TempFile ops before (Sys.ioutil_TempFile dir pattern)
           after F eq_refl D).
Qed.

Lemma removes_of_tidy `{Sys.World} (deferred : list Sys.Call)
    (c : Sys.IO Z) :
  satisfies (tidy deferred) c -> satisfies removes_build_image c.
Proof.
  apply satisfies_weaken. intros t code ops [F _]. now apply removes_nothing.
Qed.

Lemma removes_after `{Sys.World} (t pre : list Sys.Call) (code : Z)
    (ops : list Sys.Call) :
  existsb is_TempFile pre = false ->
  removes_build_image (t ++ pre) code ops ->
  removes_build_image t code (pre ++ ops).
Proof.
  intros Fp R N before dir pattern after D.
  destruct (split_at is_TempFile pre ops before
              (Sys.ioutil_TempFile dir pattern) after Fp eq_refl D)
    as (b' & -> & D').
  apply npf_after in N. specialize (R N b' dir pattern after D').
  cbv zeta in R |- *. now rewrite <- app_assoc in R.
Qed.

Lemma removes_each `{Sys.World} (ph : Sys.Phase) (idxs : list nat)
    (deferred : list Sys.Call) (exitcode : Z) (rest : Sys.IO Z) :
  existsb is_TempFile deferred = false ->
  satisfies removes_build_image rest ->
  satisfies removes_build_image
    (Cmd.each_action ph idxs deferred exitcode rest).
Proof.
  intros Fd.
  apply (satisfies_each (fun _ => removes_build_image)) with (plan := []).
  - intros _ t p i _. now apply removes_nothing.
  - intros _ t p i _. apply removes_nothing. cbn [existsb is_TempFile].
    exact Fd.
  - intros _ t p i code ops _ _ R.
    now apply (removes_after t [Sys.Action_phase p i]).
Qed.

Lemma length_not_empty (s : string) :
  s <> "" -> negb (String.length s =? 0)%nat = true.
Proof. now destruct s. Qed.

(** The build image: [prepareBuildImage] and what [main] does with its
    results, around the sandbox. *)
Lemma prepare_removes `{Sys.World} (path : string) (sz : Z)
    (all : list nat) :
  satisfies removes_build_image
    (Sys.bind (Cmd.prepareBuildImage path sz)
       (fun prepared =>
          let (buildImage, e) := prepared in
          match e with
          | Some _ =>
              Cmd.returns
                (if negb (String.length buildImage =? 0)%nat
                 then [Sys.os_Remove buildImage] else []) 1
          | None =>
              Cmd.each_action Sys.PreMachine all
                (if negb (String.length buildImage =? 0)%nat
                 then [Sys.os_Remove buildImage] else []) 0
                (Sys.bind (Sys.call Sys.Machine_RunInMachineWithArgs)
                   (fun r =>
                      match Sys.err r with
                      | Some _ =>
                          Cmd.returns
                            (if negb (String.length buildImage =? 0)%nat
                             then [Sys.os_Remove buildImage] else [])
                            (Sys.code r)
                      | None =>
                          if negb (Sys.code r =? 0)%Z
                          then
                            Cmd.returns
                              (if negb (String.length buildImage =? 0)%nat
                               then [Sys.os_Remove buildImage] else [])
                              (Sys.code r)
                          else
                            Cmd.each_action Sys.PostMachine all
                              (if negb (String.length buildImage =? 0)%nat
                               then [Sys.os_Remove buildImage] else [])
                              (Sys.code r)
                              (Cmd.returns
                                 (if negb (String.length buildImage =? 0)%nat
                                  then [Sys.os_Remove buildImage] else [])
                                 (Sys.code r))
                      end))
          end)).
Proof.
  intros t. unfold Sys.bind at 1.
  destruct (prepareBuildImage_result path sz t)
    as (name & e & n & E & R & _ & _ & C2 & C3).
  cbv zeta in E, C2, C3. rewrite E.
  set (created := Sys.reply (t ++ [Sys.os_Stat path])
                    (Sys.ioutil_TempFile path ".debos-build-")) in *.
  set (deferred := if negb (String.length name =? 0)%nat
                   then [Sys.os_Remove name] else []).
  assert (Fd : existsb is_TempFile deferred = false)
    by (unfold deferred; destruct (negb _); reflexivity).
  set (t1 := t ++ firstn n (prepareBuildImage_plan path sz (Sys.out created))).
  assert (K : exists code ops,
             match e with
             | Some _ => Cmd.returns deferred 1
             | None =>
                 Cmd.each_action Sys.PreMachine all deferred 0
                   (Sys.bind (Sys.call Sys.Machine_RunInMachineWithArgs)
                      (fun r =>
                         match Sys.err r with
                         | Some _ => Cmd.returns deferred (Sys.code r)
                         | None =>
                             if negb (Sys.code r =? 0)%Z
                             then Cmd.returns deferred (Sys.code r)
                             else Cmd.each_action Sys.PostMachine all
                                    deferred (Sys.code r)
                                    (Cmd.returns deferred (Sys.code r))
                         end))
             end t1 = (code, t1 ++ ops) /\ tidy deferred t1 code ops).
  { destruct e.
    - apply (tidy_of_ends_with deferred 1). now apply ends_with_returns.
    - now apply sandbox_tidy. }
  destruct K as (code & ops & Ek & F & C).
  exists code, (firstn n (prepareBuildImage_plan path sz (Sys.out created))
                ++ ops).
  split; [fold deferred; rewrite Ek; unfold t1; now rewrite app_assoc |].
  intros N before dir pattern after D. cbv zeta. intros Er Eo.
  apply npf_after in N. destruct (C N) as [front Ef].
  assert (Dn : (n = 1 \/ n = 2 \/ n = 3 \/ n = 4 \/ n = 5 \/ n = 6)%nat) by lia.
  destruct Dn as [-> | Dn].
  { exfalso. cbn [firstn prepareBuildImage_plan] in D.
    destruct (split_at is_TempFile [Sys.os_Stat path] ops before
                (Sys.ioutil_TempFile dir pattern) after eq_refl eq_refl D)
      as (b' & _ & D').
    exact (no_split is_TempFile ops b' (Sys.ioutil_TempFile dir pattern)
             after F eq_refl D'). }
  assert (P : exists rest,
             firstn n (prepareBuildImage_plan path sz (Sys.out created)) =
             [Sys.os_Stat path]
             ++ Sys.ioutil_TempFile path ".debos-build-" :: rest /\
             existsb is_TempFile rest = false).
  { destruct Dn as [-> | [-> | [-> | [-> | ->]]]];
      eexists; (split; [reflexivity | reflexivity]). }
  destruct P as (rest & Ep & Fr). rewrite Ep, <- app_assoc in D.
  destruct (split_at is_TempFile [Sys.os_Stat path] _ before
              (Sys.ioutil_TempFile dir pattern) after eq_refl eq_refl D)
    as (b' & -> & D').
  destruct b' as [| b b']; cbn [app] in D'.
  2:{ exfalso. injection D' as _ D'.
      apply (no_split is_TempFile (rest ++ ops) b'
               (Sys.ioutil_TempFile dir pattern) after);
        [now rewrite existsb_app, Fr, F | reflexivity | exact D']. }
  injection D' as <- <- <-. rewrite app_nil_r in Er, Eo |- *.
  fold created in Er, Eo |- *.
  assert (En : name = Sys.out created).
  { destruct Dn as [-> | Dn]; [now destruct C2 | apply C3; lia]. }
  unfold deferred in Ef. rewrite En, (length_not_empty _ Eo) in Ef.
  exists (rest ++ front). now rewrite Ef, app_assoc.
Qed.

Lemma main_removes `{Sys.World}
    (units_FromHumanSize : string -> option Z)
    (filepath_Abs : string -> option string)
    (actions : nat) (inMachine supported : bool)
    (scratchdir BuildStorageLocation BuildStorageSize : string) :
  satisfies removes_build_image
    (Cmd.main units_FromHumanSize filepath_Abs actions inMachine supported
       scratchdir BuildStorageLocation BuildStorageSize).
Proof.
  unfold Cmd.main. cbv zeta.
  destruct inMachine, supported; cbn [negb andb orb];
    (apply removes_each; [reflexivity |]).
  1, 2: apply (removes_of_tidy []), (tidy_of_ends_with [] 0);
    repeat (apply ends_with_each; [reflexivity | reflexivity | reflexivity |]);
    now apply ends_with_returns.
  - destruct (negb (_ =? _)%nat);
      [| now apply (removes_of_tidy []), sandbox_tidy].
    destruct (units_FromHumanSize _);
      [| now apply (removes_of_tidy []), (tidy_of_ends_with [] 1),
                   ends_with_returns].
    destruct (filepath_Abs _);
      [| now apply (removes_of_tidy []), (tidy_of_ends_with [] 1),
                   ends_with_returns].
    apply prepare_removes.
  - apply (removes_of_tidy [Sys.os_RemoveAll scratchdir]),
          (tidy_of_ends_with _ 0).
    repeat (apply ends_with_each; [reflexivity | reflexivity | reflexivity |]).
    now apply ends_with_returns.
Qed.

Lemma main_direct_ends `{Sys.World}
    (units_FromHumanSize : string -> option Z)
    (filepath_Abs : string -> option string)
    (actions : nat)
    (scratchdir BuildStorageLocation BuildStorageSize : string) :
  satisfies (tidy [Sys.os_RemoveAll scratchdir])
    (Cmd.main units_FromHumanSize filepath_Abs actions false false
       scratchdir BuildStorageLocation BuildStorageSize).
Proof.
  unfold Cmd.main. cbv zeta. cbn [negb andb orb].
  apply (tidy_of_ends_with _ 0).
  repeat (apply ends_with_each; [reflexivity | reflexivity | reflexivity |]).
  now apply ends_with_returns.
Qed.

(** X18.  Unless a phase of an action failed, [main] ends by removing
    what it made: without a sandbox the last call removes the scratch
    directory with everything in it; around a sandbox with build
    storage, once the temporary file of the build image was created
    under a name that is not empty, the last call removes that file,
    whether preparing the image and running the sandbox succeeded or
    not. *)
Theorem main_removes_what_it_made `{Sys.World}
    (units_FromHumanSize : string -> option Z)
    (filepath_Abs : string -> option string)
    (actions : nat) (inMachine supported : bool)
    (scratchdir BuildStorageLocation BuildStorageSize : string)
    (t : list Sys.Call) :
  exists code ops,
    Cmd.main units_FromHumanSize filepath_Abs actions inMachine supported
      scratchdir BuildStorageLocation BuildStorageSize t = (code, t ++ ops) /\
    (no_phase_failed t ops ->
     (inMachine = false -> supported = false ->
      exists front, ops = front ++ [Sys.os_RemoveAll scratchdir]) /\
     (forall before dir pattern after,
        ops = before ++ Sys.ioutil_TempFile dir pattern :: after ->
        let r := Sys.reply (t ++ before) (Sys.ioutil_TempFile dir pattern) in
        Sys.err r = None -> Sys.out r <> "" ->
        exists mid, after = mid ++ [Sys.os_Remove (Sys.out r)])).
Proof.
  destruct (main_removes units_FromHumanSize filepath_Abs actions inMachine
              supported scratchdir BuildStorageLocation BuildStorageSize t)
    as (code & ops & E & R).
  exists code, ops. split; [exact E |]. intros N. split; [| now apply R].
  intros -> ->.
  destruct (main_direct_ends units_FromHumanSize filepath_Abs actions
              scratchdir BuildStorageLocation BuildStorageSize t)
    as (code' & ops' & E' & _ & C).
  rewrite E in E'. injection E' as _ E'. apply app_inv_head in E' as <-.
  now apply C.
Qed.
